(** * Liquid preview renderer: cache keys, render cache, mock context,
      Shopify filters and the render pipeline

    A shallow embedding of
      - [src/lib/liquid/cache.ts]      (cache keys and the D1-backed cache),
      - [src/lib/liquid/mock-generator.ts] (schema-driven mock context),
      - [src/lib/liquid/engine.ts]     (the Shopify filters, [escapeHtml],
                                        the parsing of the Shopify tags),
      - [src/lib/liquid/renderer.ts]   (renderSection, renderSectionsBatch),
      - [src/lib/db/index.ts]          (now),
      - the batch preview route        (POST),
    together with the JavaScript and SQLite primitives these functions
    call.  Definitions come first, the properties follow. *)

From Stdlib Require Import ZArith NArith List String Ascii Bool Lia.
From Stdlib Require Import Permutation Zpower.
From Stdlib Require Import SpecFloat.
From stdpp Require Import base option list strings gmap.

Set Warnings "-register-all,-clear-no-such-hyp".
Local Open Scope string_scope.
Local Open Scope Z_scope.

(* ================================================================== *)
(** * JavaScript primitives *)
(* ================================================================== *)

Module JS.

(** A JavaScript string is a sequence of code units.  The embedding uses
    Rocq strings: each [ascii] is one code unit in the range 0..255. *)

Definition charCode (c : ascii) : Z := Z.of_N (N_of_ascii c).

(** [Array.prototype.join] on an array of strings. *)
Fixpoint join (sep : string) (parts : list string) : string :=
  match parts with
  | [] => ""
  | [p] => p
  | p :: rest => p +:+ sep +:+ join sep rest
  end.

(** [Array.prototype.push] of one element, as a new list. *)
Definition push {A : Type} (parts : list A) (x : A) : list A := (parts ++ [x])%list.

(** Truthiness of an optional string argument: [undefined] and the empty
    string are falsy, every other string is truthy. *)
Definition truthy (o : option string) : bool :=
  match o with
  | Some s => negb (String.eqb s "")
  | None => false
  end.

(** ** 32-bit integer operators *)

Definition ToInt32 (z : Z) : Z := (z + 2 ^ 31) mod 2 ^ 32 - 2 ^ 31.

(** [a << n] *)
Definition shl (a n : Z) : Z := ToInt32 (Z.shiftl (ToInt32 a) (n mod 32)).

(** [a & b] *)
Definition and (a b : Z) : Z := ToInt32 (Z.land (ToInt32 a) (ToInt32 b)).

(** ** Number.prototype.toString(radix) on non-negative integers *)

Definition digitChar (d : N) : ascii :=
  if (d <? 10)%N then ascii_of_N (48 + d) else ascii_of_N (87 + d).

Fixpoint digitsFuel (fuel : nat) (radix n : N) (acc : string) : string :=
  match fuel with
  | O => acc
  | S fuel' =>
      let acc' := String (digitChar (n mod radix)) acc in
      if (n / radix =? 0)%N then acc' else digitsFuel fuel' radix (n / radix) acc'
  end.

Definition natToString (radix n : N) : string :=
  digitsFuel (S (N.to_nat (N.log2 n))) radix n "".

(** Decimal rendering of an integer, as [String(n)] gives it for an
    integer-valued number below 10^21 in magnitude. *)
Definition intToString (z : Z) : string :=
  if z <? 0 then "-" +:+ natToString 10 (Z.abs_N z) else natToString 10 (Z.abs_N z).

Fixpoint zeros (n : nat) : string :=
  match n with
  | O => ""
  | S n' => String "0" (zeros n')
  end.

(** ** Objects and JSON.stringify *)

(** JSON-shaped values.  Numbers are the integer-valued ones. *)
Inductive Value : Type :=
  | VNull
  | VBool (b : bool)
  | VNum (n : Z)
  | VStr (s : string)
  | VArr (items : list Value)
  | VObj (props : list (string * Value)).

(** An object is the list of its own properties in creation order (keys
    pairwise distinct). *)
Definition Obj := list (string * Value).

Definition isDigit (c : ascii) : bool :=
  let n := N_of_ascii c in ((48 <=? n) && (n <=? 57))%N.

Fixpoint decimalValue (s : string) (acc : N) : N :=
  match s with
  | EmptyString => acc
  | String c rest => decimalValue rest (10 * acc + (N_of_ascii c - 48))%N
  end.

Fixpoint allDigits (s : string) : bool :=
  match s with
  | EmptyString => true
  | String c rest => isDigit c && allDigits rest
  end.

(** A property key is an array index when it is the canonical decimal
    form of an integer in 0 .. 2^32 - 2. *)
Definition arrayIndex (k : string) : option N :=
  match k with
  | EmptyString => None
  | String c rest =>
      if allDigits k && (negb (Ascii.eqb c "0") || String.eqb rest "")
         && (String.length k <=? 10)%nat
      then let v := decimalValue k 0 in
           if (v <=? 4294967294)%N then Some v else None
      else None
  end.

Section OwnProperties.
Context {A : Type}.

Fixpoint insertIndexed (i : N) (kv : string * A)
    (sorted : list (N * (string * A))) : list (N * (string * A)) :=
  match sorted with
  | [] => [(i, kv)]
  | (j, kv') :: rest =>
      if (i <=? j)%N then (i, kv) :: sorted
      else (j, kv') :: insertIndexed i kv rest
  end.

Fixpoint indexedProps (props : list (string * A)) : list (N * (string * A)) :=
  match props with
  | [] => []
  | (k, v) :: rest =>
      match arrayIndex k with
      | Some i => insertIndexed i (k, v) (indexedProps rest)
      | None => indexedProps rest
      end
  end.

Fixpoint namedProps (props : list (string * A)) : list (string * A) :=
  match props with
  | [] => []
  | (k, v) :: rest =>
      match arrayIndex k with
      | Some _ => namedProps rest
      | None => (k, v) :: namedProps rest
      end
  end.

(** Own enumerable string-keyed properties in the order the language
    enumerates them: array indices ascending, then the other keys in
    creation order. *)
Definition ownEntries (props : list (string * A)) : list (string * A) :=
  map snd (indexedProps props) ++ namedProps props.
End OwnProperties.

Definition hexDigit (d : N) : ascii := digitChar d.

(** The double-quote code unit (34). *)
Definition dquote : ascii := "034"%char.

(** One code unit inside a JSON string literal. *)
Definition quoteChar (c : ascii) : string :=
  let n := N_of_ascii c in
  if (n =? 8)%N then "\b"
  else if (n =? 9)%N then "\t"
  else if (n =? 10)%N then "\n"
  else if (n =? 12)%N then "\f"
  else if (n =? 13)%N then "\r"
  else if (n =? 34)%N then String "\" (String dquote "")
  else if (n =? 92)%N then "\\"
  else if (n <? 32)%N then
    "\u00" +:+ String (hexDigit (n / 16)) (String (hexDigit (n mod 16)) "")
  else String c "".

Fixpoint quoteBody (s : string) : string :=
  match s with
  | EmptyString => ""
  | String c rest => quoteChar c +:+ quoteBody rest
  end.

Definition quote (s : string) : string :=
  String dquote (quoteBody s +:+ String dquote "").

Definition member (kv : string * string) : string :=
  quote (fst kv) +:+ ":" +:+ snd kv.

(** [JSON.stringify(v)] without indentation. *)
Fixpoint stringify (v : Value) : string :=
  match v with
  | VNull => "null"
  | VBool true => "true"
  | VBool false => "false"
  | VNum n => intToString n
  | VStr s => quote s
  | VArr items => "[" +:+ join "," (map stringify items) +:+ "]"
  | VObj props =>
      "{" +:+ join "," (map member
                 (ownEntries (map (fun kv => (fst kv, stringify (snd kv))) props)))
          +:+ "}"
  end.

(** ** Numbers

    A Number is an IEEE 754 binary64 value; the arithmetic is the
    Standard Library's executable specification of it. *)

Definition Number : Type := spec_float.

Definition prec : Z := 53.
Definition emax : Z := 1024.

(** The Number nearest to an integer (the integer itself up to 2^53). *)
Definition ofZ (z : Z) : Number := binary_normalize prec emax z 0 false.

(** [x / y] *)
Definition div (x y : Number) : Number := SFdiv prec emax x y.

(** [x % 1 === 0]: [x] is finite and has no fractional part. *)
Definition isWhole (x : Number) : bool :=
  match x with
  | S754_zero _ => true
  | S754_finite _ m e =>
      if 0 <=? e then true else Z.pos m mod 2 ^ (- e) =? 0
  | _ => false
  end.

(** The integer [n] for which [n / 10^f] is nearest to [m * 2^e]; of two
    such integers the larger one. *)
Definition nearestScaled (m : positive) (e : Z) (f : Z) : Z :=
  if 0 <=? e then Z.pos m * 2 ^ e * 10 ^ f
  else (2 * Z.pos m * 10 ^ f + 2 ^ (- e)) / 2 ^ (1 - e).

(** [m * 2^e >= 10^21] *)
Definition atLeast1e21 (m : positive) (e : Z) : bool :=
  if 0 <=? e then 10 ^ 21 <=? Z.pos m * 2 ^ e
  else 10 ^ 21 * 2 ^ (- e) <=? Z.pos m.

Fixpoint lastN (n : nat) (s : string) : string :=
  if (String.length s <=? n)%nat then s
  else match s with
       | EmptyString => ""
       | String _ rest => lastN n rest
       end.

Definition dropLastN (n : nat) (s : string) : string :=
  String.substring 0 (String.length s - n) s.

(** The digits of [n] with a decimal point before the last [f] of them,
    zero-padded on the left to [f + 1] digits. *)
Definition pointed (n : Z) (f : nat) : string :=
  let m := natToString 10 (Z.abs_N n) in
  match f with
  | O => m
  | _ =>
      let m := if (String.length m <=? f)%nat
               then zeros (f + 1 - String.length m) +:+ m else m in
      dropLastN f m +:+ "." +:+ lastN f m
  end.

(** [x.toFixed(f)].  [None] stands for the one case left out: a finite
    [x] of magnitude 10^21 or more, which is rendered in exponential
    form. *)
Definition toFixed (x : Number) (f : nat) : option string :=
  match x with
  | S754_nan => Some "NaN"
  | S754_infinity false => Some "Infinity"
  | S754_infinity true => Some "-Infinity"
  | S754_zero _ => Some (pointed 0 f)
  | S754_finite s m e =>
      if atLeast1e21 m e then None
      else Some ((if s then "-" else "") +:+ pointed (nearestScaled m e (Z.of_nat f)) f)
  end.

(** ** String methods *)

Definition inRange (lo hi : N) (c : ascii) : bool :=
  let n := N_of_ascii c in ((lo <=? n) && (n <=? hi))%N.

(** [toLowerCase] / [toUpperCase], one code unit at a time (the code
    units whose case mapping leaves the range 0..255 are kept). *)
Definition lowerChar (c : ascii) : ascii :=
  let n := N_of_ascii c in
  if inRange 65 90 c || (inRange 192 222 c && negb (n =? 215)%N)
  then ascii_of_N (n + 32) else c.

Definition upperChar (c : ascii) : ascii :=
  let n := N_of_ascii c in
  if inRange 97 122 c || (inRange 224 254 c && negb (n =? 247)%N)
  then ascii_of_N (n - 32) else c.

Fixpoint mapChars (f : ascii -> ascii) (s : string) : string :=
  match s with
  | EmptyString => ""
  | String c rest => String (f c) (mapChars f rest)
  end.

Definition toLowerCase : string -> string := mapChars lowerChar.
Definition toUpperCase : string -> string := mapChars upperChar.

Definition isLowerAlnum (c : ascii) : bool := inRange 97 122 c || inRange 48 57 c.

(** [s.replace(/[^a-z0-9]+/g, '-')]; [inRun] tells that the previous code
    unit belonged to a run already replaced. *)
Fixpoint replaceRuns (s : string) (inRun : bool) : string :=
  match s with
  | EmptyString => ""
  | String c rest =>
      if isLowerAlnum c then String c (replaceRuns rest false)
      else if inRun then replaceRuns rest true
      else String "-" (replaceRuns rest true)
  end.

Definition upperHex (d : N) : ascii :=
  if (d <? 10)%N then ascii_of_N (48 + d) else ascii_of_N (55 + d).

Definition percentByte (b : N) : string :=
  String "%" (String (upperHex (b / 16)) (String (upperHex (b mod 16)) "")).

Definition isUriUnreserved (c : ascii) : bool :=
  inRange 65 90 c || inRange 97 122 c || inRange 48 57 c
  || existsb (Ascii.eqb c) ["-"; "_"; "."; "!"; "~"; "*"; "'"; "("; ")"]%char.

(** [encodeURIComponent]: unreserved code units stay, the others become
    the percent-escapes of their UTF-8 bytes. *)
Fixpoint encodeURIComponent (s : string) : string :=
  match s with
  | EmptyString => ""
  | String c rest =>
      let n := N_of_ascii c in
      (if isUriUnreserved c then String c ""
       else if (n <? 128)%N then percentByte n
       else percentByte (192 + n / 64) +:+ percentByte (128 + n mod 64))
      +:+ encodeURIComponent rest
  end.


(** ** Property access on objects *)

Fixpoint getProp (o : Obj) (k : string) : option Value :=
  match o with
  | [] => None
  | (k', v) :: rest => if String.eqb k' k then Some v else getProp rest k
  end.

(** [k in o] for a plain object and a key that [Object.prototype] does
    not define. *)
Definition hasProp (o : Obj) (k : string) : bool :=
  match getProp o k with Some _ => true | None => false end.

(** [o[k] = v]: an existing property keeps its place, a new one is
    created last. *)
Fixpoint setProp (o : Obj) (k : string) (v : Value) : Obj :=
  match o with
  | [] => [(k, v)]
  | (k', v') :: rest =>
      if String.eqb k' k then (k', v) :: rest else (k', v') :: setProp rest k v
  end.

(** [Object.assign(target, source)] *)
Definition assign (target source : Obj) : Obj :=
  fold_left (fun o kv => setProp o (fst kv) (snd kv)) (ownEntries source) target.

(** ** The object store *)

(** Objects that are reachable from more than one place are kept in a
    store and named by their address. *)
Definition Ref := nat.
Definition Heap := list Obj.

Definition alloc (h : Heap) (o : Obj) : Ref * Heap := (length h, (h ++ [o])%list).
Definition deref (h : Heap) (r : Ref) : Obj := default [] (h !! r).
Definition store (h : Heap) (r : Ref) (o : Obj) : Heap := <[r := o]> h.

(** ** Exceptions and promises *)

(** What a [throw] carries: an [Error] instance with its message, or any
    other value. *)
Inductive Thrown : Type :=
  | ErrorObject (message : string)
  | OtherValue (shown : string).

(** The outcome of evaluating a call (or of awaiting a promise): a value
    returned, or an exception thrown (a rejection). *)
Inductive Completion (A : Type) : Type :=
  | Normal (a : A)
  | Throw (e : Thrown).
Arguments Normal {A} a.
Arguments Throw {A} e.

Definition bind {A B : Type} (c : Completion A) (k : A -> Completion B) : Completion B :=
  match c with
  | Normal a => k a
  | Throw e => Throw e
  end.

(** [try { body } catch (error) { handler }] *)
Definition tryCatch {A : Type} (body : Completion A) (handler : Thrown -> Completion A)
    : Completion A :=
  match body with
  | Normal a => Normal a
  | Throw e => handler e
  end.

(** ** Dates *)

(** Proleptic Gregorian date (year, month, day) of a day number counted
    from 1970-01-01. *)
Definition civilFromDays (days : Z) : Z * Z * Z :=
  let z := days + 719468 in
  let era := z / 146097 in
  let doe := z - era * 146097 in
  let yoe := (doe - doe / 1460 + doe / 36524 - doe / 146096) / 365 in
  let y := yoe + era * 400 in
  let doy := doe - (365 * yoe + yoe / 4 - yoe / 100) in
  let mp := (5 * doy + 2) / 153 in
  let d := doy - (153 * mp + 2) / 5 + 1 in
  let m := if mp <? 10 then mp + 3 else mp - 9 in
  (if m <=? 2 then y + 1 else y, m, d).

(** A non-negative integer in decimal, left-padded with zeros to [width]. *)
Definition padStart (width : nat) (n : Z) : string :=
  let digits := natToString 10 (Z.abs_N n) in
  zeros (width - String.length digits) +:+ digits.

Definition timeOfDay (msInDay : Z) : string :=
  padStart 2 (msInDay / 3600000) +:+ ":" +:+
  padStart 2 (msInDay / 60000 mod 60) +:+ ":" +:+
  padStart 2 (msInDay / 1000 mod 60).

Definition isoYear (y : Z) : string :=
  if (0 <=? y) && (y <=? 9999) then padStart 4 y
  else (if y <? 0 then "-" else "+") +:+ padStart 6 y.

(** [new Date(t).toISOString()] for a time value [t] in milliseconds
    since the epoch: [YYYY-MM-DDTHH:mm:ss.sssZ]; a time value outside the
    range of dates throws a RangeError. *)
Definition toISOString (t : Z) : Completion string :=
  if Z.abs t >? 8640000000000000 then Throw (ErrorObject "Invalid time value")
  else
    let '(y, m, d) := civilFromDays (t / 86400000) in
    let msInDay := t mod 86400000 in
    Normal (isoYear y +:+ "-" +:+ padStart 2 m +:+ "-" +:+ padStart 2 d +:+ "T" +:+
            timeOfDay msInDay +:+ "." +:+ padStart 3 (msInDay mod 1000) +:+ "Z").

End JS.

(* ================================================================== *)
(** * cache.ts *)
(* ================================================================== *)

Module Cache.

(** [generateCacheKey(sectionSlug, presetSlug?, settingsHash?)] *)
Definition generateCacheKey (sectionSlug : string)
    (presetSlug settingsHash : option string) : string :=
  let parts := [sectionSlug] in
  let parts := if JS.truthy presetSlug then JS.push parts (default "" presetSlug) else parts in
  let parts := if JS.truthy settingsHash then JS.push parts (default "" settingsHash) else parts in
  JS.join ":" parts.

(** One iteration of the loop of [hashSettings]. *)
Definition hashStep (hash : Z) (c : ascii) : Z :=
  let char := JS.charCode c in
  let hash := (JS.shl hash 5 - hash) + char in
  JS.and hash hash.

Fixpoint hashLoop (str : string) (hash : Z) : Z :=
  match str with
  | EmptyString => hash
  | String c rest => hashLoop rest (hashStep hash c)
  end.

(** [hashSettings(settings)] *)
Definition hashSettings (settings : JS.Obj) : string :=
  let str := JS.stringify (JS.VObj settings) in
  let hash := hashLoop str 0 in
  JS.natToString 36 (Z.abs_N hash).

(** ** The D1 table behind the cache *)

(** A row of [rendered_previews] (migration 003). *)
Record RenderedPreviewRow : Type := {
  id : Z;
  cache_key : string;
  section_slug : string;
  preset_slug : option string;
  html : string;
  css : option string;
  render_time_ms : option Z;
  created_at : string;
  expires_at : string
}.

(** The table with its AUTOINCREMENT counter. *)
Record Table : Type := {
  rows : list RenderedPreviewRow;
  lastId : Z
}.

(** The statements the cache prepares. *)
Inductive Statement : Type :=
  | SelectLive
  | InsertOrReplace
  | DeleteBySection
  | DeleteByPreset
  | DeleteExpired.

(** A D1 database: the table, and which statements the backend currently
    rejects (it is a remote service; a rejected statement throws). *)
Record D1Database : Type := {
  rendered_previews : Table;
  rejects : Statement -> bool
}.

(** [App.Locals]: [DB] is [locals.runtime.env.DB]; [None] stands for a
    missing binding, on which every method call throws a TypeError. *)
Record Locals : Type := {
  DB : option D1Database
}.

Definition withTable (db : D1Database) (t : Table) : Locals :=
  {| DB := Some {| rendered_previews := t; rejects := rejects db |} |}.

(** SQLite's [datetime('now')] at the instant [nowMs]:
    [YYYY-MM-DD HH:MM:SS], in UTC. *)
Definition sqliteDatetimeNow (nowMs : Z) : string :=
  let '(y, m, d) := JS.civilFromDays (nowMs / 86400000) in
  JS.padStart 4 y +:+ "-" +:+ JS.padStart 2 m +:+ "-" +:+ JS.padStart 2 d +:+ " " +:+
  JS.timeOfDay (nowMs mod 86400000).

(** Comparison of two TEXT values under the BINARY collation. *)
Definition textGt (a b : string) : bool := String.ltb b a.
Definition textLt (a b : string) : bool := String.ltb a b.

(** [getDB(locals)] followed by [db.prepare(...)]. *)
Definition prepare (locals : Locals) (stmt : Statement) : JS.Completion D1Database :=
  match DB locals with
  | None => JS.Throw (JS.ErrorObject "Cannot read properties of undefined (reading 'prepare')")
  | Some db =>
      if rejects db stmt then JS.Throw (JS.ErrorObject "D1_ERROR") else JS.Normal db
  end.

(** [SELECT html, css, render_time_ms FROM rendered_previews
     WHERE cache_key = ? AND expires_at > datetime('now')], [.first()]. *)
Definition selectLive (t : Table) (cacheKey : string) (nowMs : Z)
    : option RenderedPreviewRow :=
  find (fun r => String.eqb (cache_key r) cacheKey
                 && textGt (expires_at r) (sqliteDatetimeNow nowMs)) (rows t).

(** [INSERT OR REPLACE INTO rendered_previews (...) VALUES (...)]: a row
    with the same [cache_key] is deleted, then the new row is appended
    under a fresh id. *)
Definition insertOrReplace (t : Table) (cacheKey sectionSlug : string)
    (presetSlug : option string) (html : string) (css : option string)
    (renderTimeMs : Z) (createdAt expiresAt : string) : Table :=
  let kept := List.filter (fun r => negb (String.eqb (cache_key r) cacheKey)) (rows t) in
  let row := {| id := lastId t + 1; cache_key := cacheKey; section_slug := sectionSlug;
                preset_slug := presetSlug; html := html; css := css;
                render_time_ms := Some renderTimeMs;
                created_at := createdAt; expires_at := expiresAt |} in
  {| rows := (kept ++ [row])%list; lastId := lastId t + 1 |}.

(** [DELETE FROM rendered_previews WHERE <cond>]: the table left and
    [meta.changes]. *)
Definition deleteWhere (t : Table) (cond : RenderedPreviewRow -> bool) : Table * Z :=
  let kept := List.filter (fun r => negb (cond r)) (rows t) in
  ({| rows := kept; lastId := lastId t |},
   Z.of_nat (length (rows t)) - Z.of_nat (length kept)).

(** ** The cache operations *)

Record CacheEntry : Type := {
  entry_html : string;
  entry_css : option string;
  entry_renderTimeMs : Z
}.

(** [getCachedPreview(cacheKey, locals)], called at the instant [nowMs]. *)
Definition getCachedPreview (cacheKey : string) (locals : Locals) (nowMs : Z)
    : JS.Completion (option CacheEntry) :=
  JS.tryCatch
    (JS.bind (prepare locals SelectLive) (fun db =>
     let result := selectLive (rendered_previews db) cacheKey nowMs in
     match result with
     | None => JS.Normal None
     | Some r =>
         JS.Normal (Some {| entry_html := html r;
                            entry_css := css r;
                            entry_renderTimeMs := default 0 (render_time_ms r) |})
     end))
    (fun error => JS.Normal None).

(** [setCachedPreview(cacheKey, sectionSlug, presetSlug, entry, ttlMinutes,
    locals)], called at the instant [nowMs]: the completion of the call
    and the state of the backend after it. *)
Definition setCachedPreview (cacheKey sectionSlug : string) (presetSlug : option string)
    (entry : CacheEntry) (ttlMinutes : Z) (locals : Locals) (nowMs : Z)
    : JS.Completion unit * Locals :=
  let attempt : JS.Completion Locals :=
    JS.bind (JS.toISOString nowMs) (fun timestamp =>
    JS.bind (JS.toISOString (nowMs + ttlMinutes * 60 * 1000)) (fun expires =>
    JS.bind (prepare locals InsertOrReplace) (fun db =>
    JS.Normal (withTable db
      (insertOrReplace (rendered_previews db) cacheKey sectionSlug presetSlug
         (entry_html entry) (entry_css entry) (entry_renderTimeMs entry)
         timestamp expires))))) in
  match attempt with
  | JS.Normal locals' => (JS.Normal tt, locals')
  | JS.Throw error => (JS.Normal tt, locals)
  end.

(** [invalidateSectionCache(sectionSlug, locals)] *)
Definition invalidateSectionCache (sectionSlug : string) (locals : Locals)
    : JS.Completion Z * Locals :=
  match prepare locals DeleteBySection with
  | JS.Normal db =>
      let '(t, changes) :=
        deleteWhere (rendered_previews db)
          (fun r => String.eqb (section_slug r) sectionSlug) in
      (JS.Normal changes, withTable db t)
  | JS.Throw error => (JS.Normal 0, locals)
  end.

(** [invalidatePresetCache(presetSlug, locals)] *)
Definition invalidatePresetCache (presetSlug : string) (locals : Locals)
    : JS.Completion Z * Locals :=
  match prepare locals DeleteByPreset with
  | JS.Normal db =>
      let '(t, changes) :=
        deleteWhere (rendered_previews db)
          (fun r => match preset_slug r with
                    | Some p => String.eqb p presetSlug
                    | None => false
                    end) in
      (JS.Normal changes, withTable db t)
  | JS.Throw error => (JS.Normal 0, locals)
  end.

(** [cleanupExpiredCache(locals)], called at the instant [nowMs]. *)
Definition cleanupExpiredCache (locals : Locals) (nowMs : Z)
    : JS.Completion Z * Locals :=
  match prepare locals DeleteExpired with
  | JS.Normal db =>
      let '(t, changes) :=
        deleteWhere (rendered_previews db)
          (fun r => textLt (expires_at r) (sqliteDatetimeNow nowMs)) in
      (JS.Normal changes, withTable db t)
  | JS.Throw error => (JS.Normal 0, locals)
  end.

End Cache.

(* ================================================================== *)
(** * mock-generator.ts *)
(* ================================================================== *)

Module Mock.

Import JS.

(** ** Schema types (db/schema.ts)

    Setting ids and types are ordinary words: none is the name of a
    member of [Object.prototype]. *)

Record SectionSetting : Type := {
  setting_id : string;
  setting_type : string;
  setting_label : string;
  setting_default : option Value;
  setting_info : option string
}.

Record SectionBlock : Type := {
  block_type : string;
  block_name : string;
  block_limit : option Z;
  block_settings : option (list SectionSetting)
}.

(** What [generateMockBlocks] reads of a preset: its [blocks], each with
    a [type] and, when present, the [settings] object, held in the
    store. *)
Record PresetBlock : Type := {
  pb_type : string;
  pb_settings : option Ref
}.

Record SectionPreset : Type := {
  preset_name : string;
  preset_blocks : option (list PresetBlock)
}.

Record SectionData : Type := {
  name : string;
  slug : string;
  description : option string;
  category : string;
  settings : list SectionSetting;
  blocks : list SectionBlock;
  maxBlocks : Z;
  presets : list SectionPreset
}.

Record PresetColors : Type := {
  primary : string;
  secondary : string;
  accent : string;
  background : string;
  background_secondary : string;
  text : string;
  text_secondary : string
}.

Record PresetTypography : Type := {
  heading_font : string;
  body_font : string;
  heading_scale : Z;
  body_scale : Z
}.

Record StylePreset : Type := {
  colors : option PresetColors;
  typography : option PresetTypography
}.

(** ** Context types (mock-data.ts) *)

Record MockBlockContext : Type := {
  mb_id : string;
  mb_type : string;
  mb_settings : Ref;
  mb_shopify_attributes : string
}.

Record MockSectionContext : Type := {
  sc_id : string;
  sc_settings : Obj;
  sc_blocks : list MockBlockContext
}.

Record RenderContext : Type := {
  ctx_shop : Value;
  ctx_request : Value;
  ctx_template : Value;
  ctx_cart : Value;
  ctx_customer : Value;
  ctx_canonical_url : string;
  ctx_page_title : string;
  ctx_page_description : string;
  ctx_settings : Obj;
  ctx_section : MockSectionContext;
  ctx_product : option Value;
  ctx_collection : option Value;
  ctx_collections : option (list Value);
  ctx_linklists : Value;
  ctx_routes : Value;
  ctx_content_for_header : string;
  ctx_content_for_layout : string
}.

Definition dq : string := String dquote "".

Definition natStr (n : Z) : string := intToString n.

Definition strs (l : list string) : Value := VArr (map VStr l).

Definition nthStr (l : list string) (i : Z) : string :=
  nth (Z.to_nat (i mod Z.of_nat (length l))) l "".

(** ** Generators *)

Definition getPlaceholderImage (width height : Z) (text : option string) : string :=
  let label := if truthy text then encodeURIComponent (default "" text) else "Preview" in
  "https://placehold.co/" +:+ natStr width +:+ "x" +:+ natStr height
    +:+ "/e2e8f0/64748b?text=" +:+ label.

Definition generateMockImage (index : Z) (category : option string) : Value :=
  let width := 800 in
  let height := 800 in
  VObj [("id", VNum (1000 + index));
        ("src", VStr (getPlaceholderImage width height
                        (Some (if truthy category then default "" category else "Product"))));
        ("alt", VStr ("Sample image " +:+ natStr (index + 1)));
        ("width", VNum width);
        ("height", VNum height);
        ("aspect_ratio", VNum (width / height));
        ("position", VNum (index + 1))].

Definition sizes : list string := ["Small"; "Medium"; "Large"; "X-Large"].
Definition colorNames : list string := ["Black"; "White"; "Navy"; "Gray"].

Definition generateMockVariant (index : Z) (productHandle : string) : Value :=
  let size := nthStr sizes index in
  let color := nthStr colorNames (index / Z.of_nat (length sizes)) in
  let price := 2999 + index * 500 in
  VObj [("id", VNum (2000 + index));
        ("title", VStr (size +:+ " / " +:+ color));
        ("sku", VStr ("SKU-" +:+ toUpperCase productHandle +:+ "-" +:+ natStr (index + 1)));
        ("barcode", VStr ("123456789" +:+ natStr index));
        ("price", VNum price);
        ("compare_at_price", if index mod 2 =? 0 then VNum (price + 1000) else VNull);
        ("available", VBool (negb (index mod 3 =? 2)));
        ("inventory_quantity", VNum (10 + index));
        ("inventory_policy", VStr "deny");
        ("option1", VStr size);
        ("option2", VStr color);
        ("option3", VNull);
        ("image", VNull);
        ("featured_image", VNull);
        ("url", VStr ("/products/" +:+ productHandle +:+ "?variant=" +:+ natStr (2000 + index)));
        ("weight", VNum 500);
        ("weight_unit", VStr "g")].

Definition optionValue (value : string) (available : bool) : Value :=
  VObj [("value", VStr value); ("available", VBool available)].

Definition mediaOf (i : Z) (img : Value) : Value :=
  VObj [("id", VNum (3000 + i));
        ("media_type", VStr "image");
        ("preview_image", img);
        ("alt", match img with
                | VObj props => default VNull (getProp props "alt")
                | _ => VNull
                end);
        ("position", VNum (i + 1))].

Definition generateMockProduct (index : Z) : Value :=
  let titles := ["Premium Cotton T-Shirt"; "Classic Denim Jacket"; "Leather Messenger Bag";
                 "Wireless Headphones"; "Organic Face Serum"; "Handcrafted Ceramic Mug"] in
  let vendors := ["Acme Co"; "StyleBrand"; "TechGear"; "NatureCraft"] in
  let types := ["Apparel"; "Accessories"; "Electronics"; "Home & Garden"] in
  let title := nthStr titles index in
  let handle := replaceRuns (toLowerCase title) false in
  let price := 2999 + index * 1000 in
  let variants := map (fun i => generateMockVariant i handle) [0; 1; 2; 3] in
  let images := map (fun i => generateMockImage i (Some "Product")) [0; 1; 2] in
  let image0 := nth 0 images VNull in
  let variant0 := nth 0 variants VNull in
  let even := index mod 2 =? 0 in
  VObj [("id", VNum (1000 + index));
        ("title", VStr title);
        ("handle", VStr handle);
        ("description", VStr ("<p>High-quality " +:+ toLowerCase title +:+
           " made with premium materials. Perfect for everyday use with exceptional durability and style.</p>"));
        ("price", VNum price);
        ("price_min", VNum price);
        ("price_max", VNum (price + 2000));
        ("compare_at_price", if even then VNum (price + 1500) else VNull);
        ("compare_at_price_min", if even then VNum (price + 1500) else VNull);
        ("compare_at_price_max", if even then VNum (price + 3500) else VNull);
        ("featured_image", image0);
        ("featured_media", VObj [("id", VNum 3000); ("media_type", VStr "image");
                                 ("preview_image", image0); ("alt", VStr title);
                                 ("position", VNum 1)]);
        ("images", VArr images);
        ("media", VArr [mediaOf 0 (nth 0 images VNull); mediaOf 1 (nth 1 images VNull);
                        mediaOf 2 (nth 2 images VNull)]);
        ("variants", VArr variants);
        ("options", VArr [VObj [("name", VStr "Size"); ("position", VNum 1); ("values", strs sizes)];
                          VObj [("name", VStr "Color"); ("position", VNum 2); ("values", strs colorNames)]]);
        ("options_with_values",
           VArr [VObj [("name", VStr "Size"); ("position", VNum 1);
                       ("values", VArr [optionValue "Small" true; optionValue "Medium" true;
                                        optionValue "Large" true; optionValue "X-Large" false]);
                       ("selected_value", VStr "Medium")];
                 VObj [("name", VStr "Color"); ("position", VNum 2);
                       ("values", VArr [optionValue "Black" true; optionValue "White" true;
                                        optionValue "Navy" true; optionValue "Gray" true]);
                       ("selected_value", VStr "Black")]]);
        ("vendor", VStr (nthStr vendors index));
        ("type", VStr (nthStr types index));
        ("tags", strs (firstn (Z.to_nat (index mod 3 + 1)) ["new"; "featured"; "bestseller"]));
        ("available", VBool true);
        ("selected_variant", variant0);
        ("selected_or_first_available_variant", variant0);
        ("first_available_variant", variant0);
        ("has_only_default_variant", VBool false);
        ("requires_selling_plan", VBool false);
        ("selling_plan_groups", VArr []);
        ("url", VStr ("/products/" +:+ handle));
        ("collections", VArr [])].

Definition sortOption (name value : string) : Value :=
  VObj [("name", VStr name); ("value", VStr value)].

Definition generateMockCollection (index : Z) : Value :=
  let titles := ["New Arrivals"; "Best Sellers"; "Summer Collection"; "Sale Items";
                 "Featured Products"] in
  let title := nthStr titles index in
  let handle := replaceRuns (toLowerCase title) false in
  let products := map generateMockProduct [0; 1; 2; 3; 4; 5; 6; 7] in
  VObj [("id", VNum (5000 + index));
        ("title", VStr title);
        ("handle", VStr handle);
        ("description", VStr ("<p>Explore our " +:+ toLowerCase title +:+
           " featuring the best products curated just for you.</p>"));
        ("image", generateMockImage 0 (Some "Collection"));
        ("products", VArr products);
        ("products_count", VNum (Z.of_nat (length products)));
        ("all_products_count", VNum 24);
        ("all_tags", strs ["new"; "featured"; "sale"; "bestseller"]);
        ("all_types", strs ["Apparel"; "Accessories"; "Electronics"]);
        ("all_vendors", strs ["Acme Co"; "StyleBrand"; "TechGear"]);
        ("url", VStr ("/collections/" +:+ handle));
        ("current_type", VNull);
        ("current_vendor", VNull);
        ("sort_by", VStr "best-selling");
        ("sort_options",
           VArr [sortOption "Best Selling" "best-selling";
                 sortOption "Alphabetically, A-Z" "title-ascending";
                 sortOption "Alphabetically, Z-A" "title-descending";
                 sortOption "Price, low to high" "price-ascending";
                 sortOption "Price, high to low" "price-descending";
                 sortOption "Date, old to new" "created-ascending";
                 sortOption "Date, new to old" "created-descending"])].

Record MockShopData : Type := {
  shop : Value;
  request : Value;
  template : Value;
  cart : Value;
  customer : Value;
  canonical_url : string;
  page_title : string;
  page_description : string
}.

Definition generateMockShop : MockShopData :=
  {| shop := VObj [("name", VStr "Demo Store");
                   ("description", VStr "Your one-stop shop for quality products");
                   ("email", VStr "hello@demo-store.com");
                   ("url", VStr "https://demo-store.myshopify.com");
                   ("currency", VObj [("iso_code", VStr "USD")]);
                   ("money_format", VStr "${{amount}}");
                   ("enabled_payment_types",
                      strs ["visa"; "mastercard"; "amex"; "paypal"; "apple_pay"; "google_pay"])];
     request := VObj [("locale", VObj [("iso_code", VStr "en"); ("name", VStr "English")]);
                      ("host", VStr "demo-store.myshopify.com");
                      ("path", VStr "/")];
     template := VObj [("name", VStr "index"); ("suffix", VNull)];
     cart := VObj [("currency", VObj [("iso_code", VStr "USD")]);
                   ("item_count", VNum 3);
                   ("items", VArr []);
                   ("total_price", VNum 8997);
                   ("original_total_price", VNum 10497)];
     customer := VNull;
     canonical_url := "https://demo-store.myshopify.com/";
     page_title := "Demo Store";
     page_description := "Your one-stop shop for quality products" |}.

Definition typeDefaults : Obj :=
  [("text", VStr "Sample text");
   ("textarea", VStr "Sample paragraph text with more details about this section.");
   ("richtext", VStr "<p>Sample rich text content with <strong>formatting</strong>.</p>");
   ("html", VStr ("<div class=" +:+ dq +:+ "custom-html" +:+ dq +:+ ">Custom HTML content</div>"));
   ("image_picker", VNull);
   ("video", VNull);
   ("video_url", VNull);
   ("url", VStr "#");
   ("checkbox", VBool false);
   ("range", VNum 50);
   ("number", VNum 1);
   ("select", VNull);
   ("radio", VNull);
   ("color", VStr "#000000");
   ("color_background", VStr "rgba(0,0,0,0)");
   ("font_picker", VStr "sans-serif");
   ("collection", VNull);
   ("collection_list", VArr []);
   ("product", VNull);
   ("product_list", VArr []);
   ("blog", VNull);
   ("article", VNull);
   ("page", VNull);
   ("link_list", VNull);
   ("header", VNull);
   ("paragraph", VNull)].

(** [getDefaultValue(setting)] *)
Definition getDefaultValue (setting : SectionSetting) : Value :=
  match setting_default setting with
  | Some v => v
  | None => default VNull (getProp typeDefaults (setting_type setting))
  end.

(** [extractSettingsDefaults(settings)] *)
Definition extractSettingsDefaults (settings : list SectionSetting) : Obj :=
  fold_left
    (fun result setting =>
       if String.eqb (setting_type setting) "header"
          || String.eqb (setting_type setting) "paragraph"
       then result
       else setProp result (setting_id setting) (getDefaultValue setting))
    settings [].

Definition shopifyAttributes (index : nat) (type : string) : string :=
  "data-shopify-editor-block='{" +:+ dq +:+ "id" +:+ dq +:+ ":" +:+ dq +:+ "block-"
    +:+ natStr (Z.of_nat index) +:+ dq +:+ "," +:+ dq +:+ "type" +:+ dq +:+ ":" +:+ dq
    +:+ type +:+ dq +:+ "}'".

(** The loop that merges the block type's defaults into [blockSettings],
    the object at address [r]. *)
Definition mergeDefaults (settings : list SectionSetting) (r : Ref) (h : Heap) : Heap :=
  fold_left
    (fun h setting =>
       let blockSettings := deref h r in
       if hasProp blockSettings (setting_id setting) then h
       else store h r (setProp blockSettings (setting_id setting) (getDefaultValue setting)))
    settings h.

(** [preset.blocks.map((block, index) => ...)], from position [index]. *)
Fixpoint mapPresetBlocks (blockTypes : list SectionBlock) (blocks : list PresetBlock)
    (index : nat) (h : Heap) : list MockBlockContext * Heap :=
  match blocks with
  | [] => ([], h)
  | block :: rest =>
      let blockType :=
        find (fun bt => String.eqb (block_type bt) (pb_type block)) blockTypes in
      let '(blockSettings, h) :=
        match pb_settings block with
        | Some r => (r, h)
        | None => alloc h []
        end in
      let h :=
        match blockType with
        | Some bt =>
            match block_settings bt with
            | Some settings => mergeDefaults settings blockSettings h
            | None => h
            end
        | None => h
        end in
      let ctx := {| mb_id := "block-" +:+ natStr (Z.of_nat index);
                    mb_type := pb_type block;
                    mb_settings := blockSettings;
                    mb_shopify_attributes := shopifyAttributes index (pb_type block) |} in
      let '(ctxs, h) := mapPresetBlocks blockTypes rest (S index) h in
      (ctx :: ctxs, h)
  end.

(** [blockTypes.slice(0, 3).map((blockType, index) => ...)], from
    position [index]. *)
Fixpoint mapBlockTypes (blockTypes : list SectionBlock) (index : nat) (h : Heap)
    : list MockBlockContext * Heap :=
  match blockTypes with
  | [] => ([], h)
  | blockType :: rest =>
      let blockSettings :=
        match block_settings blockType with
        | Some settings =>
            fold_left (fun o setting => setProp o (setting_id setting) (getDefaultValue setting))
                      settings []
        | None => []
        end in
      let '(r, h) := alloc h blockSettings in
      let ctx := {| mb_id := "block-" +:+ natStr (Z.of_nat index);
                    mb_type := block_type blockType;
                    mb_settings := r;
                    mb_shopify_attributes := shopifyAttributes index (block_type blockType) |} in
      let '(ctxs, h) := mapBlockTypes rest (S index) h in
      (ctx :: ctxs, h)
  end.

(** [generateMockBlocks(blockTypes, presets)] *)
Definition generateMockBlocks (blockTypes : list SectionBlock) (presets : list SectionPreset)
    (h : Heap) : list MockBlockContext * Heap :=
  match presets with
  | preset :: _ =>
      match preset_blocks preset with
      | Some blocks => mapPresetBlocks blockTypes blocks 0 h
      | None => mapBlockTypes (firstn 3 blockTypes) 0 h
      end
  | [] => mapBlockTypes (firstn 3 blockTypes) 0 h
  end.

(** [generateThemeSettings(preset)] *)
Definition generateThemeSettings (preset : option StylePreset) : Obj :=
  let defaults : Obj :=
    [("color_primary", VStr "#2563eb");
     ("color_secondary", VStr "#64748b");
     ("color_accent", VStr "#f59e0b");
     ("color_background", VStr "#ffffff");
     ("color_background_secondary", VStr "#f8fafc");
     ("color_text", VStr "#1e293b");
     ("color_text_secondary", VStr "#64748b");
     ("typography_heading_font", VStr "Inter");
     ("typography_body_font", VStr "Inter");
     ("typography_heading_scale", VNum 100);
     ("typography_body_scale", VNum 100);
     ("button_border_radius", VNum 8);
     ("button_padding_vertical", VNum 12);
     ("button_padding_horizontal", VNum 24);
     ("page_width", VNum 1200);
     ("spacing_sections", VNum 48);
     ("social_twitter_link", VStr "");
     ("social_facebook_link", VStr "");
     ("social_instagram_link", VStr "")] in
  let defaults :=
    match preset ≫= colors with
    | Some c =>
        let d := setProp defaults "color_primary" (VStr (primary c)) in
        let d := setProp d "color_secondary" (VStr (secondary c)) in
        let d := setProp d "color_accent" (VStr (accent c)) in
        let d := setProp d "color_background" (VStr (background c)) in
        let d := setProp d "color_background_secondary" (VStr (background_secondary c)) in
        let d := setProp d "color_text" (VStr (text c)) in
        setProp d "color_text_secondary" (VStr (text_secondary c))
    | None => defaults
    end in
  match preset ≫= typography with
  | Some t =>
      let d := setProp defaults "typography_heading_font" (VStr (heading_font t)) in
      let d := setProp d "typography_body_font" (VStr (body_font t)) in
      let d := setProp d "typography_heading_scale" (VNum (heading_scale t)) in
      setProp d "typography_body_scale" (VNum (body_scale t))
  | None => defaults
  end.

Record MockEntities : Type := {
  ent_product : option Value;
  ent_collection : option Value;
  ent_collections : option (list Value)
}.

Definition oneOf (s : string) (l : list string) : bool := existsb (String.eqb s) l.

(** [generateMockEntities(category)] *)
Definition generateMockEntities (category : string) : MockEntities :=
  if oneOf category ["product"; "main-product"] then
    {| ent_product := Some (generateMockProduct 0);
       ent_collection := None; ent_collections := None |}
  else if oneOf category ["collection"; "main-collection"] then
    {| ent_product := None;
       ent_collection := Some (generateMockCollection 0); ent_collections := None |}
  else if oneOf category ["featured-collection"; "collection-list"] then
    let collections := map generateMockCollection [0; 1; 2; 3] in
    {| ent_product := None;
       ent_collection := Some (nth 0 collections VNull);
       ent_collections := Some collections |}
  else if oneOf category ["hero"; "slideshow"; "image-banner"] then
    {| ent_product := None; ent_collection := None; ent_collections := None |}
  else
    {| ent_product := Some (generateMockProduct 0);
       ent_collection := Some (generateMockCollection 0); ent_collections := None |}.

Definition menuLink (handle title type url : string) : Value :=
  VObj [("active", VBool false); ("child_active", VBool false); ("current", VBool false);
        ("child_current", VBool false); ("handle", VStr handle); ("levels", VNum 0);
        ("links", VArr []); ("object", VNull); ("title", VStr title); ("type", VStr type);
        ("url", VStr url)].

Definition linklists : Value :=
  VObj [("main-menu",
           VObj [("handle", VStr "main-menu"); ("title", VStr "Main Menu"); ("levels", VNum 2);
                 ("links", VArr [menuLink "home" "Home" "http" "/";
                                 menuLink "catalog" "Catalog" "collection" "/collections/all";
                                 menuLink "about" "About" "page" "/pages/about";
                                 menuLink "contact" "Contact" "page" "/pages/contact"])]);
        ("footer-menu",
           VObj [("handle", VStr "footer-menu"); ("title", VStr "Footer Menu"); ("levels", VNum 1);
                 ("links", VArr [menuLink "search" "Search" "http" "/search";
                                 menuLink "about" "About Us" "page" "/pages/about";
                                 menuLink "contact" "Contact" "page" "/pages/contact"])])].

Definition routes : Value :=
  VObj [("root_url", VStr "/");
        ("account_url", VStr "/account");
        ("account_login_url", VStr "/account/login");
        ("account_logout_url", VStr "/account/logout");
        ("account_register_url", VStr "/account/register");
        ("account_addresses_url", VStr "/account/addresses");
        ("collections_url", VStr "/collections");
        ("all_products_collection_url", VStr "/collections/all");
        ("search_url", VStr "/search");
        ("cart_url", VStr "/cart")].

(** [generateMockDataFromSchema(sectionSchema, preset)]: the context
    returned and the object store after the call. *)
Definition generateMockDataFromSchema (sectionSchema : SectionData)
    (preset : option StylePreset) (h : Heap) : RenderContext * Heap :=
  let shopData := generateMockShop in
  let sectionSettings := extractSettingsDefaults (settings sectionSchema) in
  let '(blocks, h) := generateMockBlocks (blocks sectionSchema) (presets sectionSchema) h in
  let themeSettings := generateThemeSettings preset in
  let mockEntities := generateMockEntities (category sectionSchema) in
  ({| ctx_shop := shop shopData;
      ctx_request := request shopData;
      ctx_template := template shopData;
      ctx_cart := cart shopData;
      ctx_customer := customer shopData;
      ctx_canonical_url := canonical_url shopData;
      ctx_page_title := page_title shopData;
      ctx_page_description := page_description shopData;
      ctx_settings := themeSettings;
      ctx_section := {| sc_id := slug sectionSchema;
                        sc_settings := sectionSettings;
                        sc_blocks := blocks |};
      ctx_product := ent_product mockEntities;
      ctx_collection := ent_collection mockEntities;
      ctx_collections := ent_collections mockEntities;
      ctx_linklists := linklists;
      ctx_routes := routes;
      ctx_content_for_header := "<!-- header content -->";
      ctx_content_for_layout := "<!-- main content -->" |}, h).

End Mock.

(* ================================================================== *)
(** * engine.ts: the Shopify filters *)
(* ================================================================== *)

Module Filters.

Import JS.

(** [getPlaceholderImage(width, height)] *)
Definition getPlaceholderImage (width height : Z) : string :=
  "https://placehold.co/" +:+ intToString width +:+ "x" +:+ intToString height
    +:+ "/e2e8f0/64748b?text=Preview".




(** The money filters.  The result is [None] exactly when [toFixed] is. *)
Definition money (cents : Number) : option string :=
  dollars ← toFixed (div cents (ofZ 100)) 2;
  Some ("$" +:+ dollars).

Definition money_with_currency (cents : Number) : option string :=
  dollars ← toFixed (div cents (ofZ 100)) 2;
  Some ("$" +:+ dollars +:+ " USD").

Definition money_without_currency (cents : Number) : option string :=
  dollars ← toFixed (div cents (ofZ 100)) 2;
  Some ("$" +:+ dollars).

Definition money_without_trailing_zeros (cents : Number) : option string :=
  let dollars := div cents (ofZ 100) in
  shown ← (if isWhole dollars then toFixed dollars 0 else toFixed dollars 2);
  Some ("$" +:+ shown).

(** *** What the money filters are to show

    The decimal rendering of [c / 100] for an integer number of cents
    [c], written from the integer itself. *)

(** The digits of [n / 100], a point, and the two digits of [n mod 100]. *)
Definition twoDecimals (n : N) : string :=
  natToString 10 (n / 100) +:+ "." +:+
  String (digitChar (n / 10 mod 10)) (String (digitChar (n mod 10)) "").

Definition signText (c : Z) : string := if c <? 0 then "-" else "".

(** [c / 100] with exactly two decimal digits. *)
Definition centsText (c : Z) : string := signText c +:+ twoDecimals (Z.abs_N c).

(** [c / 100] with no decimal digits, for [c] a multiple of 100. *)
Definition wholeText (c : Z) : string :=
  signText c +:+ natToString 10 (Z.abs_N c / 100).

End Filters.

(* ================================================================== *)
(** * renderer.ts *)
(* ================================================================== *)

Module Renderer.

Import JS.

Record RenderResult : Type := {
  html : string;
  css : string;
  errors : list string;
  renderTimeMs : Z;
  cached : bool
}.

(** [RenderOptions]; [skipCache] absent reads as [false]. *)
Record RenderOptions : Type := {
  sectionSlug : string;
  presetSlug : option string;
  customSettings : option Obj;
  locals : Cache.Locals;
  skipCache : bool
}.

(** What a render reads from outside the module: the content collection
    of sections, the bundled preset and template files (keyed by path),
    and the Liquid engine with its tags and filters registered. *)
Record Site : Type := {
  getCollection : Completion (list Mock.SectionData);
  presetFiles : gmap string Mock.StylePreset;
  templateFiles : gmap string string;
  parseAndRender : string -> Mock.RenderContext -> Heap -> Completion string
}.

(** The clock readings of one render: the two readings of
    [performance.now()] (in milliseconds) and the wall-clock instants of
    the cache lookup and of the cache write. *)
Record Timing : Type := {
  perfStart : Z;
  perfEnd : Z;
  lookupAt : Z;
  storeAt : Z
}.

Section Render.

(** The Liquid source generated from a schema and the preview
    stylesheet: fixed texts assembled from the schema alone. *)
Variable generateTemplateFromSchema : Mock.SectionData -> string.
Variable generatePreviewCSS : Mock.SectionData -> string.

Variable site : Site.

(** [loadSectionData(slug)] *)
Definition loadSectionData (slug : string) : option Mock.SectionData :=
  match getCollection site with
  | Normal sections => find (fun s => String.eqb (Mock.slug s) slug) sections
  | Throw error => None
  end.

(** [loadPresetData(slug)] *)
Definition loadPresetData (slug : string) : option Mock.StylePreset :=
  presetFiles site !! ("/library/presets/" +:+ slug +:+ ".json").

(** [loadSectionTemplate(slug)] *)
Definition loadSectionTemplate (slug : string) : option string :=
  let templatePath := "/library/base-theme/sections/" +:+ slug +:+ ".liquid" in
  if truthy (templateFiles site !! templatePath)
  then templateFiles site !! templatePath
  else None.

Definition errorMarker (kind message : string) : string :=
  "<div class=" +:+ Mock.dq +:+ "error" +:+ Mock.dq +:+ ">" +:+ kind +:+ message +:+ "</div>".

(** The message recorded for a value caught at the render boundary. *)
Definition messageOf (error : Thrown) : string :=
  match error with
  | ErrorObject message => message
  | OtherValue _ => "Unknown render error"
  end.

(** The cache key of a request. *)
Definition cacheKeyOf (options : RenderOptions) : string :=
  let settingsHash := Cache.hashSettings <$> customSettings options in
  Cache.generateCacheKey (sectionSlug options) (presetSlug options) settingsHash.

(** The template of a section: the stored one, else the generated one. *)
Definition resolveTemplate (sectionData : Mock.SectionData) : string :=
  let template := loadSectionTemplate (Mock.slug sectionData) in
  if negb (truthy template) then generateTemplateFromSchema sectionData
  else default "" template.

(** The context handed to the engine: the mock data with the custom
    settings assigned over the section settings. *)
Definition buildContext (options : RenderOptions) (sectionData : Mock.SectionData)
    (h : Heap) : Mock.RenderContext * Heap :=
  let presetData :=
    if truthy (presetSlug options)
    then loadPresetData (default "" (presetSlug options)) else None in
  let '(context, h) := Mock.generateMockDataFromSchema sectionData presetData h in
  let context :=
    match customSettings options with
    | Some custom =>
        let section := Mock.ctx_section context in
        {| Mock.ctx_shop := Mock.ctx_shop context;
           Mock.ctx_request := Mock.ctx_request context;
           Mock.ctx_template := Mock.ctx_template context;
           Mock.ctx_cart := Mock.ctx_cart context;
           Mock.ctx_customer := Mock.ctx_customer context;
           Mock.ctx_canonical_url := Mock.ctx_canonical_url context;
           Mock.ctx_page_title := Mock.ctx_page_title context;
           Mock.ctx_page_description := Mock.ctx_page_description context;
           Mock.ctx_settings := Mock.ctx_settings context;
           Mock.ctx_section :=
             {| Mock.sc_id := Mock.sc_id section;
                Mock.sc_settings := assign (Mock.sc_settings section) custom;
                Mock.sc_blocks := Mock.sc_blocks section |};
           Mock.ctx_product := Mock.ctx_product context;
           Mock.ctx_collection := Mock.ctx_collection context;
           Mock.ctx_collections := Mock.ctx_collections context;
           Mock.ctx_linklists := Mock.ctx_linklists context;
           Mock.ctx_routes := Mock.ctx_routes context;
           Mock.ctx_content_for_header := Mock.ctx_content_for_header context;
           Mock.ctx_content_for_layout := Mock.ctx_content_for_layout context |}
    | None => context
    end in
  (context, h).

(** The part of [renderSection] after the cache lookup has missed (or
    was skipped). *)
Definition renderFresh (options : RenderOptions) (h : Heap) (timing : Timing)
    : Completion RenderResult * Cache.Locals * Heap :=
  let cacheKey := cacheKeyOf options in
  match loadSectionData (sectionSlug options) with
  | None =>
      (Normal {| html := errorMarker "Section not found: " (sectionSlug options);
                 css := "";
                 errors := ["Section not found: " +:+ sectionSlug options];
                 renderTimeMs := perfEnd timing - perfStart timing;
                 cached := false |},
       locals options, h)
  | Some sectionData =>
      let template := resolveTemplate sectionData in
      let '(context, h) := buildContext options sectionData h in
      let '(html, errors) :=
        match parseAndRender site template context h with
        | Normal html => (html, [])
        | Throw error =>
            let message := messageOf error in
            (errorMarker "Render error: " message, [message])
        end in
      let css := generatePreviewCSS sectionData in
      let renderTimeMs := perfEnd timing - perfStart timing in
      let result := {| html := html; css := css; errors := errors;
                       renderTimeMs := renderTimeMs; cached := false |} in
      if negb (skipCache options) && (length errors =? 0)%nat then
        let cacheEntry := {| Cache.entry_html := html;
                             Cache.entry_css := Some css;
                             Cache.entry_renderTimeMs := renderTimeMs |} in
        let '(stored, locals') :=
          Cache.setCachedPreview cacheKey (sectionSlug options) (presetSlug options)
            cacheEntry 60 (locals options) (storeAt timing) in
        (bind stored (fun _ => Normal result), locals', h)
      else
        (Normal result, locals options, h)
  end.

(** [renderSection(options)]: the completion of the call, the backend
    and the object store after it. *)
Definition renderSection (options : RenderOptions) (h : Heap) (timing : Timing)
    : Completion RenderResult * Cache.Locals * Heap :=
  let cacheKey := cacheKeyOf options in
  if negb (skipCache options) then
    match Cache.getCachedPreview cacheKey (locals options) (lookupAt timing) with
    | Throw error => (Throw error, locals options, h)
    | Normal (Some hit) =>
        (Normal {| html := Cache.entry_html hit;
                   css := default "" (Cache.entry_css hit);
                   errors := [];
                   renderTimeMs := Cache.entry_renderTimeMs hit;
                   cached := true |},
         locals options, h)
    | Normal None => renderFresh options h timing
    end
  else renderFresh options h timing.

(** The renders of [renderSectionsBatch], one per slug from position
    [index] on; each stores its result under its slug.  The renders are
    promises awaited together; they share nothing but the backend and
    the object store, which here pass from one render to the next in
    the order of the slugs.  A render that throws rejects the batch,
    the other renders still run. *)
Fixpoint renderEach (slugs : list string) (presetSlug : option string)
    (l : Cache.Locals) (h : Heap) (timing : nat -> Timing) (index : nat)
    (results : gmap string RenderResult)
    : Completion (gmap string RenderResult) * Cache.Locals * Heap :=
  match slugs with
  | [] => (Normal results, l, h)
  | slug :: rest =>
      let options := {| sectionSlug := slug; presetSlug := presetSlug;
                        customSettings := None; locals := l; skipCache := false |} in
      let '(outcome, l, h) := renderSection options h (timing index) in
      match outcome with
      | Normal result =>
          renderEach rest presetSlug l h timing (S index) (<[slug := result]> results)
      | Throw error =>
          let '(_, l, h) := renderEach rest presetSlug l h timing (S index) results in
          (Throw error, l, h)
      end
  end.

(** [renderSectionsBatch(slugs, presetSlug, locals)] *)
Definition renderSectionsBatch (slugs : list string) (presetSlug : option string)
    (l : Cache.Locals) (h : Heap) (timing : nat -> Timing)
    : Completion (gmap string RenderResult) * Cache.Locals * Heap :=
  let results : gmap string RenderResult := ∅ in
  let limitedSlugs := firstn 20 slugs in
  renderEach limitedSlugs presetSlug l h timing 0 results.

End Render.

End Renderer.

(* ================================================================== *)
(** * engine.ts: [escapeHtml], the markup filters and the tags *)
(* ================================================================== *)

Module Engine.

Import JS.

(** [s.replace(/c/g, replacement)] for a pattern that is the one code
    unit [c]. *)
Fixpoint replaceAll (c : ascii) (replacement : string) (s : string) : string :=
  match s with
  | EmptyString => ""
  | String x rest =>
      (if Ascii.eqb x c then replacement else String x "")
      +:+ replaceAll c replacement rest
  end.

(** [escapeHtml(str)] of a string: the five replacements, one after the
    other. *)
Definition escapeHtml (str : string) : string :=
  let s := replaceAll "&" "&amp;" str in
  let s := replaceAll "<" "&lt;" s in
  let s := replaceAll ">" "&gt;" s in
  let s := replaceAll dquote "&quot;" s in
  replaceAll "'" "&#039;" s.

(** [a || b] on an optional string. *)
Definition orText (a : option string) (b : string) : string :=
  if truthy a then default "" a else b.

(** The [image_tag] filter; [src] is [None] when the value piped in is
    not a string. *)
Definition image_tag (src : option string) (alt : option string) : string :=
  let url := match src with
             | Some s => s
             | None => Filters.getPlaceholderImage 400 400
             end in
  let altText := orText alt "Image" in
  "<img src=" +:+ Mock.dq +:+ url +:+ Mock.dq +:+ " alt=" +:+ Mock.dq
    +:+ escapeHtml altText +:+ Mock.dq +:+ " loading=" +:+ Mock.dq +:+ "lazy"
    +:+ Mock.dq +:+ " />".

(** The [stylesheet_tag] filter. *)
Definition stylesheet_tag (url : string) : string :=
  "<link rel=" +:+ Mock.dq +:+ "stylesheet" +:+ Mock.dq +:+ " href=" +:+ Mock.dq
    +:+ escapeHtml url +:+ Mock.dq +:+ " />".

(** The [script_tag] filter. *)
Definition script_tag (url : string) : string :=
  "<script src=" +:+ Mock.dq +:+ escapeHtml url +:+ Mock.dq +:+ "></script>".

(** The [link_to] filter. *)
Definition link_to (label : string) (url title : option string) : string :=
  let titleAttr :=
    if truthy title
    then " title=" +:+ Mock.dq +:+ escapeHtml (default "" title) +:+ Mock.dq
    else "" in
  "<a href=" +:+ Mock.dq +:+ escapeHtml (orText url "#") +:+ Mock.dq +:+ titleAttr
    +:+ ">" +:+ label +:+ "</a>".

(** The [link_to_vendor] filter. *)
Definition link_to_vendor (vendor : string) : string :=
  "<a href=" +:+ Mock.dq +:+ "/collections/vendors?q=" +:+ encodeURIComponent vendor
    +:+ Mock.dq +:+ ">" +:+ vendor +:+ "</a>".

(** The [link_to_type] filter. *)
Definition link_to_type (type : string) : string :=
  "<a href=" +:+ Mock.dq +:+ "/collections/types?q=" +:+ encodeURIComponent type
    +:+ Mock.dq +:+ ">" +:+ type +:+ "</a>".


(** [s.replace(/^-|-$/g, '')]: a hyphen at the start is removed, and a
    hyphen at the end, unless it is the one already removed. *)
Definition dropLeadingHyphen (s : string) : string :=
  match s with
  | EmptyString => ""
  | String c rest => if Ascii.eqb c "-" then rest else s
  end.

Fixpoint dropTrailingHyphen (s : string) : string :=
  match s with
  | EmptyString => ""
  | String c rest =>
      if Ascii.eqb c "-" && String.eqb rest "" then ""
      else String c (dropTrailingHyphen rest)
  end.

Definition trimHyphens (s : string) : string :=
  dropTrailingHyphen (dropLeadingHyphen s).

(** The [handle] filter. *)
Definition handle (str : option string) : string :=
  trimHyphens (replaceRuns (toLowerCase (orText str "")) false).

(** The [handleize] filter. *)
Definition handleize (str : option string) : string :=
  trimHyphens (replaceRuns (toLowerCase (orText str "")) false).

(** ** Tags *)

(** A top-level token: a tag token has a [name], an output or HTML token
    has none. *)
Record Token : Type := {
  tokenName : option string;
  tokenText : string
}.

Definition isNamed (token : Token) (name : string) : bool :=
  match tokenName token with
  | Some n => String.eqb n name
  | None => false
  end.

(** The loop of the block tags' [parse]: tokens are shifted off
    [remainTokens] and collected until one is named [endName]; the
    content collected, and the tokens left. *)
Fixpoint collectUntil (endName : string) (remainTokens : list Token)
    : list Token * list Token :=
  match remainTokens with
  | [] => ([], [])
  | token :: rest =>
      if isNamed token endName then ([], rest)
      else let '(content, remain) := collectUntil endName rest in
           (token :: content, remain)
  end.

(** [s.replace(quotes, '')], for the pattern that matches a single or a
    double quote, everywhere. *)
Fixpoint removeQuotes (s : string) : string :=
  match s with
  | EmptyString => ""
  | String c rest =>
      if Ascii.eqb c "'" || Ascii.eqb c dquote then removeQuotes rest
      else String c (removeQuotes rest)
  end.

(** [s.split(',')[0]] *)
Fixpoint beforeComma (s : string) : string :=
  match s with
  | EmptyString => ""
  | String c rest => if Ascii.eqb c "," then "" else String c (beforeComma rest)
  end.

(** The code units below 256 that [trim] removes: the white space and
    the line terminators. *)
Definition isWhiteSpace (c : ascii) : bool :=
  existsb (N.eqb (N_of_ascii c)) [9; 10; 11; 12; 13; 32; 160]%N.

Fixpoint trimStart (s : string) : string :=
  match s with
  | EmptyString => ""
  | String c rest => if isWhiteSpace c then trimStart rest else s
  end.

Fixpoint allWhiteSpace (s : string) : bool :=
  match s with
  | EmptyString => true
  | String c rest => isWhiteSpace c && allWhiteSpace rest
  end.

Fixpoint trimEnd (s : string) : string :=
  match s with
  | EmptyString => ""
  | String c rest => if allWhiteSpace s then "" else String c (trimEnd rest)
  end.

(** [s.trim()] *)
Definition trim (s : string) : string := trimEnd (trimStart s).

(** [parse] of [{% render %}], [{% section %}] and [{% sections %}]: the
    name kept from the arguments of the tag. *)
Definition parseName (args : string) : string := trim (removeQuotes args).

(** [parse] of [{% form %}]: [this.formType]. *)
Definition parseFormType (args : string) : string :=
  trim (beforeComma (removeQuotes args)).

(** What [render] of [{% form %}] writes first. *)
Definition formOpening (args : string) : string :=
  "<form class=" +:+ Mock.dq +:+ "shopify-form" +:+ Mock.dq +:+ " data-form-type="
    +:+ Mock.dq +:+ parseFormType args +:+ Mock.dq +:+ ">".

End Engine.

(* ================================================================== *)
(** * db/index.ts *)
(* ================================================================== *)

Module Db.

Import JS.

(** [now()], called at the instant [clockMs]: the ISO timestamp of the
    instant (the timestamp [setCachedPreview] stores as [created_at]). *)
Definition now (clockMs : Z) : Completion string := toISOString clockMs.

End Db.

(* ================================================================== *)
(** * cache.ts: [getCacheStats] *)
(* ================================================================== *)

Module CacheStats.

Import JS.

(** The statements [getCacheStats] prepares. *)
Inductive StatsStatement : Type :=
  | CountAll
  | CountExpired
  | SumSize.

(** What [getCacheStats] returns. *)
Record Stats : Type := {
  totalEntries : Z;
  expiredEntries : Z;
  totalSizeKb : Z
}.

(** SQLite's [LENGTH] of a TEXT value: the characters before the first
    NUL. *)
Fixpoint sqlLength (s : string) : Z :=
  match s with
  | EmptyString => 0
  | String c rest => if (N_of_ascii c =? 0)%N then 0 else 1 + sqlLength rest
  end.

(** [COUNT( * )] over the rows that satisfy [cond]. *)
Definition countWhere (t : Cache.Table) (cond : Cache.RenderedPreviewRow -> bool) : Z :=
  Z.of_nat (length (List.filter cond (Cache.rows t))).

(** [SUM(LENGTH(html) + COALESCE(LENGTH(css), 0))]: NULL over no rows. *)
Definition sumSize (t : Cache.Table) : option Z :=
  match Cache.rows t with
  | [] => None
  | rows =>
      Some (fold_left
              (fun total r =>
                 total + (sqlLength (Cache.html r)
                          + match Cache.css r with
                            | Some css => sqlLength css
                            | None => 0
                            end))
              rows 0)
  end.

(** [Math.round(size / 1024)] for a size that is an integer below 2^53
    (the quotient is then exact, and a half rounds up). *)
Definition roundKb (size : Z) : Z := (size + 512) / 1024.

(** [getCacheStats(locals)], called at the instant [nowMs]; [rejects]
    tells which of the three statements the backend currently rejects. *)
Definition getCacheStats (locals : Cache.Locals) (rejects : StatsStatement -> bool)
    (nowMs : Z) : Completion Stats :=
  tryCatch
    (match Cache.DB locals with
     | None => Throw (ErrorObject "Cannot read properties of undefined (reading 'prepare')")
     | Some db =>
         let t := Cache.rendered_previews db in
         if rejects CountAll || rejects CountExpired then Throw (ErrorObject "D1_ERROR")
         else
           let total := countWhere t (fun _ => true) in
           let expired :=
             countWhere t (fun r => Cache.textLt (Cache.expires_at r)
                                      (Cache.sqliteDatetimeNow nowMs)) in
           if rejects SumSize then Throw (ErrorObject "D1_ERROR")
           else
             let sizeResult := sumSize t in
             Normal {| totalEntries := total;
                       expiredEntries := expired;
                       totalSizeKb := roundKb (default 0 sizeResult) |}
     end)
    (fun error => Normal {| totalEntries := 0; expiredEntries := 0; totalSizeKb := 0 |}).

End CacheStats.

(* ================================================================== *)
(** * The batch preview route *)
(* ================================================================== *)

Module BatchRoute.

Import JS.
Import Renderer.

(** What the handler reads of the parsed body: [sections] is [None] when
    the member is absent or is not an array. *)
Record RequestBody : Type := {
  sections : option (list string);
  presetSlug : option string
}.

(** One entry of [results]. *)
Record ResultItem : Type := {
  item_slug : string;
  item_success : bool;
  item_html : string;
  item_css : string;
  item_error : option string;
  item_renderTimeMs : Z;
  item_cached : bool
}.

Record BatchStats : Type := {
  total : Z;
  successful : Z;
  failed : Z;
  cachedCount : Z;
  totalTimeMs : Z
}.

(** The object the handler serializes into the body of the response. *)
Inductive Payload : Type :=
  | ErrorOnly (error : string)
  | Rendered (results : list ResultItem) (stats : BatchStats)
  | Failed (error : string) (results : list ResultItem) (stats : BatchStats).

Record Response : Type := {
  status : Z;
  payload : Payload;
  cacheControl : option string
}.

Definition badRequest (error : string) : Response :=
  {| status := 400; payload := ErrorOnly error; cacheControl := None |}.

(** The entry of [results] for one slug. *)
Definition resultItem (resultsMap : gmap string RenderResult) (slug : string) : ResultItem :=
  match resultsMap !! slug with
  | None =>
      {| item_slug := slug; item_success := false; item_html := ""; item_css := "";
         item_error := Some "Section not rendered"; item_renderTimeMs := 0;
         item_cached := false |}
  | Some result =>
      {| item_slug := slug;
         item_success := (length (errors result) =? 0)%nat;
         item_html := html result;
         item_css := css result;
         item_error := head (errors result);
         item_renderTimeMs := renderTimeMs result;
         item_cached := cached result |}
  end.

Section Route.

Variable generateTemplateFromSchema : Mock.SectionData -> string.
Variable generatePreviewCSS : Mock.SectionData -> string.
Variable site : Site.

(** The [POST] handler: [body] is the outcome of [request.json()] and of
    the reading of its two members (it throws when the body is not JSON
    or is [null]); [totalTime] is the rounded difference of the two
    readings of [performance.now()]. *)
Definition POST (body : Completion RequestBody) (locals : Cache.Locals) (h : Heap)
    (timing : nat -> Timing) (totalTime : Z) : Response * Cache.Locals * Heap :=
  let serverError (error : Thrown) :=
    {| status := 500;
       payload := Failed (match error with
                          | ErrorObject message => message
                          | OtherValue _ => "Unknown error"
                          end)
                         []
                         {| total := 0; successful := 0; failed := 0; cachedCount := 0;
                            totalTimeMs := 0 |};
       cacheControl := None |} in
  match body with
  | Throw error => (serverError error, locals, h)
  | Normal body =>
      match sections body with
      | None | Some [] =>
          (badRequest "Missing or invalid parameter: sections (array of slugs required)",
           locals, h)
      | Some sections =>
          let maxBatchSize := 20%nat in
          if (maxBatchSize <? length sections)%nat then
            (badRequest "Batch size exceeds maximum of 20. Please split into smaller batches.",
             locals, h)
          else
            let '(outcome, locals, h) :=
              renderSectionsBatch generateTemplateFromSchema generatePreviewCSS site
                sections (presetSlug body) locals h timing in
            match outcome with
            | Throw error => (serverError error, locals, h)
            | Normal resultsMap =>
                let results := map (resultItem resultsMap) sections in
                let successCount := length (List.filter item_success results) in
                let cachedCount := length (List.filter item_cached results) in
                ({| status := 200;
                    payload :=
                      Rendered results
                        {| total := Z.of_nat (length results);
                           successful := Z.of_nat successCount;
                           failed := Z.of_nat (length results) - Z.of_nat successCount;
                           cachedCount := Z.of_nat cachedCount;
                           totalTimeMs := totalTime |};
                    cacheControl := Some "public, max-age=60" |},
                 locals, h)
            end
      end
  end.

End Route.

End BatchRoute.

(* ================================================================== *)
(** * Vocabulary of the statements *)
(* ================================================================== *)

Import JS.
Import Renderer.

(** ** States of the cache backend *)

(** A backend that is bound and accepts every statement. *)
Definition healthyBackend (t : Cache.Table) : Cache.Locals :=
  {| Cache.DB := Some {| Cache.rendered_previews := t; Cache.rejects := fun _ => false |} |}.

(** A backend with no binding: every cache statement throws. *)
Definition unboundBackend : Cache.Locals := {| Cache.DB := None |}.

Definition emptyTable : Cache.Table := {| Cache.rows := []; Cache.lastId := 0 |}.

Definition tableOf (l : Cache.Locals) : list Cache.RenderedPreviewRow :=
  match Cache.DB l with
  | Some db => Cache.rows (Cache.rendered_previews db)
  | None => []
  end.

(** The backend fails on a statement: preparing and running it throws. *)
Definition backendFails (l : Cache.Locals) (stmt : Cache.Statement) : Prop :=
  exists error, Cache.prepare l stmt = Throw error.

(** No row is stored under [key]. *)
Definition noRowFor (key : string) (l : Cache.Locals) : Prop :=
  forall row, row ∈ tableOf l -> Cache.cache_key row <> key.

(** ** Results of a render *)

(** The result for a slug with no schema. *)
Definition notFoundResult (slug : string) (timing : Timing) : RenderResult :=
  {| html := errorMarker "Section not found: " slug;
     css := "";
     errors := ["Section not found: " +:+ slug];
     renderTimeMs := perfEnd timing - perfStart timing;
     cached := false |}.

(** The result of a render whose template threw [error]. *)
Definition renderErrorResult (genCSS : Mock.SectionData -> string)
    (sectionData : Mock.SectionData) (error : Thrown)
    (timing : Timing) : RenderResult :=
  {| html := errorMarker "Render error: " (messageOf error);
     css := genCSS sectionData;
     errors := [messageOf error];
     renderTimeMs := perfEnd timing - perfStart timing;
     cached := false |}.

(** The result of a render whose template produced [out]. *)
Definition renderedResult (genCSS : Mock.SectionData -> string)
    (sectionData : Mock.SectionData) (out : string)
    (timing : Timing) : RenderResult :=
  {| html := out;
     css := genCSS sectionData;
     errors := [];
     renderTimeMs := perfEnd timing - perfStart timing;
     cached := false |}.

(** The options [renderSectionsBatch] passes for one slug. *)
Definition batchOptions (slug : string) (preset : option string) (l : Cache.Locals)
    : RenderOptions :=
  {| sectionSlug := slug; presetSlug := preset; customSettings := None;
     locals := l; skipCache := false |}.

(** The template of the section renders whatever context it is given. *)
Definition rendersCleanly (genTemplate : Mock.SectionData -> string) (site : Site)
    (sectionData : Mock.SectionData) : Prop :=
  forall context h,
    exists out,
      parseAndRender site (resolveTemplate genTemplate site sectionData) context h
      = Normal out.

(** What the batch promises about the result stored for [slug], whatever
    the other slugs of the batch do: the error result when the schema is
    missing (and no entry was cached for the slug before the batch), a
    result free of errors when the schema is there and its template
    renders. *)
Definition isolatedResult (genTemplate : Mock.SectionData -> string) (site : Site)
    (slug : string) (preset : option string) (before : Cache.Locals)
    (result : RenderResult) : Prop :=
  (loadSectionData site slug = None ->
   noRowFor (Cache.generateCacheKey slug preset None) before ->
   errors result = ["Section not found: " +:+ slug]
   /\ html result = errorMarker "Section not found: " slug
   /\ cached result = false)
  /\ (forall sectionData,
        loadSectionData site slug = Some sectionData ->
        rendersCleanly genTemplate site sectionData ->
        errors result = []).

(** ** Property keys *)

(** The value of a decimal digit. *)
Definition digitOf (c : ascii) : N := (N_of_ascii c - 48)%N.

(** A canonical numeric string: decimal digits, no leading zero unless
    it is the string of zero itself. *)
Record canonical (k : string) : Prop := {
  canonical_digits : allDigits k = true;
  canonical_lead : match k with
                   | EmptyString => False
                   | String c rest => Ascii.eqb c "0" = false \/ rest = ""
                   end
}.

(** ** Rounding in binary64 *)

(** The second half of [binary_round_aux]: renormalize after rounding. *)
Definition finish (s : bool) (m e : Z) : spec_float :=
  let '(mrs, e') := shr_fexp prec emax m e loc_Exact in
  match shr_m mrs with
  | Z0 => S754_zero s
  | Zpos m' => if e' <=? emax - prec then S754_finite s m' e' else S754_infinity s
  | _ => S754_nan
  end.

(** ** Text *)

(** The code unit [c] occurs in [s]. *)
Fixpoint occurs (c : ascii) (s : string) : bool :=
  match s with
  | EmptyString => false
  | String x rest => Ascii.eqb x c || occurs c rest
  end.

(** Every code unit of [s] satisfies [p]. *)
Fixpoint allChars (p : ascii -> bool) (s : string) : bool :=
  match s with
  | EmptyString => true
  | String x rest => p x && allChars p rest
  end.

(** The entity that stands for a code unit in HTML text. *)
Definition escapeChar (c : ascii) : string :=
  if Ascii.eqb c "&" then "&amp;"
  else if Ascii.eqb c "<" then "&lt;"
  else if Ascii.eqb c ">" then "&gt;"
  else if Ascii.eqb c dquote then "&quot;"
  else if Ascii.eqb c "'" then "&#039;"
  else String c "".

(** Each code unit replaced by its entity, in one pass. *)
Fixpoint escapeOnce (s : string) : string :=
  match s with
  | EmptyString => ""
  | String c rest => escapeChar c +:+ escapeOnce rest
  end.

Definition isHtmlSpecial (c : ascii) : bool :=
  existsb (Ascii.eqb c) ["&"; "<"; ">"; dquote; "'"]%char.

(** Lower-case letters, digits and hyphens, no two hyphens in a row;
    [afterHyphen] tells that the previous code unit was a hyphen. *)
Fixpoint singleHyphens (s : string) (afterHyphen : bool) : bool :=
  match s with
  | EmptyString => true
  | String c rest =>
      if isLowerAlnum c then singleHyphens rest false
      else Ascii.eqb c "-" && negb afterHyphen && singleHyphens rest true
  end.

(** Words of lower-case letters and digits, joined by single hyphens;
    [afterHyphen] tells that a word has to start here. *)
Fixpoint hyphenated (s : string) (afterHyphen : bool) : bool :=
  match s with
  | EmptyString => negb afterHyphen
  | String c rest =>
      if isLowerAlnum c then hyphenated rest false
      else Ascii.eqb c "-" && negb afterHyphen && hyphenated rest true
  end.

(** A handle: empty, or words joined by single hyphens. *)
Definition isHandle (s : string) : bool := String.eqb s "" || hyphenated s true.

(** The number of occurrences of the code unit [c] in [s]. *)
Fixpoint count (c : ascii) (s : string) : nat :=
  match s with
  | EmptyString => O
  | String x rest => ((if Ascii.eqb x c then 1 else 0) + count c rest)%nat
  end.

(** The characters of the URLs the filters build. *)
Definition isUrlChar (c : ascii) : bool :=
  isUriUnreserved c || existsb (Ascii.eqb c) [":"; "/"; "?"; "="; "%"]%char.

(** ** Schemas *)



(** The blocks the first preset of a schema lists, when it lists any. *)
Definition presetBlocksOf (schema : Mock.SectionData) : option (list Mock.PresetBlock) :=
  match Mock.presets schema with
  | preset :: _ => Mock.preset_blocks preset
  | [] => None
  end.

(** Every property that an object of the store [h] holds, the object
    at the same address of [h'] holds with the same value. *)
Definition keepsProperties (h h' : Heap) : Prop :=
  forall r k v, getProp (deref h r) k = Some v -> getProp (deref h' r) k = Some v.

(** The settings objects that the preset blocks of a schema name are
    objects of the store [h]. *)
Definition refsWithin (schema : Mock.SectionData) (h : Heap) : Prop :=
  forall listed block r,
    presetBlocksOf schema = Some listed -> block ∈ listed ->
    Mock.pb_settings block = Some r -> (r < length h)%nat.

(** The id of the block at position [index]. *)
Definition blockId (index : nat) : string := "block-" +:+ intToString (Z.of_nat index).
(** ** The cache backend *)

(** The backend accepts a statement: preparing and running it returns. *)
Definition accepts (l : Cache.Locals) (stmt : Cache.Statement) : Prop :=
  exists db, Cache.prepare l stmt = Normal db.

(** The options of a request, on another backend. *)
Definition withLocals (options : RenderOptions) (l : Cache.Locals) : RenderOptions :=
  {| sectionSlug := sectionSlug options; presetSlug := presetSlug options;
     customSettings := customSettings options; locals := l;
     skipCache := skipCache options |}.

(** ** The batch route *)

(** The entry of [results] for a slug that was rendered. *)
Definition renderedItem (slug : string) (result : RenderResult) : BatchRoute.ResultItem :=
  {| BatchRoute.item_slug := slug;
     BatchRoute.item_success := (length (errors result) =? 0)%nat;
     BatchRoute.item_html := html result;
     BatchRoute.item_css := css result;
     BatchRoute.item_error := head (errors result);
     BatchRoute.item_renderTimeMs := renderTimeMs result;
     BatchRoute.item_cached := cached result |}.


(** ** Dates as text *)

(** The [w] low decimal digits of [n], the most significant first. *)
Fixpoint fixedWidth (w : nat) (n : N) : string :=
  match w with
  | O => ""
  | S w' => String (digitChar (n / 10 ^ N.of_nat w' mod 10)) (fixedWidth w' n)
  end.

(** A number that orders the dates as the calendar does. *)
Definition civilKey (days : Z) : Z :=
  let '(y, m, d) := civilFromDays days in y * 512 + m * 32 + d.

(** The months and the days of the month are in range from the day
    [days] on, for [fuel] days, and the dates ascend, the first of them
    above [previous]. *)
Fixpoint datesAscend (fuel : nat) (days previous : Z) : bool :=
  match fuel with
  | O => true
  | S fuel' =>
      let '(y, m, d) := civilFromDays days in
      let key := y * 512 + m * 32 + d in
      (1 <=? m) && (m <=? 12) && (1 <=? d) && (d <=? 31) && (previous <? key)
      && datesAscend fuel' (days + 1) key
  end.

(** The day of a time value, counted from 1970-01-01 (UTC). *)
Definition utcDay (t : Z) : Z := t / 86400000.

(** The time values of the years 0000 to 9999. *)
Definition fourDigitYear (t : Z) : Prop :=
  - 62167219200000 <= t < 253402300800000.

(* ================================================================== *)
(** * Sample data *)
(* ================================================================== *)

Definition heroEntry : Cache.CacheEntry :=
  {| Cache.entry_html := "<section>hero</section>";
     Cache.entry_css := Some ".hero{}";
     Cache.entry_renderTimeMs := 12 |}.

Definition sampleSection (slug category : string) : Mock.SectionData :=
  {| Mock.name := slug; Mock.slug := slug; Mock.description := None;
     Mock.category := category;
     Mock.settings :=
       [{| Mock.setting_id := "heading"; Mock.setting_type := "text";
           Mock.setting_label := "Heading"; Mock.setting_default := None;
           Mock.setting_info := None |}];
     Mock.blocks := []; Mock.maxBlocks := 0; Mock.presets := [] |}.

Definition sampleTemplate (d : Mock.SectionData) : string :=
  "<h2>{{ section.settings.heading }}</h2>".

Definition sampleCSS (d : Mock.SectionData) : string :=
  "/* Preview styles for " +:+ Mock.name d +:+ " */".

(** An engine that renders every template to the section id. *)
Definition sampleEngine (template : string) (context : Mock.RenderContext) (h : Heap)
    : Completion string :=
  Normal ("<section>" +:+ Mock.sc_id (Mock.ctx_section context) +:+ "</section>").


Definition sampleSections : list Mock.SectionData :=
  [sampleSection "hero-banner" "hero";
   sampleSection "featured-collection" "featured-collection";
   sampleSection "main-product" "product";
   sampleSection "footer" "footer"].

Definition sampleSite (engine : string -> Mock.RenderContext -> Heap -> Completion string)
    : Site :=
  {| getCollection := Normal sampleSections;
     presetFiles := ∅;
     templateFiles := ∅;
     parseAndRender := engine |}.

Definition sampleTiming : Timing :=
  {| perfStart := 1000; perfEnd := 1012;
     lookupAt := 1793613600000; storeAt := 1793613600012 |}.

Definition sampleOptions (slug : string) (l : Cache.Locals) : RenderOptions :=
  {| sectionSlug := slug; presetSlug := None; customSettings := None;
     locals := l; skipCache := false |}.

Definition fiveSlugs : list string :=
  ["hero-banner"; "featured-collection"; "missing-section"; "main-product"; "footer"].

Definition headingSetting : Mock.SectionSetting :=
  {| Mock.setting_id := "heading"; Mock.setting_type := "text";
     Mock.setting_label := "Heading"; Mock.setting_default := None;
     Mock.setting_info := None |}.

(** A slideshow schema whose first preset lists one [slide] block; the
    settings object of that preset block is the object at address 0. *)
Definition slideshowSchema : Mock.SectionData :=
  {| Mock.name := "Slideshow"; Mock.slug := "slideshow"; Mock.description := None;
     Mock.category := "slideshow";
     Mock.settings := [];
     Mock.blocks :=
       [{| Mock.block_type := "slide"; Mock.block_name := "Slide";
           Mock.block_limit := None; Mock.block_settings := Some [headingSetting] |}];
     Mock.maxBlocks := 5;
     Mock.presets :=
       [{| Mock.preset_name := "Default";
           Mock.preset_blocks :=
             Some [{| Mock.pb_type := "slide"; Mock.pb_settings := Some 0%nat |}] |}] |}.

(** The store in which that settings object is [{ subheading: "Welcome" }]. *)
Definition slideshowHeap : Heap := [[("subheading", VStr "Welcome")]].


(** The row that caches the hero banner until 11:00 UTC on 2026-11-02. *)
Definition heroRow : Cache.RenderedPreviewRow :=
  {| Cache.id := 1; Cache.cache_key := "hero-banner"; Cache.section_slug := "hero-banner";
     Cache.preset_slug := None; Cache.html := "<section>hero</section>";
     Cache.css := Some ".hero{}"; Cache.render_time_ms := Some 12;
     Cache.created_at := "2026-11-02T10:00:00.000Z";
     Cache.expires_at := "2026-11-02T11:00:00.000Z" |}.

Definition heroTable : Cache.Table := {| Cache.rows := [heroRow]; Cache.lastId := 1 |}.

(** The request for the hero banner that skips the cache. *)
Definition uncachedOptions (l : Cache.Locals) : RenderOptions :=
  {| sectionSlug := "hero-banner"; presetSlug := None; customSettings := None;
     locals := l; skipCache := true |}.


Definition fiveSlugsBody : BatchRoute.RequestBody :=
  {| BatchRoute.sections := Some fiveSlugs; BatchRoute.presetSlug := None |}.

(* ================================================================== *)
(** * Properties *)
(* ================================================================== *)

(** ** Sanity checks of the primitives *)

Example stringify_sample :
  stringify (VObj [("b", VNum 2); ("10", VStr "x");
                   ("a", VArr [VNull; VBool true]); ("2", VNum (-7))])
  = String.concat Mock.dq
      ["{"; "2"; ":-7,"; "10"; ":"; "x"; ","; "b"; ":2,"; "a"; ":[null,true]}"].
Proof. vm_compute. reflexivity. Qed.

Example hashSettings_empty : Cache.hashSettings [] = "31e".
Proof. vm_compute. reflexivity. Qed.

Example toISOString_sample :
  toISOString 1793615696789 = Normal "2026-11-02T10:34:56.789Z".
Proof. vm_compute. reflexivity. Qed.

Example sqliteDatetimeNow_sample :
  Cache.sqliteDatetimeNow 1793615696789 = "2026-11-02 10:34:56".
Proof. vm_compute. reflexivity. Qed.

(** ** Strings *)

Lemma length_append (a b : string) :
  String.length (a +:+ b) = (String.length a + String.length b)%nat.
Proof. induction a as [|c a IH]; simpl; [reflexivity | now rewrite IH]. Qed.

Lemma append_cons (x : ascii) (a b : string) : String x a +:+ b = String x (a +:+ b).
Proof. reflexivity. Qed.

Lemma append_nil_l (b : string) : "" +:+ b = b.
Proof. reflexivity. Qed.

Lemma append_assoc (a b c : string) : (a +:+ b) +:+ c = a +:+ (b +:+ c).
Proof.
  induction a as [|x a IH]; [reflexivity|].
  now rewrite !append_cons, IH.
Qed.

Lemma append_nil_r (a : string) : a +:+ "" = a.
Proof.
  induction a as [|x a IH]; [reflexivity|].
  now rewrite append_cons, IH.
Qed.


Lemma ascii_compare_refl (c : ascii) : Ascii.compare c c = Eq.
Proof.
  pose proof (Ascii.compare_antisym c c) as H.
  destruct (Ascii.compare c c); [reflexivity | discriminate | discriminate].
Qed.

Lemma compare_common_prefix (p a b : string) :
  String.compare (p +:+ a) (p +:+ b) = String.compare a b.
Proof.
  induction p as [|c p IH]; [reflexivity|].
  rewrite !append_cons. simpl. now rewrite ascii_compare_refl.
Qed.

(** ** Cache keys *)

Lemma join_two (a b : string) : join ":" [a; b] = a +:+ ":" +:+ b.
Proof. reflexivity. Qed.

(** C10.  [generateCacheKey] is not injective: the parts are joined with
    a colon that is not escaped, and a falsy (empty) preset slug or
    settings hash is dropped like an absent one; distinct requests can
    therefore address the same cache entry. *)
Theorem generateCacheKey_not_injective :
  Cache.generateCacheKey "a:b" None None = Cache.generateCacheKey "a" (Some "b") None
  /\ (forall slug preset : string,
        preset <> "" ->
        Cache.generateCacheKey (slug +:+ ":" +:+ preset) None None
        = Cache.generateCacheKey slug (Some preset) None)
  /\ (forall slug hash, Cache.generateCacheKey slug (Some "") hash
                        = Cache.generateCacheKey slug None hash)
  /\ (forall slug preset, Cache.generateCacheKey slug preset (Some "")
                          = Cache.generateCacheKey slug preset None)
  /\ (exists a b : string * option string * option string,
        a <> b
        /\ Cache.generateCacheKey (a.1.1) (a.1.2) (a.2)
           = Cache.generateCacheKey (b.1.1) (b.1.2) (b.2)).
Proof.
  split; [reflexivity|].
  split.
  { intros slug preset Hne. unfold Cache.generateCacheKey, truthy. simpl.
    destruct (String.eqb_spec preset ""); [contradiction|]. reflexivity. }
  split; [reflexivity|].
  split.
  { intros slug preset. unfold Cache.generateCacheKey. simpl.
    destruct (truthy preset); reflexivity. }
  exists ("a:b", None, None), ("a", Some "b", None).
  split; [discriminate | reflexivity].
Qed.

(** *** The enumeration of properties commutes with a map over values *)

Section OwnEntriesMap.
Context {A B : Type} (f : A -> B).

Let onValue (kv : string * A) : string * B := (kv.1, f kv.2).
Let onIndexed (ikv : N * (string * A)) : N * (string * B) := (ikv.1, onValue ikv.2).

Lemma insertIndexed_map i kv sorted :
  insertIndexed i (onValue kv) (map onIndexed sorted)
  = map onIndexed (insertIndexed i kv sorted).
Proof.
  induction sorted as [|[j kv'] rest IH]; simpl; [reflexivity|].
  destruct (i <=? j)%N; simpl; [reflexivity|].
  now rewrite IH.
Qed.

Lemma indexedProps_map props :
  indexedProps (map onValue props) = map onIndexed (indexedProps props).
Proof.
  induction props as [|[k v] rest IH]; simpl; [reflexivity|].
  destruct (arrayIndex k); [|exact IH].
  rewrite IH. apply (insertIndexed_map _ (k, v)).
Qed.

Lemma namedProps_map props :
  namedProps (map onValue props) = map onValue (namedProps props).
Proof.
  induction props as [|[k v] rest IH]; simpl; [reflexivity|].
  destruct (arrayIndex k); simpl; [exact IH|].
  now rewrite IH.
Qed.

Lemma ownEntries_map props :
  ownEntries (map onValue props) = map onValue (ownEntries props).
Proof.
  unfold ownEntries.
  rewrite indexedProps_map, namedProps_map, map_app, !map_map.
  reflexivity.
Qed.
End OwnEntriesMap.

Lemma stringify_object_enumeration (o1 o2 : Obj) :
  ownEntries o1 = ownEntries o2 -> stringify (VObj o1) = stringify (VObj o2).
Proof.
  intros Henum. simpl.
  rewrite !(ownEntries_map stringify), Henum.
  reflexivity.
Qed.

(** *** Array indices name their keys *)

Lemma decimalValue_acc (s : string) (acc : N) :
  decimalValue s acc = (acc * 10 ^ N.of_nat (String.length s) + decimalValue s 0)%N.
Proof.
  revert acc. induction s as [|c s IH]; intros acc.
  - simpl. lia.
  - cbn [decimalValue String.length]. rewrite (IH (10 * acc + _)%N), (IH (10 * 0 + _)%N).
    rewrite Nat2N.inj_succ, N.pow_succ_r'.
    generalize (10 ^ N.of_nat (String.length s))%N (decimalValue s 0) (N_of_ascii c - 48)%N.
    intros P V d. ring.
Qed.

Lemma isDigit_lt (c : ascii) : isDigit c = true -> (digitOf c < 10)%N.
Proof.
  unfold isDigit, digitOf. cbv zeta. intros H. apply andb_true_iff in H.
  rewrite !N.leb_le in H. lia.
Qed.

Lemma digitOf_inj (c d : ascii) :
  isDigit c = true -> isDigit d = true -> digitOf c = digitOf d -> c = d.
Proof.
  unfold isDigit, digitOf. intros Hc Hd Heq.
  cbv zeta in Hc, Hd. apply andb_true_iff in Hc, Hd.
  rewrite !N.leb_le in Hc, Hd.
  rewrite <- (ascii_N_embedding c), <- (ascii_N_embedding d). f_equal. lia.
Qed.

Lemma decimalValue_lt (s : string) :
  allDigits s = true -> (decimalValue s 0 < 10 ^ N.of_nat (String.length s))%N.
Proof.
  induction s as [|c s IH]; intros Hall.
  - simpl. lia.
  - cbn [allDigits] in Hall. apply andb_true_iff in Hall. destruct Hall as [Hc Hs].
    cbn [decimalValue String.length]. rewrite decimalValue_acc.
    rewrite Nat2N.inj_succ, N.pow_succ_r'.
    pose proof (isDigit_lt c Hc). pose proof (IH Hs).
    fold (digitOf c). nia.
Qed.

(** Digit strings of one length with one value are equal. *)
Lemma decimalValue_inj_length (s t : string) :
  allDigits s = true -> allDigits t = true ->
  String.length s = String.length t ->
  decimalValue s 0 = decimalValue t 0 -> s = t.
Proof.
  revert t. induction s as [|c s IH]; intros [|d t] Hs Ht Hlen Hval;
    try discriminate; [reflexivity|].
  cbn [allDigits] in Hs, Ht. apply andb_true_iff in Hs, Ht.
  destruct Hs as [Hc Hs], Ht as [Hd Ht].
  injection Hlen as Hlen.
  cbn [decimalValue] in Hval.
  rewrite (decimalValue_acc s), (decimalValue_acc t), Hlen in Hval.
  fold (digitOf c) in Hval. fold (digitOf d) in Hval.
  pose proof (decimalValue_lt s Hs) as Bs. pose proof (decimalValue_lt t Ht) as Bt.
  rewrite Hlen in Bs.
  assert (digitOf c = digitOf d /\ decimalValue s 0 = decimalValue t 0) as [Hdig Hrest].
  { revert Hval Bs Bt.
    generalize (digitOf c) (digitOf d) (decimalValue s 0) (decimalValue t 0)
               (10 ^ N.of_nat (String.length t))%N.
    intros a b v w P Hval Bv Bw.
    replace (10 * 0 + a)%N with a in Hval by lia.
    replace (10 * 0 + b)%N with b in Hval by lia.
    destruct (N.lt_trichotomy a b) as [Hlt|[Heq|Hlt]]; [exfalso|subst; lia|exfalso].
    - assert ((a + 1) * P <= b * P)%N by (apply N.mul_le_mono_r; lia). lia.
    - assert ((b + 1) * P <= a * P)%N by (apply N.mul_le_mono_r; lia). lia. }
  f_equal; [now apply digitOf_inj | now apply IH].
Qed.

(** A digit string that does not start with a zero is at least the power
    of ten of its length. *)
Lemma decimalValue_ge (c : ascii) (s : string) :
  allDigits (String c s) = true -> Ascii.eqb c "0" = false ->
  (10 ^ N.of_nat (String.length s) <= decimalValue (String c s) 0)%N.
Proof.
  intros Hall Hc. cbn [allDigits] in Hall. apply andb_true_iff in Hall.
  destruct Hall as [Hd _].
  cbn [decimalValue]. rewrite decimalValue_acc. fold (digitOf c).
  assert (1 <= digitOf c)%N as Hpos.
  { unfold isDigit in Hd. cbv zeta in Hd. apply andb_true_iff in Hd.
    rewrite !N.leb_le in Hd. unfold digitOf.
    assert (N_of_ascii c <> 48%N) as Hne.
    { intros Heq. apply Ascii.eqb_neq in Hc. apply Hc.
      rewrite <- (ascii_N_embedding c), Heq. reflexivity. }
    lia. }
  nia.
Qed.

Lemma arrayIndex_canonical (k : string) (i : N) :
  arrayIndex k = Some i -> canonical k /\ decimalValue k 0 = i.
Proof.
  unfold arrayIndex. destruct k as [|c rest]; [discriminate|].
  destruct (allDigits (String c rest)) eqn:Hall; [|discriminate].
  destruct (negb (Ascii.eqb c "0") || String.eqb rest "") eqn:Hlead; [|discriminate].
  destruct (String.length (String c rest) <=? 10)%nat; [|discriminate].
  cbv zeta. cbn [andb].
  destruct (decimalValue (String c rest) 0 <=? 4294967294)%N; [|discriminate].
  intros [= <-]. split; [|reflexivity].
  split; [exact Hall|].
  apply orb_true_iff in Hlead. destruct Hlead as [Hlead|Hlead].
  - left. now apply negb_true_iff.
  - right. now apply String.eqb_eq.
Qed.

Lemma canonical_inj (k1 k2 : string) :
  canonical k1 -> canonical k2 ->
  decimalValue k1 0 = decimalValue k2 0 -> k1 = k2.
Proof.
  intros [D1 L1] [D2 L2] Hval.
  destruct k1 as [|c1 r1]; [contradiction|].
  destruct k2 as [|c2 r2]; [contradiction|].
  pose proof (decimalValue_lt _ D1) as U1.
  pose proof (decimalValue_lt _ D2) as U2.
  assert (forall c r, allDigits (String c r) = true ->
            (Ascii.eqb c "0" = false \/ r = "") ->
            (10 ^ N.of_nat (String.length r) <= decimalValue (String c r) 0)%N
            \/ (r = "" /\ decimalValue (String c r) 0 = 0%N /\ c = "0"%char)) as Hcase.
  { intros c r D [Hc| ->].
    - left. now apply decimalValue_ge.
    - destruct (Ascii.eqb c "0") eqn:Hc.
      + right. apply Ascii.eqb_eq in Hc. subst c. repeat split.
      + left. now apply decimalValue_ge. }
  apply decimalValue_inj_length; try assumption.
  cbn [String.length] in *. f_equal.
  destruct (Hcase c1 r1 D1 L1) as [G1|(-> & Z1 & ->)],
           (Hcase c2 r2 D2 L2) as [G2|(-> & Z2 & ->)].
  - rewrite Hval in *.
    set (v := decimalValue (String c2 r2) 0) in *.
    rewrite !Nat2N.inj_succ, !N.pow_succ_r' in *.
    destruct (Nat.lt_trichotomy (String.length r1) (String.length r2)) as [Hlt|[Heq|Hlt]];
      [exfalso|exact Heq|exfalso].
    + assert (10 * 10 ^ N.of_nat (String.length r1) <= 10 ^ N.of_nat (String.length r2))%N.
      { rewrite <- N.pow_succ_r'. apply N.pow_le_mono_r; lia. }
      lia.
    + assert (10 * 10 ^ N.of_nat (String.length r2) <= 10 ^ N.of_nat (String.length r1))%N.
      { rewrite <- N.pow_succ_r'. apply N.pow_le_mono_r; lia. }
      lia.
  - exfalso. rewrite Hval, Z2 in G1.
    assert (0 < 10 ^ N.of_nat (String.length r1))%N by (apply N.neq_0_lt_0, N.pow_nonzero; lia).
    lia.
  - exfalso. rewrite <- Hval, Z1 in G2.
    assert (0 < 10 ^ N.of_nat (String.length r2))%N by (apply N.neq_0_lt_0, N.pow_nonzero; lia).
    lia.
  - reflexivity.
Qed.

Lemma arrayIndex_inj (k1 k2 : string) (i : N) :
  arrayIndex k1 = Some i -> arrayIndex k2 = Some i -> k1 = k2.
Proof.
  intros H1 H2.
  apply arrayIndex_canonical in H1, H2.
  destruct H1 as [C1 V1], H2 as [C2 V2].
  apply canonical_inj; congruence.
Qed.

(** *** Array-index keys may be created in any order *)

Section InsertionOrder.
Context {A : Type}.

Lemma insertIndexed_comm (i j : N) (x y : string * A) sorted :
  i <> j ->
  insertIndexed i x (insertIndexed j y sorted)
  = insertIndexed j y (insertIndexed i x sorted).
Proof.
  intros Hne. induction sorted as [|[h kv] rest IH].
  - simpl. destruct (N.leb_spec i j), (N.leb_spec j i); try reflexivity; lia.
  - cbn [insertIndexed].
    destruct (N.leb_spec j h) as [Hj|Hj], (N.leb_spec i h) as [Hi|Hi]; cbn [insertIndexed].
    + destruct (N.leb_spec i j), (N.leb_spec j i); try lia;
        destruct (N.leb_spec i h), (N.leb_spec j h); try lia; reflexivity.
    + destruct (N.leb_spec i j), (N.leb_spec j h), (N.leb_spec i h); try lia; reflexivity.
    + destruct (N.leb_spec j i), (N.leb_spec j h), (N.leb_spec i h); try lia; reflexivity.
    + destruct (N.leb_spec j h), (N.leb_spec i h); try lia. now rewrite IH.
Qed.

Lemma indexedProps_insertion_order (o1 o2 : list (string * A)) :
  NoDup (map fst o1) -> Permutation o1 o2 -> indexedProps o1 = indexedProps o2.
Proof.
  intros Hnd Hperm. induction Hperm as [|[k v] l l' Hperm IH|[k1 v1] [k2 v2] l|l l' l'' P1 IH1 P2 IH2].
  - reflexivity.
  - cbn [indexedProps]. cbn [map fst] in Hnd. apply NoDup_cons in Hnd.
    rewrite (IH (proj2 Hnd)). reflexivity.
  - cbn [indexedProps]. cbn [map fst] in Hnd.
    destruct (arrayIndex k1) as [i1|] eqn:E1, (arrayIndex k2) as [i2|] eqn:E2; try reflexivity.
    apply insertIndexed_comm. intros ->.
    apply NoDup_cons in Hnd. destruct Hnd as [Hnotin _]. apply Hnotin.
    rewrite (arrayIndex_inj _ _ _ E1 E2). apply elem_of_cons. now left.
  - rewrite (IH1 Hnd). apply IH2.
    now rewrite <- P1.
Qed.

(** Two objects with the same properties, whose keys that are not array
    indices were created in the same order, enumerate alike. *)
Lemma ownEntries_insertion_order (o1 o2 : list (string * A)) :
  NoDup (map fst o1) -> Permutation o1 o2 -> namedProps o1 = namedProps o2 ->
  ownEntries o1 = ownEntries o2.
Proof.
  intros Hnd Hperm Hnamed. unfold ownEntries.
  now rewrite (indexedProps_insertion_order o1 o2 Hnd Hperm), Hnamed.
Qed.
End InsertionOrder.

Lemma hashSettings_same_enumeration (o1 o2 : Obj) :
  ownEntries o1 = ownEntries o2 -> Cache.hashSettings o1 = Cache.hashSettings o2.
Proof.
  intros Henum. unfold Cache.hashSettings.
  now rewrite (stringify_object_enumeration o1 o2 Henum).
Qed.

(** C1 (as amended).  The cache key is a function of the slug, the preset
    and the serialized overrides, and the serialization lists the entries
    in property enumeration order (array indices ascending, then the other
    keys in insertion order): two override maps with the same key/value
    entries yield the same cache key when their keys that are not array
    indices were inserted in the same relative order, wherever the
    array-index keys were inserted. *)
Theorem cacheKey_insertion_order (slug : string) (preset : option string) (o1 o2 : Obj) :
  NoDup (map fst o1) ->
  Permutation o1 o2 ->
  namedProps o1 = namedProps o2 ->
  Cache.generateCacheKey slug preset (Some (Cache.hashSettings o1))
  = Cache.generateCacheKey slug preset (Some (Cache.hashSettings o2)).
Proof.
  intros Hnd Hperm Hnamed.
  now rewrite (hashSettings_same_enumeration o1 o2
                 (ownEntries_insertion_order o1 o2 Hnd Hperm Hnamed)).
Qed.

(** Two maps with the same entries, built in different insertion orders. *)
Lemma cacheKey_insertion_order_witness :
  let o1 := [("1", VNum 1); ("title", VStr "Sale"); ("0", VNum 2)] in
  let o2 := [("0", VNum 2); ("1", VNum 1); ("title", VStr "Sale")] in
  o1 <> o2
  /\ Cache.generateCacheKey "hero-banner" (Some "dark") (Some (Cache.hashSettings o1))
     = Cache.generateCacheKey "hero-banner" (Some "dark") (Some (Cache.hashSettings o2)).
Proof.
  cbv zeta. split; [discriminate|].
  apply (cacheKey_insertion_order "hero-banner" (Some "dark")).
  - repeat (apply NoDup_cons; split;
            [intros Hin; repeat (apply elem_of_cons in Hin as [Hin|Hin]; [discriminate|]);
             inversion Hin|]).
    apply NoDup_nil. exact I.
  - apply perm_trans with [("1", VNum 1); ("0", VNum 2); ("title", VStr "Sale")].
    + apply perm_skip, perm_swap.
    + apply perm_swap.
  - reflexivity.
Defined.

(** C1 (as stated) fails twice: the same two entries inserted in the other
    order give another key, and two different values of one entry give the
    same key. *)
Lemma cacheKey_order_and_value_counterexample :
  (Permutation [("a", VNum 1); ("b", VNum 2)] [("b", VNum 2); ("a", VNum 1)]
   /\ Cache.generateCacheKey "hero-banner" None
        (Some (Cache.hashSettings [("a", VNum 1); ("b", VNum 2)])) = "hero-banner:kz8hg0"
   /\ Cache.generateCacheKey "hero-banner" None
        (Some (Cache.hashSettings [("b", VNum 2); ("a", VNum 1)])) = "hero-banner:k2g9cg")
  /\ (VStr "Aa" <> VStr "BB"
      /\ Cache.generateCacheKey "hero-banner" None (Some (Cache.hashSettings [("k", VStr "Aa")]))
         = Cache.generateCacheKey "hero-banner" None (Some (Cache.hashSettings [("k", VStr "BB")]))).
Proof.
  split; [split; [apply perm_swap | split; vm_compute; reflexivity]|].
  split; [discriminate | vm_compute; reflexivity].
Qed.

(** ** The render cache *)

(** C4.  An entry written at 10:00 UTC with the 60 minute TTL carries the
    expiry [2026-11-02T11:00:00.000Z].  The lookup compares that text with
    [datetime('now')], which is [2026-11-02 13:00:00] two hours after the
    expiry: the texts agree up to the date, and there ["T"] sorts after
    the space, so the expired entry is still returned, and it stays so
    until the UTC date changes. *)
Theorem getCachedPreview_returns_expired_entry :
  let writtenAt := 1793613600000 in
  let readAt := writtenAt + 3 * 3600000 in
  let stored :=
    (Cache.setCachedPreview "hero-banner" "hero-banner" None heroEntry 60
       (healthyBackend emptyTable) writtenAt).2 in
  map Cache.expires_at (tableOf stored) = ["2026-11-02T11:00:00.000Z"]
  /\ toISOString readAt = Normal "2026-11-02T13:00:00.000Z"
  /\ Cache.sqliteDatetimeNow readAt = "2026-11-02 13:00:00"
  /\ Cache.getCachedPreview "hero-banner" stored readAt = Normal (Some heroEntry)
  /\ Cache.getCachedPreview "hero-banner" stored (writtenAt + 14 * 3600000) = Normal None.
Proof. vm_compute. repeat split; reflexivity. Qed.

(** Whatever the times of day, an expiry written by [toISOString] sorts
    after [datetime('now')] of the same UTC date: the entry is served
    until that date is over. *)
Lemma expiry_on_current_date_is_live (expiresMs nowMs : Z) :
  Z.abs expiresMs <= 8640000000000000 ->
  expiresMs / 86400000 = nowMs / 86400000 ->
  0 <= (civilFromDays (nowMs / 86400000)).1.1 <= 9999 ->
  exists iso,
    toISOString expiresMs = Normal iso
    /\ Cache.textGt iso (Cache.sqliteDatetimeNow nowMs) = true.
Proof.
  intros Hrange Hday Hyear.
  unfold toISOString, Cache.sqliteDatetimeNow.
  destruct (Z.gtb_spec (Z.abs expiresMs) 8640000000000000) as [Hbad|_]; [lia|].
  rewrite Hday.
  destruct (civilFromDays (nowMs / 86400000)) as [[y m] d]. simpl in Hyear.
  eexists. split; [reflexivity|].
  unfold Cache.textGt, String.ltb, isoYear.
  destruct (Z.leb_spec 0 y) as [_|Hneg]; [|lia].
  destruct (Z.leb_spec y 9999) as [_|Hbig]; [|lia].
  simpl andb. cbv iota.
  rewrite !compare_common_prefix.
  reflexivity.
Qed.

Lemma getCachedPreview_never_throws key l now :
  exists found, Cache.getCachedPreview key l now = Normal found.
Proof.
  unfold Cache.getCachedPreview, tryCatch, bind.
  destruct (Cache.prepare l Cache.SelectLive) as [db|error]; [|eauto].
  destruct (Cache.selectLive _ key now); eauto.
Qed.

Lemma setCachedPreview_never_throws key slug preset entry ttl l now :
  (Cache.setCachedPreview key slug preset entry ttl l now).1 = Normal tt.
Proof.
  unfold Cache.setCachedPreview.
  destruct (bind (toISOString now) _); reflexivity.
Qed.

Lemma setCachedPreview_failure key slug preset entry ttl l now :
  backendFails l Cache.InsertOrReplace ->
  Cache.setCachedPreview key slug preset entry ttl l now = (Normal tt, l).
Proof.
  intros [error Hfail]. unfold Cache.setCachedPreview, bind.
  destruct (toISOString now); [|reflexivity].
  destruct (toISOString _); [|reflexivity].
  now rewrite Hfail.
Qed.

Lemma prepare_withTable (l : Cache.Locals) stmt db :
  Cache.prepare l stmt = Normal db -> Cache.DB l = Some db.
Proof.
  unfold Cache.prepare. destruct (Cache.DB l) as [db'|]; [|discriminate].
  destruct (Cache.rejects db' stmt); [discriminate|]. now intros [= ->].
Qed.

(** The rows after a write: the former rows under other keys, then the
    row written. *)
Lemma setCachedPreview_rows key slug preset entry ttl l now row :
  row ∈ tableOf (Cache.setCachedPreview key slug preset entry ttl l now).2 ->
  row ∈ tableOf l \/ Cache.cache_key row = key.
Proof.
  unfold Cache.setCachedPreview, bind.
  destruct (toISOString now) as [timestamp|]; [|now left].
  destruct (toISOString _) as [expires|]; [|now left].
  destruct (Cache.prepare l Cache.InsertOrReplace) as [db|] eqn:Hprep; [|now left].
  apply prepare_withTable in Hprep.
  unfold tableOf at 1. simpl. rewrite elem_of_app, list_elem_of_singleton.
  intros [Hkept | ->]; [left | now right].
  apply list_elem_of_In, filter_In in Hkept. destruct Hkept as [Hin _].
  unfold tableOf. rewrite Hprep. now apply list_elem_of_In.
Qed.

Lemma find_none_of_forall {A : Type} (p : A -> bool) (xs : list A) :
  (forall x, x ∈ xs -> p x = false) -> find p xs = None.
Proof.
  induction xs as [|x xs IH]; intros Hall; simpl; [reflexivity|].
  rewrite (Hall x) by left. apply IH. intros y Hy. apply Hall. now right.
Qed.

Lemma getCachedPreview_miss key l now :
  noRowFor key l -> Cache.getCachedPreview key l now = Normal None.
Proof.
  intros Hno. unfold Cache.getCachedPreview, tryCatch, bind.
  destruct (Cache.prepare l Cache.SelectLive) as [db|] eqn:Hprep; [|reflexivity].
  apply prepare_withTable in Hprep.
  unfold Cache.selectLive. rewrite find_none_of_forall; [reflexivity|].
  intros row Hrow. apply andb_false_iff. left.
  apply String.eqb_neq. apply Hno. unfold tableOf. now rewrite Hprep.
Qed.

Lemma getCachedPreview_failure key l now :
  backendFails l Cache.SelectLive -> Cache.getCachedPreview key l now = Normal None.
Proof.
  intros [error Hfail]. unfold Cache.getCachedPreview. now rewrite Hfail.
Qed.


(** ** The render pipeline *)

Section RendererFacts.

Variable genTemplate : Mock.SectionData -> string.
Variable genCSS : Mock.SectionData -> string.
Variable site : Site.

Lemma renderFresh_not_found options h timing :
  loadSectionData site (sectionSlug options) = None ->
  renderFresh genTemplate genCSS site options h timing
  = (Normal (notFoundResult (sectionSlug options) timing), locals options, h).
Proof. intros Hnone. unfold renderFresh. now rewrite Hnone. Qed.

Lemma renderFresh_throw options h timing sectionData context h' error :
  loadSectionData site (sectionSlug options) = Some sectionData ->
  buildContext site options sectionData h = (context, h') ->
  parseAndRender site (resolveTemplate genTemplate site sectionData) context h' = Throw error ->
  renderFresh genTemplate genCSS site options h timing
  = (Normal (renderErrorResult genCSS sectionData error timing), locals options, h').
Proof.
  intros Hsome Hctx Hthrow. unfold renderFresh.
  rewrite Hsome, Hctx, Hthrow. simpl.
  now rewrite andb_false_r.
Qed.

Lemma renderFresh_rendered options h timing sectionData context h' out :
  loadSectionData site (sectionSlug options) = Some sectionData ->
  buildContext site options sectionData h = (context, h') ->
  parseAndRender site (resolveTemplate genTemplate site sectionData) context h' = Normal out ->
  renderFresh genTemplate genCSS site options h timing
  = (Normal (renderedResult genCSS sectionData out timing),
     if skipCache options then locals options
     else (Cache.setCachedPreview (cacheKeyOf options) (sectionSlug options)
             (presetSlug options)
             {| Cache.entry_html := out; Cache.entry_css := Some (genCSS sectionData);
                Cache.entry_renderTimeMs := perfEnd timing - perfStart timing |}
             60 (locals options) (storeAt timing)).2,
     h').
Proof.
  intros Hsome Hctx Hout. unfold renderFresh.
  rewrite Hsome, Hctx, Hout. simpl.
  destruct (skipCache options); simpl; [reflexivity|].
  destruct (Cache.setCachedPreview _ _ _ _ _ _ _) as [stored l'] eqn:Hset.
  pose proof (setCachedPreview_never_throws (cacheKeyOf options) (sectionSlug options)
                (presetSlug options)
                {| Cache.entry_html := out; Cache.entry_css := Some (genCSS sectionData);
                   Cache.entry_renderTimeMs := perfEnd timing - perfStart timing |}
                60 (locals options) (storeAt timing)) as Hok.
  rewrite Hset in Hok. simpl in Hok. subst stored. reflexivity.
Qed.

(** What a render that did not hit the cache leaves behind: nothing
    thrown, [cached = false], and the backend untouched unless the result
    is free of errors and [skipCache] is off. *)
Lemma renderFresh_outcome options h timing :
  exists result l' h',
    renderFresh genTemplate genCSS site options h timing = (Normal result, l', h')
    /\ cached result = false
    /\ (errors result <> [] \/ skipCache options = true -> l' = locals options)
    /\ (forall row, row ∈ tableOf l' ->
          row ∈ tableOf (locals options) \/ Cache.cache_key row = cacheKeyOf options).
Proof.
  destruct (loadSectionData site (sectionSlug options)) as [sectionData|] eqn:Hload.
  - destruct (buildContext site options sectionData h) as [context h'] eqn:Hctx.
    destruct (parseAndRender site (resolveTemplate genTemplate site sectionData) context h')
      as [out|error] eqn:Hrender.
    + eexists _, _, _. split; [eapply renderFresh_rendered; eassumption|].
      split; [reflexivity|]. split.
      * intros [Herr | Hskip]; [now contradiction Herr | now rewrite Hskip].
      * intros row. destruct (skipCache options); [now left|].
        apply setCachedPreview_rows.
    + eexists _, _, _. split; [eapply renderFresh_throw; eassumption|].
      split; [reflexivity|]. split; [reflexivity | now left].
  - eexists _, _, _. split; [now apply renderFresh_not_found|].
    split; [reflexivity|]. split; [reflexivity | now left].
Qed.

Lemma renderSection_outcome options h timing :
  exists result l' h',
    renderSection genTemplate genCSS site options h timing = (Normal result, l', h')
    /\ (errors result <> [] \/ skipCache options = true -> l' = locals options)
    /\ (forall row, row ∈ tableOf l' ->
          row ∈ tableOf (locals options) \/ Cache.cache_key row = cacheKeyOf options).
Proof.
  unfold renderSection.
  destruct (renderFresh_outcome options h timing)
    as (result & l' & h' & Hfresh & _ & Hsame & Hrows).
  destruct (skipCache options) eqn:Hskip; simpl.
  - eexists _, _, _. split; [exact Hfresh|]. split; assumption.
  - destruct (getCachedPreview_never_throws (cacheKeyOf options) (locals options)
                (lookupAt timing)) as [[hit|] ->].
    + eexists _, _, _. split; [reflexivity|]. split; [reflexivity | now left].
    + eexists _, _, _. split; [exact Hfresh|]. split; assumption.
Qed.

End RendererFacts.

Section BatchFacts.

Variable genTemplate : Mock.SectionData -> string.
Variable genCSS : Mock.SectionData -> string.
Variable site : Site.

Lemma batch_render_step slug preset l h timing outcome l' h' :
  renderSection genTemplate genCSS site (batchOptions slug preset l) h timing
  = (outcome, l', h') ->
  exists result,
    outcome = Normal result
    /\ isolatedResult genTemplate site slug preset l result
    /\ (loadSectionData site slug = None -> l' = l)
    /\ (forall key, key <> Cache.generateCacheKey slug preset None ->
          noRowFor key l -> noRowFor key l').
Proof.
  intros Hrun.
  destruct (renderSection_outcome genTemplate genCSS site (batchOptions slug preset l) h timing)
    as (result & l1 & h1 & Heq & _ & Hrows).
  rewrite Hrun in Heq. injection Heq as -> -> ->.
  exists result. split; [reflexivity|].
  assert (Hfresh_none : loadSectionData site slug = None ->
          Cache.getCachedPreview (Cache.generateCacheKey slug preset None) l (lookupAt timing)
          = Normal None ->
          result = notFoundResult slug timing /\ l1 = l).
  { intros Hnone Hmiss. unfold renderSection in Hrun. simpl in Hrun.
    change (cacheKeyOf (batchOptions slug preset l))
      with (Cache.generateCacheKey slug preset None) in Hrun.
    rewrite Hmiss in Hrun.
    rewrite (renderFresh_not_found genTemplate genCSS site) in Hrun by exact Hnone.
    injection Hrun as <- <- _. split; reflexivity. }
  split; [split|split].
  - intros Hnone Hno.
    destruct (Hfresh_none Hnone (getCachedPreview_miss _ _ _ Hno)) as [-> _].
    repeat split.
  - intros sectionData Hsome Hclean.
    unfold renderSection in Hrun. simpl in Hrun.
    destruct (Cache.getCachedPreview _ l (lookupAt timing)) as [[hit|]|error].
    + injection Hrun as <- _ _. reflexivity.
    + destruct (buildContext site (batchOptions slug preset l) sectionData h)
        as [context h2] eqn:Hctx.
      destruct (Hclean context h2) as [out Hout].
      rewrite (renderFresh_rendered genTemplate genCSS site _ _ _ sectionData context h2 out)
        in Hrun; [|exact Hsome|exact Hctx|exact Hout].
      injection Hrun as <- _ _. reflexivity.
    + discriminate.
  - intros Hnone. unfold renderSection in Hrun. simpl in Hrun.
    destruct (Cache.getCachedPreview _ l (lookupAt timing)) as [[hit|]|error].
    + now injection Hrun as _ <- _.
    + rewrite (renderFresh_not_found genTemplate genCSS site) in Hrun by exact Hnone.
      now injection Hrun as _ <- _.
    + now injection Hrun as _ <- _.
  - intros key Hkey Hno row Hrow.
    destruct (Hrows row Hrow) as [Hold | Hnew]; [now apply Hno|].
    rewrite Hnew. intros Heq. apply Hkey. now rewrite <- Heq.
Qed.


Lemma renderEach_dom (preset : option string) (timing : nat -> Timing) :
  forall slugs l h index results outcome l' h',
    renderEach genTemplate genCSS site slugs preset l h timing index results
    = (outcome, l', h') ->
    exists results',
      outcome = Normal results'
      /\ dom results' = dom results ∪ list_to_set slugs.
Proof.
  induction slugs as [|slug rest IH]; intros l h index results outcome l' h' Hrun.
  - simpl in Hrun. injection Hrun as <- <- <-. exists results.
    split; [reflexivity | set_solver].
  - simpl in Hrun.
    destruct (renderSection genTemplate genCSS site _ h (timing index))
      as [[stepOutcome l1] h1] eqn:Hstep.
    destruct (batch_render_step slug preset l h (timing index) stepOutcome l1 h1 Hstep)
      as (result & -> & _).
    destruct (IH l1 h1 (S index) (<[slug := result]> results) outcome l' h' Hrun)
      as (results' & -> & Hdom).
    exists results'. split; [reflexivity|].
    rewrite Hdom, dom_insert_L. set_solver.
Qed.

End BatchFacts.

(** ** Properties of the pipeline *)

(** C3.  Every call of [renderSection] returns a result, and when that
    result carries errors (the schema was missing, or the template threw)
    or [skipCache] is set, the cache backend is left exactly as it was:
    no entry is written. *)
Theorem renderSection_caches_only_clean_renders
    (genTemplate genCSS : Mock.SectionData -> string) (site : Site)
    (options : RenderOptions) (h : Heap) (timing : Timing) :
  exists result l' h',
    renderSection genTemplate genCSS site options h timing = (Normal result, l', h')
    /\ (errors result <> [] \/ skipCache options = true -> l' = locals options).
Proof.
  destruct (renderSection_outcome genTemplate genCSS site options h timing)
    as (result & l' & h' & Heq & Hsame & _).
  exists result, l', h'. split; assumption.
Qed.

(** A render of a slug with no schema: the result carries the error and
    the backend is the one the call was given. *)
Lemma renderSection_caches_only_clean_renders_witness :
  exists result l' h',
    renderSection sampleTemplate sampleCSS (sampleSite sampleEngine)
      (sampleOptions "missing-section" (healthyBackend emptyTable)) [] sampleTiming
    = (Normal result, l', h')
    /\ errors result = ["Section not found: missing-section"]
    /\ l' = healthyBackend emptyTable.
Proof.
  destruct (renderSection_caches_only_clean_renders sampleTemplate sampleCSS
              (sampleSite sampleEngine)
              (sampleOptions "missing-section" (healthyBackend emptyTable)) [] sampleTiming)
    as (result & l' & h' & Hrun & Hsame).
  exists result, l', h'. split; [exact Hrun|].
  assert (Herrors : errors result = ["Section not found: missing-section"]).
  { vm_compute in Hrun. now injection Hrun as <- _ _. }
  split; [exact Herrors|].
  apply Hsame. left. rewrite Herrors. discriminate.
Defined.





(** C6.  The cache operations are advisory.  A lookup on a failing backend
    reports a miss, and the render then proceeds as if the cache had been
    skipped, its result not marked as cached; a write on a failing backend
    returns normally and changes nothing; an invalidation on a failing
    backend returns a count of 0.  None of the three ever throws. *)
Theorem cache_operations_are_advisory (l : Cache.Locals) :
  (forall key now,
     backendFails l Cache.SelectLive ->
     Cache.getCachedPreview key l now = Normal None)
  /\ (forall genTemplate genCSS site options h timing,
        locals options = l ->
        backendFails l Cache.SelectLive ->
        renderSection genTemplate genCSS site options h timing
        = renderFresh genTemplate genCSS site options h timing
        /\ exists result l' h',
             renderSection genTemplate genCSS site options h timing
             = (Normal result, l', h')
             /\ cached result = false)
  /\ (forall key slug preset entry ttl now,
        backendFails l Cache.InsertOrReplace ->
        Cache.setCachedPreview key slug preset entry ttl l now = (Normal tt, l))
  /\ (forall slug,
        backendFails l Cache.DeleteBySection ->
        Cache.invalidateSectionCache slug l = (Normal 0, l))
  /\ (forall slug,
        backendFails l Cache.DeleteByPreset ->
        Cache.invalidatePresetCache slug l = (Normal 0, l))
  /\ (forall key now, exists found, Cache.getCachedPreview key l now = Normal found)
  /\ (forall key slug preset entry ttl now,
        (Cache.setCachedPreview key slug preset entry ttl l now).1 = Normal tt)
  /\ (forall slug, exists count, (Cache.invalidateSectionCache slug l).1 = Normal count)
  /\ (forall slug, exists count, (Cache.invalidatePresetCache slug l).1 = Normal count).
Proof.
  split; [intros; now apply getCachedPreview_failure|].
  split.
  { intros genTemplate genCSS site options h timing <- Hfail.
    assert (Heq : renderSection genTemplate genCSS site options h timing
                  = renderFresh genTemplate genCSS site options h timing).
    { unfold renderSection. destruct (skipCache options); simpl; [reflexivity|].
      now rewrite getCachedPreview_failure. }
    split; [exact Heq|]. rewrite Heq.
    destruct (renderFresh_outcome genTemplate genCSS site options h timing)
      as (result & l' & h' & Hfresh & Hcached & _).
    now exists result, l', h'. }
  split; [intros; now apply setCachedPreview_failure|].
  split.
  { intros slug [error Hfail]. unfold Cache.invalidateSectionCache. now rewrite Hfail. }
  split.
  { intros slug [error Hfail]. unfold Cache.invalidatePresetCache. now rewrite Hfail. }
  split; [intros; apply getCachedPreview_never_throws|].
  split; [intros; apply setCachedPreview_never_throws|].
  split.
  - intros slug. unfold Cache.invalidateSectionCache.
    destruct (Cache.prepare l Cache.DeleteBySection); simpl; eauto.
  - intros slug. unfold Cache.invalidatePresetCache.
    destruct (Cache.prepare l Cache.DeleteByPreset); simpl; eauto.
Qed.

Lemma unboundBackend_fails stmt : backendFails unboundBackend stmt.
Proof. eexists. reflexivity. Qed.

(** On a backend with no binding: the lookup misses, the hero banner is
    rendered afresh, the write and the invalidation change nothing. *)
Lemma cache_operations_are_advisory_witness :
  Cache.getCachedPreview "hero-banner" unboundBackend 1793613600000 = Normal None
  /\ (exists result l' h',
        renderSection sampleTemplate sampleCSS (sampleSite sampleEngine)
          (sampleOptions "hero-banner" unboundBackend) [] sampleTiming
        = (Normal result, l', h')
        /\ cached result = false)
  /\ Cache.setCachedPreview "hero-banner" "hero-banner" None heroEntry 60
       unboundBackend 1793613600000 = (Normal tt, unboundBackend)
  /\ Cache.invalidateSectionCache "hero-banner" unboundBackend = (Normal 0, unboundBackend).
Proof.
  destruct (cache_operations_are_advisory unboundBackend)
    as (Hget & Hrender & Hset & Hsection & _).
  split; [apply Hget, unboundBackend_fails|].
  split.
  { apply (Hrender sampleTemplate sampleCSS (sampleSite sampleEngine)
             (sampleOptions "hero-banner" unboundBackend) [] sampleTiming eq_refl
             (unboundBackend_fails Cache.SelectLive)). }
  split; [apply Hset, unboundBackend_fails | apply Hsection, unboundBackend_fails].
Defined.

(** ** The mock context generator *)

(** C2.  [generateMockDataFromSchema] writes into its input.  On the
    slideshow schema the block of the context shares the settings object
    of the preset block (address 0), and the merge of the block type's
    defaults adds [heading] to that very object: after the call the schema
    no longer holds the settings it was given.  The contexts of a first
    and of a second call agree, so the call is deterministic; it is not
    free of side effects. *)
Theorem generateMockDataFromSchema_mutates_schema :
  let first := Mock.generateMockDataFromSchema slideshowSchema None slideshowHeap in
  let second := Mock.generateMockDataFromSchema slideshowSchema None first.2 in
  deref slideshowHeap 0%nat = [("subheading", VStr "Welcome")]
  /\ map Mock.mb_settings (Mock.sc_blocks (Mock.ctx_section first.1)) = [0%nat]
  /\ deref first.2 0%nat = [("subheading", VStr "Welcome"); ("heading", VStr "Sample text")]
  /\ first.2 <> slideshowHeap
  /\ second = first.
Proof.
  vm_compute. repeat split; try reflexivity. discriminate.
Qed.

(** ** The filters *)




(** ** The money filters *)

Import Filters.

(** *** Decimal digits *)

Lemma digitsFuel_acc fuel radix n acc :
  digitsFuel fuel radix n acc = digitsFuel fuel radix n "" +:+ acc.
Proof.
  revert n acc. induction fuel as [|fuel IH]; intros n acc; simpl; [reflexivity|].
  destruct (n / radix =? 0)%N; [reflexivity|].
  rewrite (IH _ (String _ acc)), (IH _ (String _ "")), append_assoc.
  reflexivity.
Qed.

Lemma digitsFuel_more fuel radix n acc :
  (2 <= radix)%N -> (n < 2 ^ N.of_nat (S fuel))%N ->
  digitsFuel (S (S fuel)) radix n acc = digitsFuel (S fuel) radix n acc.
Proof.
  intros Hr. revert n acc. induction fuel as [|fuel IH]; intros n acc Hn.
  - assert (Hz : (n / radix = 0)%N).
    { apply N.div_small. change (2 ^ N.of_nat 1)%N with 2%N in Hn. lia. }
    simpl. now rewrite Hz.
  - change (digitsFuel (S (S (S fuel))) radix n acc)
      with (let acc' := String (digitChar (n mod radix)) acc in
            if (n / radix =? 0)%N then acc'
            else digitsFuel (S (S fuel)) radix (n / radix) acc').
    change (digitsFuel (S (S fuel)) radix n acc)
      with (let acc' := String (digitChar (n mod radix)) acc in
            if (n / radix =? 0)%N then acc'
            else digitsFuel (S fuel) radix (n / radix) acc').
    simpl. destruct (n / radix =? 0)%N; [reflexivity|].
    apply IH.
    assert (n / radix <= n / 2)%N by (apply N.div_le_compat_l; lia).
    assert (n / 2 < 2 ^ N.of_nat (S fuel))%N.
    { apply N.Div0.div_lt_upper_bound.
      rewrite <- N.pow_succ_r'. now rewrite <- Nat2N.inj_succ. }
    lia.
Qed.

Lemma digitsFuel_enough extra fuel radix n :
  (2 <= radix)%N -> (n < 2 ^ N.of_nat (S fuel))%N ->
  digitsFuel (extra + S fuel) radix n "" = digitsFuel (S fuel) radix n "".
Proof.
  intros Hr Hn. induction extra as [|extra IH]; [reflexivity|].
  rewrite <- IH. change (S extra + S fuel)%nat with (S (extra + S fuel)).
  replace (extra + S fuel)%nat with (S (extra + fuel)) by lia.
  apply digitsFuel_more; [exact Hr|].
  eapply N.lt_le_trans; [exact Hn|].
  apply N.pow_le_mono_r; lia.
Qed.

Lemma lt_pow2_log2 (n : N) : (n < 2 ^ N.of_nat (S (N.to_nat (N.log2 n))))%N.
Proof.
  rewrite Nat2N.inj_succ, N2Nat.id.
  destruct n as [|p]; [reflexivity|].
  apply N.log2_spec. lia.
Qed.

Lemma natToString_fuel fuel radix n :
  (2 <= radix)%N -> (N.to_nat (N.log2 n) < fuel)%nat ->
  natToString radix n = digitsFuel fuel radix n "".
Proof.
  intros Hr Hf. unfold natToString.
  replace fuel with ((fuel - S (N.to_nat (N.log2 n))) + S (N.to_nat (N.log2 n)))%nat by lia.
  symmetry. apply digitsFuel_enough; [exact Hr | apply lt_pow2_log2].
Qed.

Lemma natToString_small radix n :
  (2 <= radix)%N -> (n < radix)%N -> natToString radix n = String (digitChar n) "".
Proof.
  intros Hr Hn. unfold natToString. simpl.
  rewrite N.mod_small by exact Hn. now rewrite N.div_small by exact Hn.
Qed.

Lemma natToString_step radix n :
  (2 <= radix)%N -> (radix <= n)%N ->
  natToString radix n
  = natToString radix (n / radix) +:+ String (digitChar (n mod radix)) "".
Proof.
  intros Hr Hn.
  rewrite (natToString_fuel (S (S (N.to_nat (N.log2 n)))) radix n) by (try exact Hr; lia).
  change (digitsFuel (S (S (N.to_nat (N.log2 n)))) radix n "")
    with (let acc' := String (digitChar (n mod radix)) "" in
          if (n / radix =? 0)%N then acc'
          else digitsFuel (S (N.to_nat (N.log2 n))) radix (n / radix) acc').
  cbv zeta.
  destruct (N.eqb_spec (n / radix) 0) as [Hz|Hnz].
  { apply N.div_small_iff in Hz; lia. }
  rewrite digitsFuel_acc. f_equal. symmetry.
  apply natToString_fuel; [exact Hr|].
  assert (N.log2 (n / radix) <= N.log2 n)%N.
  { apply N.log2_le_mono. apply N.Div0.div_le_upper_bound.
    nia. }
  lia.
Qed.

Lemma natToString_nonempty radix n :
  (2 <= radix)%N -> (1 <= String.length (natToString radix n))%nat.
Proof.
  intros Hr. destruct (N.lt_ge_cases n radix) as [Hlt|Hge].
  - rewrite natToString_small by assumption. simpl. lia.
  - rewrite natToString_step by assumption. rewrite length_append. simpl. lia.
Qed.

Lemma substring_prefix (s t : string) :
  String.substring 0 (String.length s) (s +:+ t) = s.
Proof.
  induction s as [|c s IH].
  - rewrite append_nil_l. destruct t; reflexivity.
  - rewrite append_cons. simpl. now rewrite IH.
Qed.

Lemma lastN_cons (n : nat) (c : ascii) (s : string) :
  lastN n (String c s)
  = if (S (String.length s) <=? n)%nat then String c s else lastN n s.
Proof. reflexivity. Qed.

Lemma lastN_suffix (s t : string) : lastN (String.length t) (s +:+ t) = t.
Proof.
  induction s as [|c s IH].
  - rewrite append_nil_l. destruct t as [|c t]; [reflexivity|].
    rewrite lastN_cons. change (String.length (String c t)) with (S (String.length t)).
    now rewrite Nat.leb_refl.
  - rewrite append_cons, lastN_cons, length_append.
    destruct (Nat.leb_spec (S (String.length s + String.length t)) (String.length t)); [lia|].
    exact IH.
Qed.

Lemma pointed_two (n : N) : pointed (Z.of_N n) 2 = twoDecimals n.
Proof.
  unfold pointed, twoDecimals. rewrite Zabs2N.id.
  destruct (N.lt_ge_cases n 10) as [H10|H10].
  - rewrite (natToString_small 10 n) by lia.
    rewrite (N.div_small n 100), (N.div_small n 10) by lia.
    rewrite (N.mod_small n 10) by lia. reflexivity.
  - rewrite (natToString_step 10 n) by lia.
    destruct (N.lt_ge_cases n 100) as [H100|H100].
    + rewrite (natToString_small 10 (n / 10)).
      2: lia.
      2: { apply N.Div0.div_lt_upper_bound. lia. }
      rewrite (N.div_small n 100) by lia.
      rewrite (N.mod_small (n / 10) 10).
      2: { apply N.Div0.div_lt_upper_bound. lia. }
      reflexivity.
    + rewrite (natToString_step 10 (n / 10)).
      2: lia.
      2: { apply N.div_le_lower_bound; lia. }
      rewrite N.Div0.div_div. change (10 * 10)%N with 100%N.
      rewrite append_assoc.
      set (s := natToString 10 (n / 100)).
      set (t := String (digitChar ((n / 10) mod 10)) "" +:+ String (digitChar (n mod 10)) "").
      assert (Hlen : (String.length (s +:+ t) <=? 2)%nat = false).
      { apply Nat.leb_gt. rewrite length_append.
        pose proof (natToString_nonempty 10 (n / 100)). subst s t. simpl. lia. }
      rewrite Hlen. unfold dropLastN.
      replace (String.length (s +:+ t) - 2)%nat with (String.length s).
      2: { rewrite length_append. subst t. simpl. lia. }
      rewrite substring_prefix.
      change 2%nat with (String.length t) at 1.
      rewrite lastN_suffix. reflexivity.
Qed.

(** *** Rounding in binary64 *)

Lemma digits2_pos_bounds (p : positive) :
  2 ^ (Z.pos (digits2_pos p) - 1) <= Z.pos p < 2 ^ Z.pos (digits2_pos p).
Proof.
  induction p as [p IH|p IH|]; simpl digits2_pos.
  - rewrite Pos2Z.inj_succ. change (Z.pos p~1) with (2 * Z.pos p + 1).
    replace (Z.succ (Z.pos (digits2_pos p)) - 1) with (Z.succ (Z.pos (digits2_pos p) - 1)) by lia.
    rewrite !Z.pow_succ_r by lia. lia.
  - rewrite Pos2Z.inj_succ. change (Z.pos p~0) with (2 * Z.pos p).
    replace (Z.succ (Z.pos (digits2_pos p)) - 1) with (Z.succ (Z.pos (digits2_pos p) - 1)) by lia.
    rewrite !Z.pow_succ_r by lia. lia.
  - simpl. lia.
Qed.

Lemma digits2_pos_eq (p : positive) (d : Z) :
  2 ^ (d - 1) <= Z.pos p < 2 ^ d -> Z.pos (digits2_pos p) = d.
Proof.
  intros [Hlo Hhi]. pose proof (digits2_pos_bounds p) as [Blo Bhi].
  set (D := Z.pos (digits2_pos p)) in *.
  destruct (Z.lt_trichotomy D d) as [Hlt|[Heq|Hgt]]; [|exact Heq|].
  - assert (2 ^ D <= 2 ^ (d - 1)) by (apply Z.pow_le_mono_r; lia). lia.
  - assert (0 <= d).
    { destruct (Z.le_gt_cases 0 d); [assumption|].
      rewrite Z.pow_neg_r in Hhi by lia. lia. }
    assert (2 ^ d <= 2 ^ (D - 1)) by (apply Z.pow_le_mono_r; lia). lia.
Qed.

Lemma binary_round_aux_finish s mx ex lx :
  binary_round_aux prec emax s mx ex lx
  = finish s (round_nearest_even (shr_m (shr_fexp prec emax mx ex lx).1)
                                 (loc_of_shr_record (shr_fexp prec emax mx ex lx).1))
             (shr_fexp prec emax mx ex lx).2.
Proof.
  unfold binary_round_aux, finish.
  destruct (shr_fexp prec emax mx ex lx) as [mrs e']. reflexivity.
Qed.

Lemma fexp_normal (d e : Z) :
  -1074 <= d + e - 53 -> fexp prec emax (d + e) = d + e - 53.
Proof. unfold fexp, emin, prec, emax. lia. Qed.

Lemma shr_fexp_53 (m : positive) (e : Z) (l : location) :
  2 ^ 52 <= Z.pos m < 2 ^ 53 -> -1074 <= e ->
  shr_fexp prec emax (Z.pos m) e l = (shr_record_of_loc (Z.pos m) l, e).
Proof.
  intros Hm He. unfold shr_fexp.
  change (Zdigits2 (Z.pos m)) with (Z.pos (digits2_pos m)).
  rewrite (digits2_pos_eq m 53) by exact Hm.
  rewrite fexp_normal by lia.
  replace (53 + e - 53 - e) with 0 by lia. reflexivity.
Qed.

Lemma shr_fexp_54 (m : positive) (e : Z) (l : location) :
  2 ^ 53 <= Z.pos m < 2 ^ 54 -> -1074 <= e ->
  shr_fexp prec emax (Z.pos m) e l = (shr_1 (shr_record_of_loc (Z.pos m) l), e + 1).
Proof.
  intros Hm He. unfold shr_fexp.
  change (Zdigits2 (Z.pos m)) with (Z.pos (digits2_pos m)).
  rewrite (digits2_pos_eq m 54) by exact Hm.
  rewrite fexp_normal by lia.
  replace (54 + e - 53 - e) with 1 by lia. reflexivity.
Qed.

Lemma finish_53 s (m : positive) (e : Z) :
  2 ^ 52 <= Z.pos m < 2 ^ 53 -> -1074 <= e <= 971 ->
  finish s (Z.pos m) e = S754_finite s m e.
Proof.
  intros Hm He. unfold finish. rewrite shr_fexp_53 by (try exact Hm; lia).
  simpl. destruct (Z.leb_spec e (emax - prec)) as [_|Hbad]; [reflexivity|].
  unfold emax, prec in Hbad. lia.
Qed.

Lemma finish_overflow s (e : Z) :
  -1074 <= e <= 970 ->
  finish s (2 ^ 53) e = S754_finite s 4503599627370496 (e + 1).
Proof.
  intros He. unfold finish.
  change (2 ^ 53) with (Z.pos 9007199254740992).
  rewrite shr_fexp_54; [|split; [discriminate | reflexivity]|lia].
  simpl. destruct (Z.leb_spec (e + 1) (emax - prec)) as [_|Hbad]; [reflexivity|].
  unfold emax, prec in Hbad. lia.
Qed.

Lemma loc_of_shr_record_of_loc m l : loc_of_shr_record (shr_record_of_loc m l) = l.
Proof. destruct l as [|[]]; reflexivity. Qed.

Lemma shr_m_of_loc m l : shr_m (shr_record_of_loc m l) = m.
Proof. destruct l as [|[]]; reflexivity. Qed.

Lemma new_location_even_cases (m2 r : Z) :
  0 <= r < m2 ->
  (new_location_even m2 r = loc_Exact /\ r = 0)
  \/ (new_location_even m2 r = loc_Inexact Lt /\ 0 < r /\ 2 * r < m2)
  \/ (new_location_even m2 r = loc_Inexact Eq /\ 2 * r = m2)
  \/ (new_location_even m2 r = loc_Inexact Gt /\ m2 < 2 * r).
Proof.
  intros Hr. unfold new_location_even.
  destruct (Z.eqb_spec r 0) as [->|Hnz]; [now left|].
  right. destruct (Z.compare_spec (2 * r) m2) as [Heq|Hlt|Hgt].
  - right. left. now split.
  - left. repeat split; lia.
  - right. right. now split.
Qed.

Lemma finish_succ s (q : positive) (e : Z) :
  2 ^ 52 <= Z.pos q < 2 ^ 53 -> -1074 <= e <= 970 ->
  exists (m : positive) (j : Z),
    finish s (Z.pos q + 1) e = S754_finite s m (e + j)
    /\ (j = 0 \/ j = 1)
    /\ 2 ^ 52 <= Z.pos m < 2 ^ 53
    /\ Z.pos m * 2 ^ j = Z.pos q + 1.
Proof.
  intros Hq He.
  destruct (Z.lt_ge_cases (Z.pos q + 1) (2 ^ 53)) as [Hlt|Hge].
  - exists (q + 1)%positive, 0.
    rewrite Z.add_0_r, <- (finish_53 s (q + 1) e) by lia.
    repeat split; lia.
  - assert (Heq : Z.pos q + 1 = 2 ^ 53) by lia.
    exists 4503599627370496%positive, 1.
    rewrite Heq, finish_overflow by lia.
    repeat split; lia.
Qed.

Lemma round_nearest (s : bool) (q : positive) (e m2 r : Z) :
  2 ^ 52 <= Z.pos q < 2 ^ 54 - 2 -> -1074 <= e <= 970 ->
  Z.even m2 = true -> 0 <= r < m2 ->
  exists (m : positive) (j : Z),
    binary_round_aux prec emax s (Z.pos q) e (new_location m2 r) = S754_finite s m (e + j)
    /\ (j = 0 \/ j = 1)
    /\ 2 ^ 52 <= Z.pos m < 2 ^ 53
    /\ Z.abs (m2 * (Z.pos m * 2 ^ j) - (m2 * Z.pos q + r)) * 2 <= m2 * 2 ^ j.
Proof.
  intros Hq He Heven Hr.
  unfold new_location. rewrite Heven.
  rewrite binary_round_aux_finish.
  destruct (Z.lt_ge_cases (Z.pos q) (2 ^ 53)) as [H53|H54].
  - rewrite shr_fexp_53 by lia. simpl fst. simpl snd.
    rewrite loc_of_shr_record_of_loc, shr_m_of_loc.
    assert (Hstay : r * 2 <= m2 ->
              round_nearest_even (Z.pos q) (new_location_even m2 r) = Z.pos q ->
              exists (m : positive) (j : Z),
                finish s (round_nearest_even (Z.pos q) (new_location_even m2 r)) e
                = S754_finite s m (e + j)
                /\ (j = 0 \/ j = 1)
                /\ 2 ^ 52 <= Z.pos m < 2 ^ 53
                /\ Z.abs (m2 * (Z.pos m * 2 ^ j) - (m2 * Z.pos q + r)) * 2 <= m2 * 2 ^ j).
    { intros Hhalf ->. exists q, 0. rewrite Z.add_0_r, finish_53 by lia.
      repeat split; lia. }
    assert (Hup : m2 <= r * 2 ->
              round_nearest_even (Z.pos q) (new_location_even m2 r) = Z.pos q + 1 ->
              exists (m : positive) (j : Z),
                finish s (round_nearest_even (Z.pos q) (new_location_even m2 r)) e
                = S754_finite s m (e + j)
                /\ (j = 0 \/ j = 1)
                /\ 2 ^ 52 <= Z.pos m < 2 ^ 53
                /\ Z.abs (m2 * (Z.pos m * 2 ^ j) - (m2 * Z.pos q + r)) * 2 <= m2 * 2 ^ j).
    { intros Hhalf ->.
      destruct (finish_succ s q e) as (m & j & Hfin & Hj & Hm & Hval); [lia|lia|].
      exists m, j. rewrite Hfin, Hval.
      repeat split; try lia; try assumption.
      destruct Hj as [-> | ->]; simpl; lia. }
    destruct (new_location_even_cases m2 r Hr)
      as [[Hloc Hz] | [[Hloc Hlt] | [[Hloc Heq] | [Hloc Hgt]]]].
    + apply Hstay; [lia | now rewrite Hloc].
    + apply Hstay; [lia | now rewrite Hloc].
    + destruct (Z.even (Z.pos q)) eqn:Hq2.
      * apply Hstay; [lia | rewrite Hloc; unfold round_nearest_even; now rewrite Hq2].
      * apply Hup; [lia | rewrite Hloc; unfold round_nearest_even; now rewrite Hq2].
    + apply Hup; [lia | now rewrite Hloc].
  - rewrite shr_fexp_54 by lia. simpl fst. simpl snd.
    assert (Hdone : forall p : positive,
              2 ^ 52 <= Z.pos p < 2 ^ 53 ->
              Z.abs (m2 * (Z.pos p * 2) - (m2 * Z.pos q + r)) <= m2 ->
              exists (m : positive) (j : Z),
                finish s (Z.pos p) (e + 1) = S754_finite s m (e + j)
                /\ (j = 0 \/ j = 1)
                /\ 2 ^ 52 <= Z.pos m < 2 ^ 53
                /\ Z.abs (m2 * (Z.pos m * 2 ^ j) - (m2 * Z.pos q + r)) * 2 <= m2 * 2 ^ j).
    { intros p Hp Hbound. exists p, 1. rewrite finish_53 by lia.
      change (2 ^ 1) with 2. repeat split; lia. }
    destruct q as [p|p|]; [| |simpl in H54; lia].
    + (* odd quotient *)
      destruct (new_location_even_cases m2 r Hr)
        as [[Hloc Hz] | [[Hloc Hlt] | [[Hloc Heq] | [Hloc Hgt]]]];
        rewrite Hloc;
        cbn [shr_1 shr_record_of_loc loc_of_shr_record shr_m round_nearest_even orb].
      * destruct (Z.even (Z.pos p)).
        -- apply Hdone; lia.
        -- change (Z.pos p + 1) with (Z.pos (p + 1)). apply Hdone; lia.
      * change (Z.pos p + 1) with (Z.pos (p + 1)). apply Hdone; lia.
      * change (Z.pos p + 1) with (Z.pos (p + 1)). apply Hdone; lia.
      * change (Z.pos p + 1) with (Z.pos (p + 1)). apply Hdone; lia.
    + (* even quotient *)
      destruct (new_location_even_cases m2 r Hr)
        as [[Hloc Hz] | [[Hloc Hlt] | [[Hloc Heq] | [Hloc Hgt]]]];
        rewrite Hloc;
        cbn [shr_1 shr_record_of_loc loc_of_shr_record shr_m round_nearest_even orb];
        apply Hdone; lia.
Qed.

Lemma core100 (m1 : positive) (e1 : Z) :
  2 ^ 52 <= Z.pos m1 < 2 ^ 53 -> -52 <= e1 <= 0 ->
  SFdiv_core_binary prec emax (Z.pos m1) e1 (Z.pos 7036874417766400) (-46)
  = (Z.pos m1 * 2 ^ 53 / Z.pos 7036874417766400, e1 - 7,
     new_location (Z.pos 7036874417766400) (Z.pos m1 * 2 ^ 53 mod Z.pos 7036874417766400)).
Proof.
  intros Hm He. unfold SFdiv_core_binary.
  change (Zdigits2 (Z.pos m1)) with (Z.pos (digits2_pos m1)).
  rewrite (digits2_pos_eq m1 53) by exact Hm.
  replace (Zdigits2 (Z.pos 7036874417766400)) with 53 by reflexivity.
  cbv zeta.
  replace (Z.min (fexp prec emax (53 + e1 - (53 + -46))) (e1 - -46)) with (e1 - 7)
    by (unfold fexp, emin, prec, emax; lia).
  replace (e1 - -46 - (e1 - 7)) with 53 by lia.
  cbv iota. rewrite Z.shiftl_mul_pow2 by lia.
  unfold Z.div, Z.modulo.
  destruct (Z.div_eucl (Z.pos m1 * 2 ^ 53) 7036874417766400) as [q r].
  reflexivity.
Qed.

Lemma ofZ_100 : ofZ 100 = S754_finite false 7036874417766400 (-46).
Proof. reflexivity. Qed.

Lemma div100 (s : bool) (m1 : positive) (e1 : Z) :
  2 ^ 52 <= Z.pos m1 < 2 ^ 53 -> -52 <= e1 <= 0 ->
  exists (m : positive) (j : Z),
    div (S754_finite s m1 e1) (ofZ 100) = S754_finite s m (e1 - 7 + j)
    /\ (j = 0 \/ j = 1)
    /\ 2 ^ 52 <= Z.pos m < 2 ^ 53
    /\ Z.abs (100 * (Z.pos m * 2 ^ j) - Z.pos m1 * 2 ^ 7) * 2 <= 100 * 2 ^ j.
Proof.
  intros Hm He. rewrite ofZ_100. unfold div, SFdiv.
  rewrite core100 by assumption. rewrite xorb_false_r.
  set (M2 := Z.pos 7036874417766400).
  set (M := Z.pos m1 * 2 ^ 53).
  assert (HM2 : M2 = 100 * 2 ^ 46) by reflexivity.
  assert (Hdiv : M = M2 * (M / M2) + M mod M2) by (apply Z.div_mod; subst M2; lia).
  assert (Hmod : 0 <= M mod M2 < M2) by (apply Z.mod_pos_bound; subst M2; lia).
  assert (Hq : 2 ^ 52 <= M / M2 < 2 ^ 54 - 2).
  { split.
    - apply Z.div_le_lower_bound; [subst M2; lia|]. subst M M2. lia.
    - apply Z.div_lt_upper_bound; [subst M2; lia|]. subst M M2. lia. }
  destruct (M / M2) as [|q|q] eqn:Hquot; [lia| |lia].
  destruct (round_nearest s q (e1 - 7) M2 (M mod M2)) as (m & j & Hround & Hj & Hrange & Hnear);
    [lia | lia | reflexivity | exact Hmod |].
  exists m, j. split; [exact Hround|]. split; [exact Hj|]. split; [exact Hrange|].
  rewrite <- Hdiv in Hnear. subst M. rewrite HM2 in Hnear.
  destruct Hj as [-> | ->]; lia.
Qed.

(** The Number of a non-zero integer below 2^53 in magnitude: the
    integer shifted to 53 bits. *)
Lemma binary_round_int (s : bool) (a : positive) :
  Z.pos a < 2 ^ 53 ->
  exists m : positive,
    binary_round prec emax s a 0 = S754_finite s m (Z.pos (digits2_pos a) - 53)
    /\ Z.pos m = Z.pos a * 2 ^ (53 - Z.pos (digits2_pos a))
    /\ 2 ^ 52 <= Z.pos m < 2 ^ 53.
Proof.
  intros Ha.
  pose proof (digits2_pos_bounds a) as [Hlo Hhi].
  set (d := Z.pos (digits2_pos a)) in *.
  assert (Hd : 1 <= d <= 53).
  { split; [subst d; lia|].
    destruct (Z.le_gt_cases d 53) as [|Hgt]; [assumption|].
    assert (2 ^ 53 <= 2 ^ (d - 1)) by (apply Z.pow_le_mono_r; lia). lia. }
  assert (Hshift : exists m : positive,
            shl_align a 0 (fexp prec emax (d + 0)) = (m, d - 53)
            /\ Z.pos m = Z.pos a * 2 ^ (53 - d)).
  { rewrite fexp_normal by lia. unfold shl_align.
    destruct (d + 0 - 53 - 0) as [|x|x] eqn:Hx; [|lia|].
    - exists a. replace (53 - d) with 0 by lia. split; [f_equal; lia | lia].
    - exists (shift_pos x a). split; [f_equal; lia|].
      rewrite shift_pos_correct, Z.pow_pos_fold.
      replace (Z.pos x) with (53 - d) by lia. lia. }
  destruct Hshift as (m & Halign & Hval).
  assert (Hm : 2 ^ 52 <= Z.pos m < 2 ^ 53).
  { rewrite Hval.
    assert (H52 : 2 ^ 52 = 2 ^ (d - 1) * 2 ^ (53 - d)).
    { rewrite <- Z.pow_add_r by lia. f_equal. lia. }
    assert (H53 : 2 ^ 53 = 2 ^ d * 2 ^ (53 - d)).
    { rewrite <- Z.pow_add_r by lia. f_equal. lia. }
    assert (0 < 2 ^ (53 - d)) by (apply Z.pow_pos_nonneg; lia).
    rewrite H52, H53. split.
    - apply Z.mul_le_mono_nonneg_r; lia.
    - apply Z.mul_lt_mono_pos_r; lia. }
  exists m. split; [|split; assumption].
  unfold binary_round. fold d. rewrite Halign.
  rewrite binary_round_aux_finish, shr_fexp_53 by lia.
  simpl fst. simpl snd. cbn [shr_record_of_loc loc_of_shr_record shr_m round_nearest_even].
  apply finish_53; lia.
Qed.

(** Dividing the Number of an integer [a], 0 < a < 2^52, by 100: the
    quotient [m * 2^-k] is within half a hundredth of a unit in the last
    place, which is at most 2^-7. *)
Lemma div100_int (s : bool) (a : positive) :
  Z.pos a < 2 ^ 52 ->
  exists (m : positive) (k : Z),
    div (binary_round prec emax s a 0) (ofZ 100) = S754_finite s m (- k)
    /\ 7 <= k <= 60
    /\ 2 ^ 52 <= Z.pos m < 2 ^ 53
    /\ Z.abs (100 * Z.pos m - Z.pos a * 2 ^ k) <= 50.
Proof.
  intros Ha.
  destruct (binary_round_int s a) as (m1 & -> & Hval & Hm1); [lia|].
  pose proof (digits2_pos_bounds a) as [Hlo Hhi].
  set (d := Z.pos (digits2_pos a)) in *.
  assert (Hd : 1 <= d <= 52).
  { split; [subst d; lia|].
    destruct (Z.le_gt_cases d 52) as [|Hgt]; [assumption|].
    assert (2 ^ 52 <= 2 ^ (d - 1)) by (apply Z.pow_le_mono_r; lia). lia. }
  destruct (div100 s m1 (d - 53)) as (m & j & Hdiv & Hj & Hm & Hnear); [assumption|lia|].
  exists m, (60 - d - j).
  split; [rewrite Hdiv; f_equal; lia|].
  split; [lia|]. split; [assumption|].
  rewrite Hval in Hnear.
  assert (Hpow : 2 ^ (53 - d) * 2 ^ 7 = 2 ^ (60 - d - j) * 2 ^ j).
  { rewrite <- !Z.pow_add_r by lia. f_equal. lia. }
  assert (Hjpos : 0 < 2 ^ j) by (apply Z.pow_pos_nonneg; lia).
  set (K := 2 ^ (60 - d - j)) in *. set (J := 2 ^ j) in *.
  replace (Z.pos a * 2 ^ (53 - d) * 2 ^ 7) with (Z.pos a * K * J) in Hnear by
    (rewrite <- !Z.mul_assoc; now rewrite Hpow).
  destruct Hj as [Hj0 | Hj1].
  - assert (J = 1) by (subst J; rewrite Hj0; reflexivity). nia.
  - assert (J = 2) by (subst J; rewrite Hj1; reflexivity). nia.
Qed.

Lemma pow2_ge_128 (k : Z) : 7 <= k -> 128 <= 2 ^ k.
Proof. intros Hk. change 128 with (2 ^ 7). apply Z.pow_le_mono_r; lia. Qed.

Lemma nearestScaled_two (m : positive) (k a : Z) :
  7 <= k -> Z.abs (100 * Z.pos m - a * 2 ^ k) <= 50 ->
  nearestScaled m (- k) 2 = a.
Proof.
  intros Hk Hnear. unfold nearestScaled.
  destruct (Z.leb_spec 0 (- k)) as [|_]; [lia|].
  rewrite Z.opp_involutive. replace (1 - - k) with (Z.succ k) by lia.
  rewrite Z.pow_succ_r by lia. change (10 ^ 2) with 100.
  pose proof (pow2_ge_128 k Hk).
  symmetry. apply (Z.div_unique _ _ _ (2 * Z.pos m * 100 + 2 ^ k - a * (2 * 2 ^ k))); lia.
Qed.

Lemma nearestScaled_zero (m : positive) (k b : Z) :
  7 <= k -> Z.abs (100 * Z.pos m - 100 * b * 2 ^ k) <= 50 ->
  nearestScaled m (- k) 0 = b.
Proof.
  intros Hk Hnear. unfold nearestScaled.
  destruct (Z.leb_spec 0 (- k)) as [|_]; [lia|].
  rewrite Z.opp_involutive. replace (1 - - k) with (Z.succ k) by lia.
  rewrite Z.pow_succ_r by lia. change (10 ^ 0) with 1.
  pose proof (pow2_ge_128 k Hk).
  assert (Hm : Z.pos m = b * 2 ^ k) by lia.
  symmetry. apply (Z.div_unique _ _ _ (2 ^ k)); lia.
Qed.

Lemma isWhole_div100 (s : bool) (m : positive) (k a : Z) :
  7 <= k -> Z.abs (100 * Z.pos m - a * 2 ^ k) <= 50 ->
  isWhole (S754_finite s m (- k)) = (a mod 100 =? 0).
Proof.
  intros Hk Hnear. unfold isWhole.
  destruct (Z.leb_spec 0 (- k)) as [|_]; [lia|].
  rewrite Z.opp_involutive.
  pose proof (pow2_ge_128 k Hk) as HK.
  destruct (Z.eqb_spec (a mod 100) 0) as [Hdiv|Hndiv].
  - apply Z.eqb_eq.
    apply Z.mod_divide in Hdiv; [|lia]. destruct Hdiv as [b ->].
    assert (Hm : Z.pos m = b * 2 ^ k) by lia.
    rewrite Hm. apply Z.mod_mul. lia.
  - apply Z.eqb_neq. intros Hmod. apply Hndiv.
    apply Z.mod_divide in Hmod; [|lia]. destruct Hmod as [t Ht].
    rewrite Ht in Hnear.
    assert (a = 100 * t) by nia.
    subst a. rewrite Z.mul_comm. apply Z.mod_mul. lia.
Qed.

Lemma atLeast1e21_small (m : positive) (k : Z) :
  0 < k -> Z.pos m < 2 ^ 53 -> atLeast1e21 m (- k) = false.
Proof.
  intros Hk Hm. unfold atLeast1e21.
  destruct (Z.leb_spec 0 (- k)) as [|_]; [lia|].
  apply Z.leb_gt. rewrite Z.opp_involutive.
  assert (0 < 2 ^ k) by (apply Z.pow_pos_nonneg; lia).
  assert (2 ^ 53 < 10 ^ 21) by reflexivity.
  nia.
Qed.

(** What [toFixed] shows of the quotient of a non-zero integer by 100. *)
Lemma toFixed_div100 (s : bool) (a : positive) :
  Z.pos a < 2 ^ 52 ->
  let x := div (binary_round prec emax s a 0) (ofZ 100) in
  toFixed x 2 = Some ((if s then "-" else "") +:+ twoDecimals (N.pos a))
  /\ isWhole x = (Z.pos a mod 100 =? 0)
  /\ (Z.pos a mod 100 = 0 ->
      toFixed x 0 = Some ((if s then "-" else "") +:+ natToString 10 (N.pos a / 100))).
Proof.
  intros Ha.
  destruct (div100_int s a Ha) as (m & k & Hdiv & Hk & Hm & Hnear).
  cbv zeta. rewrite Hdiv. split; [|split].
  - unfold toFixed. rewrite atLeast1e21_small by lia.
    change (Z.of_nat 2) with 2.
    rewrite (nearestScaled_two m k (Z.pos a)) by (lia || assumption).
    change (Z.pos a) with (Z.of_N (N.pos a)). now rewrite pointed_two.
  - apply isWhole_div100; [lia | assumption].
  - intros Hdivides. unfold toFixed. rewrite atLeast1e21_small by lia.
    apply Z.mod_divide in Hdivides; [|lia]. destruct Hdivides as [b Hb].
    change (Z.of_nat 0) with 0.
    rewrite (nearestScaled_zero m k b); [|lia|].
    2: { rewrite Hb in Hnear. now replace (100 * b * 2 ^ k) with (b * 100 * 2 ^ k) by lia. }
    unfold pointed. do 3 f_equal.
    apply N2Z.inj. rewrite N2Z.inj_abs_N, N2Z.inj_div.
    change (Z.of_N (N.pos a)) with (Z.pos a). change (Z.of_N 100) with 100.
    rewrite Hb, Z.div_mul by lia. lia.
Qed.

(** *** The filters on integer cents *)

Lemma money_of_nonzero (s : bool) (a : positive) :
  Z.pos a < 2 ^ 52 ->
  let cents := binary_round prec emax s a 0 in
  let sign := if s then "-" else "" in
  Filters.money cents = Some ("$" +:+ sign +:+ twoDecimals (N.pos a))
  /\ Filters.money_without_currency cents = Some ("$" +:+ sign +:+ twoDecimals (N.pos a))
  /\ Filters.money_with_currency cents
     = Some ("$" +:+ (sign +:+ twoDecimals (N.pos a)) +:+ " USD")
  /\ Filters.money_without_trailing_zeros cents
     = Some ("$" +:+ sign +:+
             (if Z.pos a mod 100 =? 0 then natToString 10 (N.pos a / 100)
              else twoDecimals (N.pos a))).
Proof.
  intros Ha. cbv zeta.
  destruct (toFixed_div100 s a Ha) as (Hfixed & Hwhole & Hzero).
  unfold Filters.money, Filters.money_without_currency, Filters.money_with_currency,
    Filters.money_without_trailing_zeros.
  rewrite Hfixed, Hwhole.
  repeat split.
  destruct (Z.eqb_spec (Z.pos a mod 100) 0) as [Hdiv|Hndiv].
  - now rewrite (Hzero Hdiv).
  - reflexivity.
Qed.

(** C8 (as amended).  For every integer number of cents [c] with
    [|c| < 2^52], [money] and [money_without_currency] return the dollar
    sign followed by [c / 100] with exactly two decimal digits,
    [money_with_currency] appends [" USD"] to that, and
    [money_without_trailing_zeros] shows no decimal digits when [c] is a
    multiple of 100 and two otherwise. *)
Theorem money_filters_exact (c : Z) :
  Z.abs c < 2 ^ 52 ->
  Filters.money (ofZ c) = Some ("$" +:+ centsText c)
  /\ Filters.money_without_currency (ofZ c) = Some ("$" +:+ centsText c)
  /\ Filters.money_with_currency (ofZ c) = Some ("$" +:+ centsText c +:+ " USD")
  /\ Filters.money_without_trailing_zeros (ofZ c)
     = Some ("$" +:+ (if c mod 100 =? 0 then wholeText c else centsText c)).
Proof.
  intros Hc. destruct c as [|a|a].
  - repeat split.
  - destruct (money_of_nonzero false a) as (H1 & H2 & H3 & H4); [lia|].
    change (ofZ (Z.pos a)) with (binary_round prec emax false a 0).
    rewrite H1, H2, H3, H4. repeat split.
  - destruct (money_of_nonzero true a) as (H1 & H2 & H3 & H4); [lia|].
    change (ofZ (Z.neg a)) with (binary_round prec emax true a 0).
    rewrite H1, H2, H3, H4. repeat split.
    unfold wholeText, centsText, signText. simpl Z.abs_N.
    change (Z.neg a <? 0) with true. cbv iota.
    assert (Hsame : (Z.neg a mod 100 =? 0) = (Z.pos a mod 100 =? 0)).
    { change (Z.neg a) with (- Z.pos a).
      destruct (Z.eqb_spec (Z.pos a mod 100) 0) as [Hz|Hnz].
      - apply Z.eqb_eq. now apply Z.mod_opp_l_z.
      - apply Z.eqb_neq. intros Hz. apply Hnz.
        apply Z.mod_opp_l_z in Hz; [|lia]. now rewrite Z.opp_involutive in Hz. }
    rewrite Hsame. now destruct (Z.pos a mod 100 =? 0).
Qed.

(** The values of the specification: 299, 300 and 350 cents. *)
Lemma money_filters_exact_witness :
  Filters.money (ofZ 299) = Some "$2.99"
  /\ Filters.money (ofZ 300) = Some "$3.00"
  /\ Filters.money_with_currency (ofZ 299) = Some "$2.99 USD"
  /\ Filters.money_without_trailing_zeros (ofZ 300) = Some "$3"
  /\ Filters.money_without_trailing_zeros (ofZ 350) = Some "$3.50".
Proof.
  split; [|split; [|split; [|split]]].
  - apply (money_filters_exact 299). reflexivity.
  - apply (money_filters_exact 300). reflexivity.
  - apply (proj1 (proj2 (proj2 (money_filters_exact 299 eq_refl)))).
  - apply (proj2 (proj2 (proj2 (money_filters_exact 300 eq_refl)))).
  - apply (proj2 (proj2 (proj2 (money_filters_exact 350 eq_refl)))).
Defined.

(** C8 (as stated) fails for a large amount: 8000000000000099 cents is a
    Number, its hundredth is rounded to a binary64 value that lies
    nearer to [.98] than to [.99]. *)
Lemma money_large_counterexample :
  Filters.money (ofZ 8000000000000099) = Some "$80000000000000.98"
  /\ centsText 8000000000000099 = "80000000000000.99".
Proof. vm_compute. split; reflexivity. Qed.

(* ================================================================== *)
(** * Further properties *)
(* ================================================================== *)

(** ** [escapeHtml] *)

Lemma replaceAll_app (c : ascii) (r a b : string) :
  Engine.replaceAll c r (a +:+ b) = Engine.replaceAll c r a +:+ Engine.replaceAll c r b.
Proof.
  induction a as [|x a IH]; [reflexivity|].
  rewrite append_cons. cbn [Engine.replaceAll]. now rewrite IH, append_assoc.
Qed.

Lemma escapeHtml_app (a b : string) :
  Engine.escapeHtml (a +:+ b) = Engine.escapeHtml a +:+ Engine.escapeHtml b.
Proof. unfold Engine.escapeHtml. cbv zeta. now rewrite !replaceAll_app. Qed.

Lemma escapeHtml_one (c : ascii) : Engine.escapeHtml (String c "") = escapeChar c.
Proof. destruct c as [[] [] [] [] [] [] [] []]; reflexivity. Qed.

(** The five passes amount to one pass that replaces each code unit by
    its entity. *)
Lemma escapeHtml_cons (c : ascii) (s : string) :
  Engine.escapeHtml (String c s) = escapeChar c +:+ Engine.escapeHtml s.
Proof.
  change (String c s) with (String c "" +:+ s).
  now rewrite escapeHtml_app, escapeHtml_one.
Qed.

Lemma escapeHtml_nil : Engine.escapeHtml "" = "".
Proof. reflexivity. Qed.

Lemma occurs_app (c : ascii) (a b : string) :
  occurs c (a +:+ b) = occurs c a || occurs c b.
Proof.
  induction a as [|x a IH]; [reflexivity|].
  rewrite append_cons. simpl. now rewrite IH, orb_assoc.
Qed.

Lemma escapeChar_clean (c : ascii) :
  occurs "<" (escapeChar c) = false /\ occurs ">" (escapeChar c) = false
  /\ occurs dquote (escapeChar c) = false /\ occurs "'" (escapeChar c) = false.
Proof. destruct c as [[] [] [] [] [] [] [] []]; repeat split; reflexivity. Qed.

Lemma escapeHtml_clean (str : string) :
  occurs "<" (Engine.escapeHtml str) = false
  /\ occurs ">" (Engine.escapeHtml str) = false
  /\ occurs dquote (Engine.escapeHtml str) = false
  /\ occurs "'" (Engine.escapeHtml str) = false.
Proof.
  induction str as [|c s (IH1 & IH2 & IH3 & IH4)]; [repeat split; reflexivity|].
  rewrite escapeHtml_cons, !occurs_app, IH1, IH2, IH3, IH4.
  destruct (escapeChar_clean c) as (-> & -> & -> & ->). repeat split; reflexivity.
Qed.

(** X1.  Whatever the text, the output of [escapeHtml] holds no angle
    bracket, no double quote and no single quote: it cannot close the
    attribute or the element it is written into. *)
Theorem escapeHtml_output_is_inert (str : string) :
  occurs "<" (Engine.escapeHtml str) = false
  /\ occurs ">" (Engine.escapeHtml str) = false
  /\ occurs dquote (Engine.escapeHtml str) = false
  /\ occurs "'" (Engine.escapeHtml str) = false.
Proof. apply escapeHtml_clean. Qed.

(** X2.  The five replacements of [escapeHtml], made one after the other
    on the whole text, amount to one pass that replaces each code unit by
    its entity: the ampersands of the entities written by a replacement
    are not escaped again by another.  Hence escaping two texts and
    joining the results is escaping the joined text. *)
Theorem escapeHtml_is_one_pass (a b : string) :
  Engine.escapeHtml a = escapeOnce a
  /\ Engine.escapeHtml (a +:+ b) = Engine.escapeHtml a +:+ Engine.escapeHtml b.
Proof.
  split; [|apply escapeHtml_app].
  induction a as [|c a IH]; [reflexivity|].
  rewrite escapeHtml_cons, IH. reflexivity.
Qed.

Lemma escapeChar_inj (c d : ascii) (s t : string) :
  escapeChar c +:+ s = escapeChar d +:+ t -> c = d /\ s = t.
Proof.
  unfold escapeChar.
  destruct (Ascii.eqb_spec c "&") as [->|Hc1];
    [|destruct (Ascii.eqb_spec c "<") as [->|Hc2];
      [|destruct (Ascii.eqb_spec c ">") as [->|Hc3];
        [|destruct (Ascii.eqb_spec c dquote) as [->|Hc4];
          [|destruct (Ascii.eqb_spec c "'") as [->|Hc5]]]]];
  (destruct (Ascii.eqb_spec d "&") as [->|Hd1];
    [|destruct (Ascii.eqb_spec d "<") as [->|Hd2];
      [|destruct (Ascii.eqb_spec d ">") as [->|Hd3];
        [|destruct (Ascii.eqb_spec d dquote) as [->|Hd4];
          [|destruct (Ascii.eqb_spec d "'") as [->|Hd5]]]]]);
  intros H; rewrite ?append_cons, ?append_nil_l in H; try discriminate H;
  try (injection H as H; subst; split; congruence);
  try (injection H as H H'; subst; congruence);
  try (injection H as H H'; subst; split; congruence).
Qed.

(** X3.  [escapeHtml] loses nothing: two texts with the same escaped form
    are the same text. *)
Theorem escapeHtml_injective (s t : string) :
  Engine.escapeHtml s = Engine.escapeHtml t -> s = t.
Proof.
  revert t. induction s as [|c s IH]; intros [|d t] H.
  - reflexivity.
  - rewrite escapeHtml_cons, escapeHtml_nil in H.
    destruct d as [[] [] [] [] [] [] [] []]; discriminate H.
  - rewrite escapeHtml_cons, escapeHtml_nil in H.
    destruct c as [[] [] [] [] [] [] [] []]; discriminate H.
  - rewrite !escapeHtml_cons in H. apply escapeChar_inj in H.
    destruct H as [-> H]. f_equal. now apply IH.
Qed.

Lemma escapeHtml_injective_witness :
  Engine.escapeHtml "a<b" = "a&lt;b" /\ "a<b" = "a<b".
Proof.
  split; [reflexivity|].
  apply (escapeHtml_injective "a<b" "a<b"). reflexivity.
Defined.

Lemma escapeChar_length (c : ascii) :
  (String.length (escapeChar c) = 1 /\ isHtmlSpecial c = false /\ escapeChar c = String c "")%nat
  \/ (1 < String.length (escapeChar c) /\ isHtmlSpecial c = true)%nat.
Proof. destruct c as [[] [] [] [] [] [] [] []]; (left; repeat split; reflexivity) || (right; split; [simpl; lia | reflexivity]). Qed.

Lemma escapeHtml_length (s : string) :
  (String.length s <= String.length (Engine.escapeHtml s))%nat.
Proof.
  induction s as [|c s IH]; [simpl; lia|].
  rewrite escapeHtml_cons, length_append. simpl.
  destruct (escapeChar_length c) as [(H & _)|(H & _)]; lia.
Qed.

(** X4.  [escapeHtml] returns its argument unchanged exactly when the
    argument holds none of the five characters it replaces; every other
    text grows, so escaping an escaped text a second time changes it
    again whenever the first pass changed it (the entities start with
    an ampersand). *)
Theorem escapeHtml_fixed_points (s : string) :
  Engine.escapeHtml s = s <-> allChars (fun c => negb (isHtmlSpecial c)) s = true.
Proof.
  induction s as [|c s IH]; [split; reflexivity|].
  rewrite escapeHtml_cons. cbn [allChars].
  destruct (escapeChar_length c) as [(Hlen & Hspecial & Heq)|(Hlen & Hspecial)].
  - rewrite Heq, Hspecial. cbn [negb andb]. rewrite <- IH. rewrite append_cons, append_nil_l.
    split; [now intros [= ->] | now intros ->].
  - rewrite Hspecial. cbn [negb andb]. split; [|discriminate].
    intros H. apply (f_equal String.length) in H.
    rewrite length_append in H. simpl in H.
    pose proof (escapeHtml_length s). lia.
Qed.

(** ** The [handle] filter *)

Lemma replaceRuns_singleHyphens (s : string) (inRun : bool) :
  singleHyphens (replaceRuns s inRun) inRun = true.
Proof.
  revert inRun. induction s as [|c s IH]; intros inRun; [reflexivity|].
  cbn [replaceRuns]. destruct (isLowerAlnum c) eqn:Hc.
  - cbn [singleHyphens]. rewrite Hc. apply IH.
  - destruct inRun; [apply IH|].
    cbn [singleHyphens]. change (isLowerAlnum "-") with false. cbn. apply IH.
Qed.

Lemma singleHyphens_after_word (s : string) :
  singleHyphens s true = true -> singleHyphens s false = true.
Proof.
  destruct s as [|c s]; [reflexivity|]. cbn [singleHyphens].
  destruct (isLowerAlnum c); [auto|].
  rewrite andb_false_r. discriminate.
Qed.

Lemma dropLeadingHyphen_singleHyphens (s : string) :
  singleHyphens s false = true -> singleHyphens (Engine.dropLeadingHyphen s) true = true.
Proof.
  destruct s as [|c s]; [reflexivity|]. cbn [singleHyphens Engine.dropLeadingHyphen].
  destruct (isLowerAlnum c) eqn:Hc.
  - destruct (Ascii.eqb_spec c "-") as [->|_]; [discriminate Hc|].
    intros H. cbn [singleHyphens]. now rewrite Hc.
  - destruct (Ascii.eqb_spec c "-") as [->|_]; [|discriminate].
    cbn. auto.
Qed.

Lemma dropTrailingHyphen_nonempty (s : string) :
  singleHyphens s true = true -> s <> "" -> Engine.dropTrailingHyphen s <> "".
Proof.
  destruct s as [|c s]; [congruence|]. intros H _.
  cbn [singleHyphens] in H. cbn [Engine.dropTrailingHyphen].
  destruct (isLowerAlnum c) eqn:Hc.
  - destruct (Ascii.eqb_spec c "-") as [->|_]; [discriminate Hc|]. discriminate.
  - rewrite andb_false_r in H. discriminate H.
Qed.

Lemma dropTrailingHyphen_hyphenated (s : string) (p : bool) :
  singleHyphens s p = true ->
  hyphenated (Engine.dropTrailingHyphen s) p = true
  \/ (p = true /\ Engine.dropTrailingHyphen s = "").
Proof.
  revert p. induction s as [|c s IH]; intros p H.
  - destruct p; [right; now split | left; reflexivity].
  - cbn [singleHyphens] in H. cbn [Engine.dropTrailingHyphen].
    destruct (isLowerAlnum c) eqn:Hc.
    + destruct (Ascii.eqb_spec c "-") as [->|_]; [discriminate Hc|].
      left. cbn [andb hyphenated]. rewrite Hc.
      destruct (IH false H) as [Hok|[Hp _]]; [exact Hok | discriminate Hp].
    + apply andb_true_iff in H. destruct H as [H Hrest].
      apply andb_true_iff in H. destruct H as [Hdash Hp].
      apply Ascii.eqb_eq in Hdash. subst c.
      apply negb_true_iff in Hp. subst p. left.
      rewrite Ascii.eqb_refl.
      destruct (String.eqb_spec s "") as [->|Hne]; [reflexivity|].
      cbn [andb hyphenated]. rewrite Hc, Ascii.eqb_refl. cbn [andb negb].
      destruct (IH true Hrest) as [Hok|[_ Hempty]]; [exact Hok|].
      now apply dropTrailingHyphen_nonempty in Hempty.
Qed.

Lemma handle_isHandle (str : option string) : isHandle (Engine.handle str) = true.
Proof.
  unfold Engine.handle, Engine.trimHyphens, isHandle.
  set (r := replaceRuns _ false).
  pose proof (replaceRuns_singleHyphens (toLowerCase (Engine.orText str "")) false) as Hr.
  fold r in Hr. apply dropLeadingHyphen_singleHyphens in Hr.
  destruct (dropTrailingHyphen_hyphenated _ _ Hr) as [Hok|[_ ->]].
  - rewrite Hok. apply orb_true_r.
  - reflexivity.
Qed.

(** X5.  Whatever is piped in, the [handle] filter returns a handle: the
    empty text, or words of lower-case letters and digits joined by
    single hyphens, with no hyphen at the start or at the end;
    [handleize] returns the same. *)
Theorem handle_returns_a_handle (str : option string) :
  isHandle (Engine.handle str) = true
  /\ Engine.handleize str = Engine.handle str.
Proof. split; [apply handle_isHandle | reflexivity]. Qed.

Lemma lowerChar_alnum (c : ascii) : isLowerAlnum c = true -> lowerChar c = c.
Proof. destruct c as [[] [] [] [] [] [] [] []]; try discriminate; reflexivity. Qed.

Lemma hyphenated_fixed (s : string) (p : bool) :
  hyphenated s p = true ->
  toLowerCase s = s
  /\ (forall inRun, (inRun = true -> p = true) -> replaceRuns s inRun = s)
  /\ Engine.dropTrailingHyphen s = s
  /\ (p = true -> Engine.dropLeadingHyphen s = s).
Proof.
  revert p. induction s as [|c s IH]; intros p H; [repeat split; reflexivity|].
  cbn [hyphenated] in H. destruct (isLowerAlnum c) eqn:Hc.
  - destruct (IH false H) as (Hlow & Hruns & Htrail & _).
    assert (Hnot : Ascii.eqb c "-" = false).
    { destruct (Ascii.eqb_spec c "-") as [->|_]; [discriminate Hc | reflexivity]. }
    split; [|split; [|split]].
    + unfold toLowerCase in *. cbn [mapChars]. now rewrite lowerChar_alnum, Hlow.
    + intros inRun _. cbn [replaceRuns]. rewrite Hc. f_equal. now apply Hruns.
    + cbn [Engine.dropTrailingHyphen]. rewrite Hnot. cbn [andb]. now rewrite Htrail.
    + intros _. cbn [Engine.dropLeadingHyphen]. now rewrite Hnot.
  - apply andb_true_iff in H. destruct H as [H Hrest].
    apply andb_true_iff in H. destruct H as [Hdash Hp].
    apply Ascii.eqb_eq in Hdash. subst c.
    apply negb_true_iff in Hp. subst p.
    destruct (IH true Hrest) as (Hlow & Hruns & Htrail & _).
    split; [|split; [|split]].
    + unfold toLowerCase in *. cbn [mapChars]. now rewrite Hlow.
    + intros inRun Hrun. destruct inRun; [now discriminate Hrun|].
      cbn [replaceRuns]. rewrite Hc. f_equal. now apply Hruns.
    + cbn [Engine.dropTrailingHyphen].
      destruct (String.eqb_spec s "") as [->|_]; [discriminate Hrest|].
      rewrite andb_false_r. now rewrite Htrail.
    + discriminate.
Qed.

(** X6.  The handles are exactly the texts the [handle] filter leaves
    unchanged; in particular applying the filter to its own output
    changes nothing. *)
Theorem handle_fixed_points (s : string) (str : option string) :
  (Engine.handle (Some s) = s <-> isHandle s = true)
  /\ Engine.handle (Some (Engine.handle str)) = Engine.handle str.
Proof.
  assert (Hfix : forall t, isHandle t = true -> Engine.handle (Some t) = t).
  { intros t Ht. unfold isHandle in Ht. apply orb_true_iff in Ht.
    destruct Ht as [Ht|Ht]; [apply String.eqb_eq in Ht; now subst t|].
    destruct (hyphenated_fixed t true Ht) as (Hlow & Hruns & Htrail & Hlead).
    unfold Engine.handle, Engine.trimHyphens, Engine.orText, truthy.
    destruct (String.eqb_spec t "") as [->|_]; [reflexivity|].
    cbn [negb]. change (default "" (Some t)) with t.
    rewrite Hlow, (Hruns false) by discriminate.
    now rewrite (Hlead eq_refl), Htrail. }
  split; [split|].
  - intros <-. apply handle_isHandle.
  - apply Hfix.
  - apply Hfix, handle_isHandle.
Qed.


(** ** Tags *)

Lemma collectUntil_spec (endName : string) (tokens : list Engine.Token) :
  Forall (fun token => Engine.isNamed token endName = false)
         (Engine.collectUntil endName tokens).1
  /\ ((exists endToken,
         Engine.isNamed endToken endName = true
         /\ tokens = ((Engine.collectUntil endName tokens).1
                      ++ endToken :: (Engine.collectUntil endName tokens).2)%list)
      \/ (Forall (fun token => Engine.isNamed token endName = false) tokens
          /\ Engine.collectUntil endName tokens = (tokens, []))).
Proof.
  induction tokens as [|token rest (IHc & IH)].
  - split; [constructor|]. right. split; [constructor | reflexivity].
  - cbn [Engine.collectUntil]. destruct (Engine.isNamed token endName) eqn:Hname.
    + split; [constructor|]. left. exists token. split; [exact Hname | reflexivity].
    + destruct (Engine.collectUntil endName rest) as [content remain] eqn:Hrest.
      cbn [fst snd] in *. split; [now constructor|].
      destruct IH as [(endToken & Hend & ->)|(Hall & [= -> ->])].
      * left. exists endToken. split; [exact Hend | reflexivity].
      * right. split; [now constructor | reflexivity].
Qed.

(** X7.  The block tags ([style], [javascript], [form], [paginate],
    [schema]) take as their content the tokens up to the first token
    named as their end tag, and consume that token.  When no such token
    follows, they take every token to the end of the template, and
    nothing is raised for the unclosed tag; the first end tag closes the
    block, whatever opening tags its content holds. *)
Theorem block_tag_content_ends_at_first_end_tag (endName : string)
    (tokens : list Engine.Token) :
  let content := (Engine.collectUntil endName tokens).1 in
  let remain := (Engine.collectUntil endName tokens).2 in
  Forall (fun token => Engine.isNamed token endName = false) content
  /\ ((exists endToken,
         Engine.isNamed endToken endName = true
         /\ tokens = (content ++ endToken :: remain)%list)
      \/ (Forall (fun token => Engine.isNamed token endName = false) tokens
          /\ content = tokens /\ remain = [])).
Proof.
  cbv zeta. destruct (collectUntil_spec endName tokens) as [Hcontent Hsplit].
  split; [exact Hcontent|].
  destruct Hsplit as [Hend|[Hall Heq]]; [now left|].
  right. rewrite Heq. repeat split. exact Hall.
Qed.

(** ** Names read from the arguments of a tag *)

Lemma occurs_removeQuotes (c : ascii) (s : string) :
  occurs c (Engine.removeQuotes s)
  = occurs c s && negb (Ascii.eqb c "'" || Ascii.eqb c dquote).
Proof.
  induction s as [|x s IH]; [reflexivity|].
  cbn [Engine.removeQuotes occurs].
  destruct (Ascii.eqb_spec x "'") as [->|Hx1].
  - cbn [orb]. rewrite IH. rewrite (Ascii.eqb_sym "'" c).
    destruct (Ascii.eqb c "'"); cbn; [now rewrite andb_false_r | reflexivity].
  - destruct (Ascii.eqb_spec x dquote) as [->|Hx2].
    + cbn [orb]. rewrite IH. rewrite (Ascii.eqb_sym dquote c).
      destruct (Ascii.eqb c dquote); cbn;
        [now rewrite orb_true_r, !andb_false_r | reflexivity].
    + cbn [orb occurs]. rewrite IH.
      destruct (Ascii.eqb_spec x c) as [->|_]; [|reflexivity].
      apply Ascii.eqb_neq in Hx1, Hx2. rewrite Hx1, Hx2. reflexivity.
Qed.

Lemma occurs_beforeComma (c : ascii) (s : string) :
  occurs c s = false -> occurs c (Engine.beforeComma s) = false.
Proof.
  induction s as [|x s IH]; [reflexivity|].
  cbn [occurs Engine.beforeComma]. intros H. apply orb_false_iff in H.
  destruct H as [Hx Hs].
  destruct (Ascii.eqb x ","); [reflexivity|].
  cbn [occurs]. now rewrite Hx, IH.
Qed.

Lemma beforeComma_no_comma (s : string) : occurs "," (Engine.beforeComma s) = false.
Proof.
  induction s as [|x s IH]; [reflexivity|].
  cbn [Engine.beforeComma]. destruct (Ascii.eqb x ",") eqn:Hx; [reflexivity|].
  cbn [occurs]. now rewrite Hx, IH.
Qed.

Lemma occurs_trimStart (c : ascii) (s : string) :
  occurs c s = false -> occurs c (Engine.trimStart s) = false.
Proof.
  induction s as [|x s IH]; [reflexivity|].
  cbn [Engine.trimStart]. destruct (Engine.isWhiteSpace x); [|auto].
  cbn [occurs]. intros H. apply orb_false_iff in H. now apply IH.
Qed.

Lemma occurs_trimEnd (c : ascii) (s : string) :
  occurs c s = false -> occurs c (Engine.trimEnd s) = false.
Proof.
  induction s as [|x s IH]; [reflexivity|].
  cbn [Engine.trimEnd]. destruct (Engine.allWhiteSpace (String x s)); [reflexivity|].
  cbn [occurs]. intros H. apply orb_false_iff in H. destruct H as [-> H]. now apply IH.
Qed.

Lemma occurs_trim (c : ascii) (s : string) :
  occurs c s = false -> occurs c (Engine.trim s) = false.
Proof. intros H. unfold Engine.trim. now apply occurs_trimEnd, occurs_trimStart. Qed.

(** X8.  The name that [{% render %}], [{% section %}] and
    [{% sections %}] keep from their arguments holds no quote, and the
    form type that [{% form %}] keeps holds no quote and no comma:
    whatever the arguments of the tag, the value written between the
    double quotes of [data-form-type] cannot end that attribute. *)
Theorem tag_names_hold_no_quote (args : string) :
  occurs dquote (Engine.parseName args) = false
  /\ occurs "'" (Engine.parseName args) = false
  /\ occurs dquote (Engine.parseFormType args) = false
  /\ occurs "'" (Engine.parseFormType args) = false
  /\ occurs "," (Engine.parseFormType args) = false.
Proof.
  assert (Hd : occurs dquote (Engine.removeQuotes args) = false).
  { rewrite occurs_removeQuotes. apply andb_false_r. }
  assert (Hs : occurs "'" (Engine.removeQuotes args) = false).
  { rewrite occurs_removeQuotes. apply andb_false_r. }
  unfold Engine.parseName, Engine.parseFormType.
  repeat split.
  - now apply occurs_trim.
  - now apply occurs_trim.
  - now apply occurs_trim, occurs_beforeComma.
  - now apply occurs_trim, occurs_beforeComma.
  - apply occurs_trim, beforeComma_no_comma.
Qed.

(** ** The characters of the URLs *)

Lemma allChars_app (p : ascii -> bool) (a b : string) :
  allChars p (a +:+ b) = allChars p a && allChars p b.
Proof.
  induction a as [|x a IH]; [reflexivity|].
  rewrite append_cons. cbn [allChars]. now rewrite IH, andb_assoc.
Qed.

Lemma allChars_weaken (p q : ascii -> bool) (s : string) :
  (forall c, p c = true -> q c = true) -> allChars p s = true -> allChars q s = true.
Proof.
  intros Hpq. induction s as [|x s IH]; [reflexivity|].
  cbn [allChars]. intros H. apply andb_true_iff in H. destruct H as [Hx Hs].
  now rewrite (Hpq x Hx), IH.
Qed.

Lemma below_cases (bound : nat) (p : N -> bool) :
  forallb p (map N.of_nat (seq 0 bound)) = true ->
  forall d, (d < N.of_nat bound)%N -> p d = true.
Proof.
  intros Hall d Hd. rewrite forallb_forall in Hall. apply Hall.
  rewrite <- (N2Nat.id d). apply in_map, in_seq. lia.
Qed.

(** Every code unit of [natToString radix n] is a digit of that radix. *)
Lemma natToString_chars (p : ascii -> bool) (radix n : N) :
  (2 <= radix)%N ->
  (forall d, (d < radix)%N -> p (digitChar d) = true) ->
  allChars p (natToString radix n) = true.
Proof.
  intros Hr Hp. induction n as [n IH] using (well_founded_induction N.lt_wf_0).
  destruct (N.lt_ge_cases n radix) as [Hlt|Hge].
  - rewrite natToString_small by assumption. cbn [allChars].
    now rewrite Hp.
  - rewrite natToString_step by assumption. rewrite allChars_app. cbn [allChars].
    rewrite IH, Hp; [reflexivity | | ].
    + apply N.mod_lt. lia.
    + apply N.div_lt; lia.
Qed.

Lemma natToString_length (radix : N) (k : nat) (n : N) :
  (2 <= radix)%N -> (n < radix ^ N.of_nat (S k))%N ->
  (String.length (natToString radix n) <= S k)%nat.
Proof.
  intros Hr. revert n. induction k as [|k IH]; intros n Hn.
  - rewrite natToString_small; [simpl; lia | exact Hr |].
    change (N.of_nat 1) with 1%N in Hn. now rewrite N.pow_1_r in Hn.
  - destruct (N.lt_ge_cases n radix) as [Hlt|Hge].
    + rewrite natToString_small by assumption. simpl. lia.
    + rewrite natToString_step by assumption. rewrite length_append. simpl.
      assert (String.length (natToString radix (n / radix)) <= S k)%nat; [|lia].
      apply IH. apply N.Div0.div_lt_upper_bound.
      now rewrite <- N.pow_succ_r', <- Nat2N.inj_succ.
Qed.


Lemma encodeURIComponent_cons (c : ascii) (s : string) :
  encodeURIComponent (String c s)
  = encodeURIComponent (String c "") +:+ encodeURIComponent s.
Proof. cbn [encodeURIComponent]. now rewrite append_nil_r. Qed.

Lemma encodeURIComponent_chars (s : string) :
  allChars isUrlChar (encodeURIComponent s) = true.
Proof.
  induction s as [|c s IH]; [reflexivity|].
  rewrite encodeURIComponent_cons, allChars_app, IH, andb_true_r.
  destruct c as [[] [] [] [] [] [] [] []]; vm_compute; reflexivity.
Qed.


(** ** The settings fingerprint *)

Lemma ToInt32_range (z : Z) : - 2 ^ 31 <= ToInt32 z < 2 ^ 31.
Proof.
  unfold ToInt32.
  pose proof (Z.mod_pos_bound (z + 2 ^ 31) (2 ^ 32) eq_refl). lia.
Qed.

Lemma and_range (a b : Z) : - 2 ^ 31 <= and a b < 2 ^ 31.
Proof. apply ToInt32_range. Qed.

Lemma hashStep_range (hash : Z) (c : ascii) : - 2 ^ 31 <= Cache.hashStep hash c < 2 ^ 31.
Proof. apply and_range. Qed.

Lemma hashLoop_cons (c : ascii) (str : string) (hash : Z) :
  Cache.hashLoop (String c str) hash = Cache.hashLoop str (Cache.hashStep hash c).
Proof. unfold Cache.hashLoop at 1. fold Cache.hashLoop. reflexivity. Qed.

Lemma hashLoop_range (str : string) (hash : Z) :
  - 2 ^ 31 <= hash < 2 ^ 31 -> - 2 ^ 31 <= Cache.hashLoop str hash < 2 ^ 31.
Proof.
  revert hash. induction str as [|c str IH]; intros hash Hrange; [exact Hrange|].
  rewrite hashLoop_cons. apply IH. apply hashStep_range.
Qed.

(** X10.  [hashSettings] returns between one and six characters, each a
    digit or a lower-case letter.  The fingerprint is thus never empty
    and holds no colon: [generateCacheKey] always appends it, after a
    colon, to the key of the request without overrides. *)
Theorem hashSettings_is_a_short_base36_numeral (settings : Obj) (slug : string)
    (preset : option string) :
  allChars isLowerAlnum (Cache.hashSettings settings) = true
  /\ (1 <= String.length (Cache.hashSettings settings) <= 6)%nat
  /\ occurs ":" (Cache.hashSettings settings) = false
  /\ Cache.generateCacheKey slug preset (Some (Cache.hashSettings settings))
     = Cache.generateCacheKey slug preset None +:+ ":" +:+ Cache.hashSettings settings.
Proof.
  assert (Hchars : allChars isLowerAlnum (Cache.hashSettings settings) = true).
  { unfold Cache.hashSettings. cbv zeta. apply natToString_chars; [lia|].
    apply (below_cases 36 (fun d => isLowerAlnum (digitChar d))). reflexivity. }
  assert (Hlen : (1 <= String.length (Cache.hashSettings settings) <= 6)%nat).
  { unfold Cache.hashSettings. cbv zeta. split; [apply natToString_nonempty; lia|].
    apply natToString_length; [lia|].
    pose proof (hashLoop_range (stringify (VObj settings)) 0 ltac:(lia)) as Hrange.
    change (36 ^ N.of_nat 6)%N with 2176782336%N.
    change (2 ^ 31) with 2147483648 in Hrange. lia. }
  split; [exact Hchars|]. split; [exact Hlen|]. split.
  - revert Hchars. generalize (Cache.hashSettings settings) as hash.
    induction hash as [|c hash IH]; [reflexivity|].
    cbn [allChars occurs]. intros H. apply andb_true_iff in H. destruct H as [Hc Hhash].
    rewrite (IH Hhash), orb_false_r.
    destruct (Ascii.eqb_spec c ":") as [->|_]; [discriminate Hc | reflexivity].
  - unfold Cache.generateCacheKey. cbv zeta.
    assert (Htruthy : truthy (Some (Cache.hashSettings settings)) = true).
    { unfold truthy. destruct (Cache.hashSettings settings); [simpl in Hlen; lia | reflexivity]. }
    rewrite Htruthy. change (truthy None) with false. cbv iota.
    change (default "" (Some (Cache.hashSettings settings))) with (Cache.hashSettings settings).
    destruct (truthy preset); unfold push; simpl; [|reflexivity].
    now rewrite append_assoc.
Qed.


(** ** Markup filters *)

Lemma count_app (c : ascii) (a b : string) :
  count c (a +:+ b) = (count c a + count c b)%nat.
Proof.
  induction a as [|x a IH]; [reflexivity|].
  rewrite append_cons. cbn [count]. rewrite IH. lia.
Qed.

Lemma count_zero (c : ascii) (s : string) : occurs c s = false -> count c s = 0%nat.
Proof.
  induction s as [|x s IH]; [reflexivity|].
  cbn [occurs count]. intros H. apply orb_false_iff in H. destruct H as [-> H].
  now rewrite IH.
Qed.

Lemma occurs_of_allChars (p : ascii -> bool) (c : ascii) (s : string) :
  p c = false -> allChars p s = true -> occurs c s = false.
Proof.
  intros Hc. induction s as [|x s IH]; [reflexivity|].
  cbn [allChars occurs]. intros H. apply andb_true_iff in H. destruct H as [Hx Hs].
  rewrite (IH Hs), orb_false_r.
  destruct (Ascii.eqb_spec x c) as [->|_]; [congruence | reflexivity].
Qed.

(** X11.  The double quotes in the markup of the filters and of the
    [form] tag.  [stylesheet_tag], [script_tag], [link_to],
    [link_to_vendor], [link_to_type] and the opening of a form escape,
    encode or strip the values they put between double quotes, so these
    bring in none: the quotes of the output are those of its attributes
    (plus those of the label of a link, which is written as it is).
    [image_tag] escapes its [alt] text but writes its [src] as it is:
    each double quote of [src] appears in the output. *)
Theorem markup_filters_quotes (url label src args : string)
    (href title alt : option string) :
  count dquote (Engine.stylesheet_tag url) = 4%nat
  /\ count dquote (Engine.script_tag url) = 2%nat
  /\ count dquote (Engine.link_to label href title)
     = ((if truthy title then 4 else 2) + count dquote label)%nat
  /\ count dquote (Engine.link_to_vendor label) = (2 + count dquote label)%nat
  /\ count dquote (Engine.link_to_type label) = (2 + count dquote label)%nat
  /\ count dquote (Engine.formOpening args) = 4%nat
  /\ count dquote (Engine.image_tag (Some src) alt) = (6 + count dquote src)%nat
  /\ count dquote (Engine.image_tag None alt) = 6%nat.
Proof.
  assert (Hesc : forall s, count dquote (Engine.escapeHtml s) = 0%nat).
  { intros s. apply count_zero. apply escapeHtml_clean. }
  assert (Henc : forall s, count dquote (encodeURIComponent s) = 0%nat).
  { intros s. apply count_zero.
    apply (occurs_of_allChars isUrlChar); [reflexivity | apply encodeURIComponent_chars]. }
  assert (Hform : count dquote (Engine.parseFormType args) = 0%nat).
  { apply count_zero. unfold Engine.parseFormType.
    apply occurs_trim, occurs_beforeComma. rewrite occurs_removeQuotes.
    apply andb_false_r. }
  unfold Engine.stylesheet_tag, Engine.script_tag, Engine.link_to, Engine.link_to_vendor,
    Engine.link_to_type, Engine.formOpening, Engine.image_tag.
  cbv zeta. repeat split.
  - rewrite !count_app, Hesc. reflexivity.
  - rewrite !count_app, Hesc. reflexivity.
  - destruct (truthy title); rewrite !count_app, ?Hesc; cbn; lia.
  - rewrite !count_app, Henc. cbn. lia.
  - rewrite !count_app, Henc. cbn. lia.
  - rewrite !count_app, Hform. reflexivity.
  - rewrite !count_app, Hesc. cbn. lia.
  - rewrite !count_app, Hesc. reflexivity.
Qed.

(** ** Section settings *)

Lemma getProp_setProp (o : Obj) (k k' : string) (v : Value) :
  getProp (setProp o k v) k' = if String.eqb k k' then Some v else getProp o k'.
Proof.
  induction o as [|[j w] o IH]; cbn [setProp getProp].
  - reflexivity.
  - destruct (String.eqb_spec j k) as [->|Hjk]; cbn [getProp].
    + destruct (String.eqb k k'); reflexivity.
    + rewrite IH. destruct (String.eqb_spec j k') as [->|_]; [|reflexivity].
      destruct (String.eqb_spec k k') as [->|_]; [contradiction | reflexivity].
Qed.





(** ** The store of the mock generator *)

Lemma keepsProperties_refl (h : Heap) : keepsProperties h h.
Proof. now intros r k v. Qed.

Lemma keepsProperties_trans (h1 h2 h3 : Heap) :
  keepsProperties h1 h2 -> keepsProperties h2 h3 -> keepsProperties h1 h3.
Proof. intros H12 H23 r k v H. now apply H23, H12. Qed.

Lemma deref_app (h fresh : Heap) (r : Ref) :
  (r < length h)%nat -> deref (h ++ fresh)%list r = deref h r.
Proof. intros Hr. unfold deref. f_equal. now apply lookup_app_l. Qed.

Lemma deref_out_of_range (h : Heap) (r : Ref) : (length h <= r)%nat -> deref h r = [].
Proof.
  intros Hr. unfold deref.
  replace (h !! r) with (@None Obj); [reflexivity|].
  symmetry. now apply lookup_ge_None_2.
Qed.

Lemma keepsProperties_app (h fresh : Heap) : keepsProperties h (h ++ fresh)%list.
Proof.
  intros r k v H. destruct (Nat.lt_ge_cases r (length h)) as [Hr|Hr].
  - now rewrite deref_app.
  - rewrite deref_out_of_range in H by exact Hr. discriminate H.
Qed.

Lemma keepsProperties_add (h : Heap) (r : Ref) (k : string) (v : Value) :
  hasProp (deref h r) k = false ->
  keepsProperties h (store h r (setProp (deref h r) k v)).
Proof.
  intros Hmissing r' k' v' H. unfold store.
  destruct (decide (r = r')) as [<-|Hne].
  - destruct (Nat.lt_ge_cases r (length h)) as [Hr|Hr].
    + unfold deref at 1.
      replace (<[r:=setProp (deref h r) k v]> h !! r)
        with (Some (setProp (deref h r) k v))
        by (symmetry; now apply list_lookup_insert_eq).
      cbn [default from_option]. change (id ?x) with x.
      rewrite getProp_setProp.
      destruct (String.eqb_spec k k') as [->|_]; [|exact H].
      unfold hasProp in Hmissing. now rewrite H in Hmissing.
    + rewrite deref_out_of_range in H by exact Hr. discriminate H.
  - unfold deref in *.
    replace (<[r:=setProp (default [] (h !! r)) k v]> h !! r') with (h !! r');
      [exact H|].
    symmetry. now apply list_lookup_insert_ne.
Qed.

Lemma length_store (h : Heap) (r : Ref) (o : Obj) : length (store h r o) = length h.
Proof. apply length_insert. Qed.

Lemma mergeDefaults_keeps (settings : list Mock.SectionSetting) (r : Ref) (h : Heap) :
  keepsProperties h (Mock.mergeDefaults settings r h)
  /\ length (Mock.mergeDefaults settings r h) = length h.
Proof.
  unfold Mock.mergeDefaults. revert h.
  induction settings as [|setting settings IH]; intros h.
  - split; [apply keepsProperties_refl | reflexivity].
  - cbn [fold_left]. cbv zeta.
    destruct (hasProp (deref h r) (Mock.setting_id setting)) eqn:Hhas; [apply IH|].
    destruct (IH (store h r (setProp (deref h r) (Mock.setting_id setting)
                                (Mock.getDefaultValue setting)))) as [Hkeep Hlen].
    split.
    + eapply keepsProperties_trans; [|exact Hkeep]. now apply keepsProperties_add.
    + now rewrite Hlen, length_store.
Qed.

Lemma mapPresetBlocks_keeps (blockTypes : list Mock.SectionBlock)
    (blocks : list Mock.PresetBlock) (index : nat) (h : Heap) :
  keepsProperties h (Mock.mapPresetBlocks blockTypes blocks index h).2
  /\ (length h <= length (Mock.mapPresetBlocks blockTypes blocks index h).2)%nat
  /\ map Mock.mb_id (Mock.mapPresetBlocks blockTypes blocks index h).1
     = map blockId (seq index (length blocks))
  /\ map Mock.mb_type (Mock.mapPresetBlocks blockTypes blocks index h).1
     = map Mock.pb_type blocks.
Proof.
  revert index h. induction blocks as [|block rest IH]; intros index h.
  - repeat split; [apply keepsProperties_refl | reflexivity].
  - cbn [Mock.mapPresetBlocks].
    set (located := match Mock.pb_settings block with
                    | Some r => (r, h)
                    | None => alloc h []
                    end).
    assert (Hlocated : keepsProperties h located.2 /\ (length h <= length located.2)%nat).
    { subst located. destruct (Mock.pb_settings block); cbn.
      - split; [apply keepsProperties_refl | lia].
      - split; [apply keepsProperties_app | rewrite length_app; simpl; lia]. }
    destruct located as [blockSettings h1]. cbn [snd] in Hlocated.
    destruct Hlocated as [Hkeep1 Hlen1].
    set (h2 := match find _ blockTypes with
               | Some bt => match Mock.block_settings bt with
                            | Some settings => Mock.mergeDefaults settings blockSettings h1
                            | None => h1
                            end
               | None => h1
               end).
    assert (Hmerged : keepsProperties h1 h2 /\ length h2 = length h1).
    { subst h2. destruct (find _ blockTypes) as [bt|];
        [destruct (Mock.block_settings bt)|];
        try (split; [apply keepsProperties_refl | reflexivity]).
      apply mergeDefaults_keeps. }
    destruct Hmerged as [Hkeep2 Hlen2].
    destruct (IH (S index) h2) as (Hkeep3 & Hlen3 & Hids & Htypes).
    destruct (Mock.mapPresetBlocks blockTypes rest (S index) h2) as [ctxs h3].
    cbn [fst snd] in *. split; [|split; [|split]].
    + eapply keepsProperties_trans; [exact Hkeep1|].
      eapply keepsProperties_trans; [exact Hkeep2 | exact Hkeep3].
    + lia.
    + cbn [map seq length]. now rewrite Hids.
    + cbn [map]. now rewrite Htypes.
Qed.

Lemma mapBlockTypes_appends (blockTypes : list Mock.SectionBlock) (index : nat) (h : Heap) :
  exists fresh,
    (Mock.mapBlockTypes blockTypes index h).2 = (h ++ fresh)%list
    /\ length fresh = length blockTypes
    /\ map Mock.mb_id (Mock.mapBlockTypes blockTypes index h).1
       = map blockId (seq index (length blockTypes))
    /\ map Mock.mb_type (Mock.mapBlockTypes blockTypes index h).1
       = map Mock.block_type blockTypes
    /\ map Mock.mb_settings (Mock.mapBlockTypes blockTypes index h).1
       = seq (length h) (length blockTypes).
Proof.
  revert index h. induction blockTypes as [|blockType rest IH]; intros index h.
  - exists []. rewrite app_nil_r. repeat split.
  - cbn [Mock.mapBlockTypes]. unfold alloc. cbv beta iota zeta.
    match goal with |- context [(h ++ [?o])%list] => set (blockSettings := o) end.
    destruct (IH (S index) (h ++ [blockSettings])%list)
      as (fresh & Hheap & Hlen & Hids & Htypes & Hrefs).
    destruct (Mock.mapBlockTypes rest (S index) (h ++ [blockSettings])%list) as [ctxs h1].
    cbn [fst snd] in *. exists (blockSettings :: fresh).
    split; [|split; [|split; [|split]]].
    + rewrite Hheap, <- app_assoc. reflexivity.
    + simpl. now rewrite Hlen.
    + cbn [map seq length]. now rewrite Hids.
    + cbn [map]. now rewrite Htypes.
    + cbn [map seq length]. rewrite Hrefs, length_app. cbn [length].
      now replace (length h + 1)%nat with (S (length h)) by lia.
Qed.

Lemma generateMockBlocks_cases (blockTypes : list Mock.SectionBlock)
    (presets : list Mock.SectionPreset) (h : Heap) :
  Mock.generateMockBlocks blockTypes presets h
  = match match presets with
          | preset :: _ => Mock.preset_blocks preset
          | [] => None
          end with
    | Some blocks => Mock.mapPresetBlocks blockTypes blocks 0 h
    | None => Mock.mapBlockTypes (firstn 3 blockTypes) 0 h
    end.
Proof.
  unfold Mock.generateMockBlocks. destruct presets as [|preset rest]; [reflexivity|].
  destruct (Mock.preset_blocks preset); reflexivity.
Qed.

Lemma generateMockDataFromSchema_blocks (schema : Mock.SectionData)
    (preset : option Mock.StylePreset) (h : Heap) :
  (Mock.generateMockDataFromSchema schema preset h).2
  = (Mock.generateMockBlocks (Mock.blocks schema) (Mock.presets schema) h).2
  /\ Mock.sc_blocks (Mock.ctx_section (Mock.generateMockDataFromSchema schema preset h).1)
     = (Mock.generateMockBlocks (Mock.blocks schema) (Mock.presets schema) h).1.
Proof.
  unfold Mock.generateMockDataFromSchema. cbv zeta.
  destruct (Mock.generateMockBlocks _ _ h) as [blocks h']. split; reflexivity.
Qed.

Lemma generateMockDataFromSchema_keeps (schema : Mock.SectionData)
    (preset : option Mock.StylePreset) (h : Heap) :
  keepsProperties h (Mock.generateMockDataFromSchema schema preset h).2
  /\ (length h <= length (Mock.generateMockDataFromSchema schema preset h).2)%nat.
Proof.
  rewrite (proj1 (generateMockDataFromSchema_blocks schema preset h)).
  rewrite generateMockBlocks_cases.
  destruct (match Mock.presets schema with
            | preset0 :: _ => Mock.preset_blocks preset0
            | [] => None
            end) as [blocks|].
  - destruct (mapPresetBlocks_keeps (Mock.blocks schema) blocks 0 h) as (Hk & Hl & _).
    now split.
  - destruct (mapBlockTypes_appends (firstn 3 (Mock.blocks schema)) 0 h)
      as (fresh & -> & _).
    split; [apply keepsProperties_app | rewrite length_app; lia].
Qed.

(** X13.  [generateMockDataFromSchema] never removes a property from an
    object of the store and never changes the value of one: what it
    writes into the settings of a preset block are the defaults of the
    properties that were missing, so the values given by the preset take
    precedence over the defaults of the block type.  No object leaves
    the store. *)
Theorem generateMockDataFromSchema_only_adds_properties (schema : Mock.SectionData)
    (preset : option Mock.StylePreset) (h : Heap) (r : Ref) (k : string) (v : Value) :
  getProp (deref h r) k = Some v ->
  getProp (deref (Mock.generateMockDataFromSchema schema preset h).2 r) k = Some v
  /\ (length h <= length (Mock.generateMockDataFromSchema schema preset h).2)%nat.
Proof.
  intros H. destruct (generateMockDataFromSchema_keeps schema preset h) as [Hkeep Hlen].
  split; [now apply Hkeep | exact Hlen].
Qed.

Lemma generateMockDataFromSchema_only_adds_properties_witness :
  getProp (deref (Mock.generateMockDataFromSchema slideshowSchema None slideshowHeap).2 0%nat)
    "subheading" = Some (VStr "Welcome")
  /\ (length slideshowHeap
      <= length (Mock.generateMockDataFromSchema slideshowSchema None slideshowHeap).2)%nat.
Proof.
  apply (generateMockDataFromSchema_only_adds_properties slideshowSchema None slideshowHeap
           0%nat "subheading" (VStr "Welcome")).
  reflexivity.
Defined.




(** ** Block ids *)

Lemma decimalValue_app (a b : string) (acc : N) :
  decimalValue (a +:+ b) acc = decimalValue b (decimalValue a acc).
Proof.
  revert acc. induction a as [|c a IH]; intros acc; [reflexivity|].
  rewrite append_cons. cbn [decimalValue]. apply IH.
Qed.

(** Reading the decimal text of a number gives the number back. *)
Lemma decimalValue_natToString (n : N) : decimalValue (natToString 10 n) 0 = n.
Proof.
  induction n as [n IH] using (well_founded_induction N.lt_wf_0).
  assert (Hdigit : forall d, (d < 10)%N -> (N_of_ascii (digitChar d) - 48 = d)%N).
  { intros d Hd. apply N.eqb_eq.
    apply (below_cases 10 (fun d => (N_of_ascii (digitChar d) - 48 =? d)%N)); [reflexivity|].
    exact Hd. }
  destruct (N.lt_ge_cases n 10) as [Hlt|Hge].
  - rewrite natToString_small by lia. cbn [decimalValue]. rewrite Hdigit by exact Hlt. lia.
  - rewrite natToString_step by lia. rewrite decimalValue_app. cbn [decimalValue].
    rewrite IH by (apply N.div_lt; lia).
    rewrite Hdigit by (apply N.mod_lt; lia).
    pose proof (N.div_mod n 10 ltac:(lia)). lia.
Qed.

Lemma append_left_cancel (p a b : string) : p +:+ a = p +:+ b -> a = b.
Proof.
  induction p as [|c p IH]; [auto|].
  rewrite !append_cons. intros [= H]. now apply IH.
Qed.

Lemma blockId_inj (i j : nat) : blockId i = blockId j -> i = j.
Proof.
  unfold blockId, intToString. intros H. apply append_left_cancel in H.
  destruct (Z.ltb_spec (Z.of_nat i) 0) as [|_]; [lia|].
  destruct (Z.ltb_spec (Z.of_nat j) 0) as [|_]; [lia|].
  apply (f_equal (fun s => decimalValue s 0)) in H.
  rewrite !decimalValue_natToString in H. lia.
Qed.

Lemma NoDup_blockIds (index count : nat) : NoDup (map blockId (seq index count)).
Proof.
  apply NoDup_fmap_2; [intros i j; apply blockId_inj|].
  apply NoDup_ListNoDup, seq_NoDup.
Qed.

(** X29.  The blocks of a context carry the ids [block-0], [block-1],
    ... in their order, so no two blocks of a context share an id.  When
    the first preset of the schema lists blocks, the context has one
    block per listed block, of the listed type, in the listed order. *)
Theorem generateMockDataFromSchema_block_ids (schema : Mock.SectionData)
    (preset : option Mock.StylePreset) (h : Heap) :
  let blocks := Mock.sc_blocks (Mock.ctx_section
                  (Mock.generateMockDataFromSchema schema preset h).1) in
  map Mock.mb_id blocks = map blockId (seq 0 (length blocks))
  /\ NoDup (map Mock.mb_id blocks)
  /\ (forall listed, presetBlocksOf schema = Some listed ->
        map Mock.mb_type blocks = map Mock.pb_type listed).
Proof.
  cbv zeta. rewrite (proj2 (generateMockDataFromSchema_blocks schema preset h)).
  rewrite generateMockBlocks_cases. fold (presetBlocksOf schema).
  destruct (presetBlocksOf schema) as [listed|].
  - destruct (mapPresetBlocks_keeps (Mock.blocks schema) listed 0 h)
      as (_ & _ & Hids & Htypes).
    assert (Hlen : length (Mock.mapPresetBlocks (Mock.blocks schema) listed 0 h).1
                   = length listed).
    { rewrite <- (length_map Mock.mb_type), Htypes. apply length_map. }
    rewrite Hlen, Hids. split; [reflexivity|]. split; [apply NoDup_blockIds|].
    now intros ? [= <-].
  - destruct (mapBlockTypes_appends (firstn 3 (Mock.blocks schema)) 0 h)
      as (fresh & _ & _ & Hids & Htypes & _).
    assert (Hlen : length (Mock.mapBlockTypes (firstn 3 (Mock.blocks schema)) 0 h).1
                   = length (firstn 3 (Mock.blocks schema))).
    { rewrite <- (length_map Mock.mb_type), Htypes. apply length_map. }
    rewrite Hlen, Hids. split; [reflexivity|]. split; [apply NoDup_blockIds|].
    discriminate.
Qed.

(** ** The mutation of the schema happens once *)

Lemma mergeDefaults_completes (settings : list Mock.SectionSetting) (r : Ref) (h : Heap) :
  (r < length h)%nat ->
  forall setting, setting ∈ settings ->
    hasProp (deref (Mock.mergeDefaults settings r h) r) (Mock.setting_id setting) = true.
Proof.
  revert h. induction settings as [|first settings IH]; intros h Hr setting Hin.
  - now apply elem_of_nil in Hin.
  - assert (Hstep : forall h1, (r < length h1)%nat ->
              hasProp (deref h1 r) (Mock.setting_id first) = true ->
              hasProp (deref (Mock.mergeDefaults settings r h1) r)
                      (Mock.setting_id setting) = true).
    { intros h1 Hr1 Hfirst. apply elem_of_cons in Hin. destruct Hin as [->|Hin].
      - unfold hasProp in *.
        destruct (getProp (deref h1 r) (Mock.setting_id first)) as [v|] eqn:Hv;
          [|discriminate].
        now rewrite (proj1 (mergeDefaults_keeps settings r h1) r _ v Hv).
      - now apply IH. }
    unfold Mock.mergeDefaults. cbn [fold_left]. cbv zeta.
    fold (Mock.mergeDefaults settings r).
    destruct (hasProp (deref h r) (Mock.setting_id first)) eqn:Hhas.
    + now apply Hstep.
    + apply Hstep; [now rewrite length_store|].
      unfold hasProp, store, deref.
      replace (<[r:=setProp (default [] (h !! r)) (Mock.setting_id first)
                      (Mock.getDefaultValue first)]> h !! r)
        with (Some (setProp (default [] (h !! r)) (Mock.setting_id first)
                      (Mock.getDefaultValue first)))
        by (symmetry; now apply list_lookup_insert_eq).
      cbn [default from_option]. change (id ?x) with x.
      now rewrite getProp_setProp, String.eqb_refl.
Qed.

Lemma mergeDefaults_settled (settings : list Mock.SectionSetting) (r : Ref) (h : Heap) :
  (forall setting, setting ∈ settings ->
     hasProp (deref h r) (Mock.setting_id setting) = true) ->
  Mock.mergeDefaults settings r h = h.
Proof.
  unfold Mock.mergeDefaults. induction settings as [|first settings IH]; intros Hall;
    [reflexivity|].
  cbn [fold_left]. cbv zeta. rewrite (Hall first) by (apply elem_of_cons; now left).
  apply IH. intros setting Hin. apply Hall. apply elem_of_cons. now right.
Qed.


Lemma hasProp_kept (h h' : Heap) (r : Ref) (k : string) :
  keepsProperties h h' -> hasProp (deref h r) k = true -> hasProp (deref h' r) k = true.
Proof.
  intros Hkeep. unfold hasProp.
  destruct (getProp (deref h r) k) as [v|] eqn:Hv; [|discriminate].
  now rewrite (Hkeep r k v Hv).
Qed.

(** After the blocks of a preset were mapped, the settings object of
    each of them holds every setting of its block type. *)
Lemma mapPresetBlocks_completes (blockTypes : list Mock.SectionBlock)
    (blocks : list Mock.PresetBlock) (index : nat) (h : Heap) :
  forall block r blockType settings setting,
    block ∈ blocks -> Mock.pb_settings block = Some r -> (r < length h)%nat ->
    find (fun bt => String.eqb (Mock.block_type bt) (Mock.pb_type block)) blockTypes
    = Some blockType ->
    Mock.block_settings blockType = Some settings -> setting ∈ settings ->
    hasProp (deref (Mock.mapPresetBlocks blockTypes blocks index h).2 r)
            (Mock.setting_id setting) = true.
Proof.
  revert index h. induction blocks as [|first rest IH];
    intros index h block r blockType settings setting Hin Hsome Hr Hfind Hsettings Hsetting.
  - now apply elem_of_nil in Hin.
  - cbn [Mock.mapPresetBlocks].
    set (located := match Mock.pb_settings first with
                    | Some r => (r, h)
                    | None => alloc h []
                    end).
    assert (Hlocated : keepsProperties h located.2 /\ (length h <= length located.2)%nat
                       /\ (Mock.pb_settings first = Some r -> located = (r, h))).
    { subst located. destruct (Mock.pb_settings first); cbn.
      - split; [apply keepsProperties_refl|]. split; [lia|]. now intros [= ->].
      - split; [apply keepsProperties_app|]. split; [rewrite length_app; simpl; lia|].
        discriminate. }
    destruct located as [blockSettings h1]. cbn [snd] in Hlocated.
    destruct Hlocated as (Hkeep1 & Hlen1 & Hsame).
    set (h2 := match find _ blockTypes with
               | Some bt => match Mock.block_settings bt with
                            | Some settings => Mock.mergeDefaults settings blockSettings h1
                            | None => h1
                            end
               | None => h1
               end).
    assert (Hmerged : keepsProperties h1 h2 /\ length h2 = length h1).
    { subst h2.
      destruct (find (fun bt => String.eqb (Mock.block_type bt) (Mock.pb_type first))
                  blockTypes) as [bt|];
        [destruct (Mock.block_settings bt)|];
        try (split; [apply keepsProperties_refl | reflexivity]).
      apply mergeDefaults_keeps. }
    destruct Hmerged as [Hkeep2 Hlen2].
    pose proof (mapPresetBlocks_keeps blockTypes rest (S index) h2) as (Hkeep3 & _).
    specialize (IH (S index) h2 block r blockType settings setting).
    destruct (Mock.mapPresetBlocks blockTypes rest (S index) h2) as [ctxs h3].
    cbn [fst snd] in *.
    apply elem_of_cons in Hin. destruct Hin as [->|Hin].
    + apply (hasProp_kept h2 h3); [exact Hkeep3|].
      injection (Hsame Hsome) as -> ->. subst h2. rewrite Hfind, Hsettings.
      now apply mergeDefaults_completes.
    + apply IH; try assumption. lia.
Qed.

Lemma mergeDefaults_fresh (settings : list Mock.SectionSetting) (h : Heap) (o : Obj) :
  exists o', Mock.mergeDefaults settings (length h) (h ++ [o])%list = (h ++ [o'])%list.
Proof.
  unfold Mock.mergeDefaults. revert o.
  induction settings as [|first settings IH]; intros o; [now exists o|].
  cbn [fold_left]. cbv zeta.
  destruct (hasProp _ (Mock.setting_id first)); [apply IH|].
  unfold store.
  replace (<[length h:=setProp (deref (h ++ [o])%list (length h)) (Mock.setting_id first)
                         (Mock.getDefaultValue first)]> (h ++ [o])%list)
    with (h ++ [setProp (deref (h ++ [o])%list (length h)) (Mock.setting_id first)
                  (Mock.getDefaultValue first)])%list; [apply IH|].
  symmetry. rewrite insert_app_r_alt by lia. now rewrite Nat.sub_diag.
Qed.

(** On a store in which the settings objects of the preset blocks are
    complete, mapping the blocks again only adds objects. *)
Lemma mapPresetBlocks_settled (blockTypes : list Mock.SectionBlock) (base : Heap)
    (blocks : list Mock.PresetBlock) :
  (forall block r blockType settings setting,
     block ∈ blocks -> Mock.pb_settings block = Some r ->
     find (fun bt => String.eqb (Mock.block_type bt) (Mock.pb_type block)) blockTypes
     = Some blockType ->
     Mock.block_settings blockType = Some settings -> setting ∈ settings ->
     (r < length base)%nat
     /\ hasProp (deref base r) (Mock.setting_id setting) = true) ->
  forall index extra,
    exists extra',
      (Mock.mapPresetBlocks blockTypes blocks index (base ++ extra)%list).2
      = (base ++ extra')%list.
Proof.
  induction blocks as [|first rest IH]; intros Hdone index extra; [now exists extra|].
  cbn [Mock.mapPresetBlocks].
  assert (Hrest : forall block r blockType settings setting,
            block ∈ rest -> Mock.pb_settings block = Some r ->
            find (fun bt => String.eqb (Mock.block_type bt) (Mock.pb_type block)) blockTypes
            = Some blockType ->
            Mock.block_settings blockType = Some settings -> setting ∈ settings ->
            (r < length base)%nat
            /\ hasProp (deref base r) (Mock.setting_id setting) = true).
  { intros block r blockType settings setting Hin. apply Hdone. apply elem_of_cons. now right. }
  assert (Hnext : forall h2,
            (exists extra2, h2 = (base ++ extra2)%list) ->
            exists extra',
              (let '(ctxs, h) := Mock.mapPresetBlocks blockTypes rest (S index) h2 in
               ({| Mock.mb_id := "block-" +:+ Mock.natStr (Z.of_nat index);
                   Mock.mb_type := Mock.pb_type first;
                   Mock.mb_settings := 0%nat;
                   Mock.mb_shopify_attributes := "" |} :: ctxs, h)).2
              = (base ++ extra')%list).
  { intros h2 [extra2 ->]. destruct (IH Hrest (S index) extra2) as [extra' Heq].
    exists extra'. destruct (Mock.mapPresetBlocks blockTypes rest (S index) _). exact Heq. }
  destruct (Mock.pb_settings first) as [r|] eqn:Hsome.
  - assert (Hsame : match find (fun bt => String.eqb (Mock.block_type bt) (Mock.pb_type first))
                            blockTypes with
                    | Some bt => match Mock.block_settings bt with
                                 | Some settings =>
                                     Mock.mergeDefaults settings r (base ++ extra)%list
                                 | None => (base ++ extra)%list
                                 end
                    | None => (base ++ extra)%list
                    end = (base ++ extra)%list).
    { destruct (find _ blockTypes) as [bt|] eqn:Hfind; [|reflexivity].
      destruct (Mock.block_settings bt) as [settings|] eqn:Hsettings; [|reflexivity].
      apply mergeDefaults_settled. intros setting Hsetting.
      destruct (Hdone first r bt settings setting ltac:(left) Hsome Hfind Hsettings Hsetting)
        as [Hr Hhas].
      now rewrite deref_app. }
    rewrite Hsame.
    destruct (IH Hrest (S index) extra) as [extra' Heq]. exists extra'.
    destruct (Mock.mapPresetBlocks blockTypes rest (S index) _). exact Heq.
  - unfold alloc.
    match goal with
    | |- context [Mock.mapPresetBlocks _ _ _ ?merged] =>
        assert (Hfresh : exists o', merged = ((base ++ extra) ++ [o'])%list)
    end.
    { destruct (find _ blockTypes) as [bt|]; [|now exists []].
      destruct (Mock.block_settings bt) as [settings|]; [|now exists []].
      apply mergeDefaults_fresh. }
    destruct Hfresh as [o' ->]. rewrite <- app_assoc.
    destruct (IH Hrest (S index) (extra ++ [o'])%list) as [extra' Heq]. exists extra'.
    destruct (Mock.mapPresetBlocks blockTypes rest (S index) _). exact Heq.
Qed.

(** X30.  The mutation of the schema happens once.  When the settings
    objects that the preset blocks name are objects of the store, a
    second call of [generateMockDataFromSchema] on the store that the
    first call left changes no object of it: every default was merged by
    the first call, and the second only adds the fresh settings objects
    of its own blocks. *)
Theorem generateMockDataFromSchema_second_call_adds_only (schema : Mock.SectionData)
    (preset again : option Mock.StylePreset) (h : Heap) :
  refsWithin schema h ->
  let first := (Mock.generateMockDataFromSchema schema preset h).2 in
  exists fresh, (Mock.generateMockDataFromSchema schema again first).2 = (first ++ fresh)%list.
Proof.
  intros Hrefs. cbv zeta.
  rewrite !(proj1 (generateMockDataFromSchema_blocks schema _ _)).
  rewrite !generateMockBlocks_cases. fold (presetBlocksOf schema).
  destruct (presetBlocksOf schema) as [listed|] eqn:Hlisted.
  - set (first := (Mock.mapPresetBlocks (Mock.blocks schema) listed 0 h).2).
    destruct (mapPresetBlocks_settled (Mock.blocks schema) first listed) with (index := 0%nat)
      (extra := @nil Obj) as [extra' Heq].
    + intros block r blockType settings setting Hin Hsome Hfind Hsettings Hsetting.
      pose proof (Hrefs listed block r Hlisted Hin Hsome) as Hr.
      split.
      * pose proof (mapPresetBlocks_keeps (Mock.blocks schema) listed 0 h) as (_ & Hlen & _).
        fold first in Hlen. lia.
      * subst first. eapply mapPresetBlocks_completes; eassumption.
    + rewrite app_nil_r in Heq. now exists extra'.
  - destruct (mapBlockTypes_appends (firstn 3 (Mock.blocks schema)) 0
                (Mock.mapBlockTypes (firstn 3 (Mock.blocks schema)) 0 h).2)
      as (fresh & Heq & _).
    now exists fresh.
Qed.

Lemma generateMockDataFromSchema_second_call_adds_only_witness :
  exists fresh,
    (Mock.generateMockDataFromSchema slideshowSchema None
       (Mock.generateMockDataFromSchema slideshowSchema None slideshowHeap).2).2
    = ((Mock.generateMockDataFromSchema slideshowSchema None slideshowHeap).2 ++ fresh)%list.
Proof.
  apply (generateMockDataFromSchema_second_call_adds_only slideshowSchema None None
           slideshowHeap).
  intros listed block r [= <-] Hin Hsome.
  apply elem_of_cons in Hin. destruct Hin as [->|Hin]; [|now apply elem_of_nil in Hin].
  injection Hsome as <-. simpl. lia.
Defined.


(** ** Dates as text *)

Lemma civilFromDays_period (days k : Z) :
  civilFromDays (days + 146097 * k)
  = ((civilFromDays days).1.1 + 400 * k, (civilFromDays days).1.2, (civilFromDays days).2).
Proof.
  unfold civilFromDays. cbv zeta.
  replace ((days + 146097 * k + 719468) / 146097) with ((days + 719468) / 146097 + k).
  2:{ replace (days + 146097 * k + 719468) with (days + 719468 + k * 146097) by lia.
      now rewrite Z.div_add by lia. }
  replace (days + 146097 * k + 719468 - ((days + 719468) / 146097 + k) * 146097)
    with (days + 719468 - (days + 719468) / 146097 * 146097) by lia.
  set (doe := days + 719468 - (days + 719468) / 146097 * 146097).
  set (yoe := (doe - doe / 1460 + doe / 36524 - doe / 146096) / 365).
  set (mp := (5 * (doe - (365 * yoe + yoe / 4 - yoe / 100)) + 2) / 153).
  destruct (mp <? 10); destruct (_ <=? 2); cbn [fst snd]; f_equal; f_equal; lia.
Qed.

Lemma civilKey_period (days k : Z) :
  civilKey (days + 146097 * k) = civilKey days + 204800 * k.
Proof.
  unfold civilKey. rewrite civilFromDays_period.
  destruct (civilFromDays days) as [[y m] d]. cbn [fst snd]. lia.
Qed.

Lemma datesAscend_at (fuel : nat) (days previous : Z) :
  datesAscend fuel days previous = true ->
  forall i, 0 <= i < Z.of_nat fuel ->
    1 <= (civilFromDays (days + i)).1.2 <= 12
    /\ 1 <= (civilFromDays (days + i)).2 <= 31
    /\ (if i =? 0 then previous else civilKey (days + i - 1)) < civilKey (days + i).
Proof.
  revert days previous. induction fuel as [|fuel IH]; intros days previous Hok i Hi; [lia|].
  cbn [datesAscend] in Hok.
  destruct (civilFromDays days) as [[y m] d] eqn:Hcivil.
  repeat (apply andb_true_iff in Hok; destruct Hok as [Hok ?]).
  destruct (Z.eqb_spec i 0) as [->|Hne].
  - rewrite Z.add_0_r. unfold civilKey. rewrite Hcivil. cbn [fst snd]. lia.
  - specialize (IH (days + 1) (y * 512 + m * 32 + d) ltac:(assumption) (i - 1) ltac:(lia)).
    replace (days + 1 + (i - 1)) with (days + i) in IH by lia.
    destruct IH as (Hm & Hd & Hkey). split; [exact Hm|]. split; [exact Hd|].
    destruct (Z.eqb_spec (i - 1) 0) as [Hone|Hmore].
    + replace (days + i - 1) with days by lia. unfold civilKey at 1. now rewrite Hcivil.
    + now replace (days + 1 + (i - 1) - 1) with (days + i - 1) in Hkey by lia.
Qed.

(** One era of 400 years, day by day. *)
Lemma era_dates_ascend :
  datesAscend (N.to_nat 146098) (- 719468) (civilKey (- 719468) - 1) = true.
Proof. vm_cast_no_check (eq_refl true). Qed.

Lemma civil_fields (days : Z) :
  1 <= (civilFromDays days).1.2 <= 12
  /\ 1 <= (civilFromDays days).2 <= 31
  /\ civilKey days < civilKey (days + 1).
Proof.
  set (k := (days + 719468) / 146097).
  set (i := (days + 719468) mod 146097).
  assert (Hi : 0 <= i < 146097) by (apply Z.mod_pos_bound; lia).
  assert (Hdays : days = - 719468 + i + 146097 * k).
  { subst i k. pose proof (Z.div_mod (days + 719468) 146097 ltac:(lia)). lia. }
  pose proof (datesAscend_at _ _ _ era_dates_ascend i ltac:(lia)) as (Hm & Hd & _).
  pose proof (datesAscend_at _ _ _ era_dates_ascend (i + 1) ltac:(lia)) as (_ & _ & Hkey).
  destruct (Z.eqb_spec (i + 1) 0) as [|_]; [lia|].
  replace (- 719468 + (i + 1) - 1) with (- 719468 + i) in Hkey by lia.
  rewrite Hdays. replace (- 719468 + i + 146097 * k + 1) with (- 719468 + (i + 1) + 146097 * k) by lia.
  rewrite !civilKey_period, civilFromDays_period. cbn [fst snd].
  split; [exact Hm|]. split; [exact Hd | lia].
Qed.

Lemma civilKey_mono (a b : Z) : a < b -> civilKey a < civilKey b.
Proof.
  intros Hlt. replace b with (a + 1 + Z.of_nat (Z.to_nat (b - a - 1))) by lia.
  induction (Z.to_nat (b - a - 1)) as [|n IH].
  - rewrite Z.add_0_r. apply civil_fields.
  - eapply Z.lt_trans; [exact IH|].
    replace (a + 1 + Z.of_nat (S n)) with (a + 1 + Z.of_nat n + 1) by lia.
    apply civil_fields.
Qed.

Lemma civil_year_range (t : Z) :
  fourDigitYear t -> 0 <= (civilFromDays (utcDay t)).1.1 <= 9999.
Proof.
  unfold fourDigitYear, utcDay. intros Ht.
  assert (Hdays : - 719528 <= t / 86400000 <= 2932896).
  { split.
    - apply Z.div_le_lower_bound; lia.
    - assert (t / 86400000 < 2932897); [|lia].
      apply Z.div_lt_upper_bound; lia. }
  destruct (civil_fields (t / 86400000)) as (Hm & Hd & _).
  assert (Hlow : civilKey (- 719528) <= civilKey (t / 86400000)).
  { destruct (Z.eq_dec (- 719528) (t / 86400000)) as [<-|Hne]; [lia|].
    apply Z.lt_le_incl, civilKey_mono. lia. }
  assert (Hhigh : civilKey (t / 86400000) <= civilKey 2932896).
  { destruct (Z.eq_dec (t / 86400000) 2932896) as [->|Hne]; [lia|].
    apply Z.lt_le_incl, civilKey_mono. lia. }
  change (civilKey (- 719528)) with 33 in Hlow.
  change (civilKey 2932896) with 5119903 in Hhigh.
  unfold civilKey in Hlow, Hhigh.
  destruct (civilFromDays (t / 86400000)) as [[y m] d]. cbn [fst snd] in *. lia.
Qed.


(** *** Numbers of fixed width *)

Lemma ascii_compare_digitChar (a b : N) :
  (a < 10)%N -> (b < 10)%N -> Ascii.compare (digitChar a) (digitChar b) = (a ?= b)%N.
Proof.
  intros Ha Hb. unfold Ascii.compare, digitChar.
  destruct (N.ltb_spec a 10) as [_|]; [|lia]. destruct (N.ltb_spec b 10) as [_|]; [|lia].
  rewrite !N_ascii_embedding by lia.
  destruct (N.compare_spec a b) as [->|Hlt|Hgt].
  - apply N.compare_refl.
  - apply N.compare_lt_iff. lia.
  - apply N.compare_gt_iff. lia.
Qed.

Lemma fixedWidth_mod (w : nat) (n : N) :
  fixedWidth w (n mod 10 ^ N.of_nat w)%N = fixedWidth w n.
Proof.
  revert n. induction w as [|w IH]; intros n; [reflexivity|].
  cbn [fixedWidth]. rewrite Nat2N.inj_succ, N.pow_succ_r'.
  set (P := (10 ^ N.of_nat w)%N).
  assert (HP : (0 < P)%N) by (apply N.neq_0_lt_0, N.pow_nonzero; lia).
  rewrite (N.mul_comm 10 P), N.Div0.mod_mul_r.
  set (x := ((n / P) mod 10)%N).
  assert (Hx : (x < 10)%N) by (apply N.mod_lt; lia).
  pose proof (N.mod_lt n P ltac:(lia)) as Hr.
  f_equal.
  - f_equal.
    replace ((n mod P + P * x) / P)%N with x; [now apply N.mod_small|].
    apply (N.div_unique _ _ _ (n mod P)%N); [exact Hr | lia].
  - rewrite <- (IH (n mod P + P * x)%N), <- (IH n). fold P. f_equal.
    symmetry. apply (N.mod_unique _ _ x); [exact Hr | lia].
Qed.

(** Texts that begin with numbers of one width compare as the numbers
    do, then as what follows the numbers. *)
Lemma fixedWidth_compare (w : nat) (a b : N) (r s : string) :
  (a < 10 ^ N.of_nat w)%N -> (b < 10 ^ N.of_nat w)%N ->
  String.compare (fixedWidth w a +:+ r) (fixedWidth w b +:+ s)
  = match (a ?= b)%N with
    | Eq => String.compare r s
    | other => other
    end.
Proof.
  revert a b. induction w as [|w IH]; intros a b Ha Hb.
  - change (10 ^ N.of_nat 0)%N with 1%N in *.
    replace a with 0%N by lia. replace b with 0%N by lia. reflexivity.
  - cbn [fixedWidth]. rewrite !append_cons. cbn [String.compare].
    rewrite Nat2N.inj_succ, N.pow_succ_r' in Ha, Hb.
    set (P := (10 ^ N.of_nat w)%N) in *.
    assert (HP : (0 < P)%N) by (apply N.neq_0_lt_0, N.pow_nonzero; lia).
    assert (Hqa : (a / P < 10)%N) by (apply N.Div0.div_lt_upper_bound; lia).
    assert (Hqb : (b / P < 10)%N) by (apply N.Div0.div_lt_upper_bound; lia).
    rewrite !(N.mod_small (_ / P) 10) by assumption.
    rewrite ascii_compare_digitChar by assumption.
    pose proof (N.div_mod a P ltac:(lia)) as Hda.
    pose proof (N.div_mod b P ltac:(lia)) as Hdb.
    pose proof (N.mod_lt a P ltac:(lia)) as Hma.
    pose proof (N.mod_lt b P ltac:(lia)) as Hmb.
    assert (Hlex : forall qa ra qb rb : N,
               (ra < P)%N -> (rb < P)%N ->
               ((qa < qb)%N -> (P * qa + ra < P * qb + rb)%N)
               /\ (qa = qb -> (ra < rb)%N -> (P * qa + ra < P * qb + rb)%N)).
    { intros qa ra qb rb Hra Hrb. split.
      - intros Hq. assert (P * (qa + 1) <= P * qb)%N by (apply N.mul_le_mono_l; lia).
        rewrite N.mul_add_distr_l, N.mul_1_r in H. lia.
      - intros -> Hr. lia. }
    destruct (N.compare_spec (a / P) (b / P)) as [Heq|Hlt|Hgt].
    + rewrite <- (fixedWidth_mod w a), <- (fixedWidth_mod w b). fold P.
      rewrite IH by assumption.
      replace (a ?= b)%N with (a mod P ?= b mod P)%N; [reflexivity|].
      destruct (N.compare_spec (a mod P) (b mod P)) as [Hm|Hm|Hm].
      * symmetry. apply N.compare_eq_iff. rewrite Hda, Hdb, Heq, Hm. reflexivity.
      * symmetry. apply N.compare_lt_iff. rewrite Hda, Hdb.
        apply (proj2 (Hlex (a / P) (a mod P) (b / P) (b mod P) Hma Hmb)%N); assumption.
      * symmetry. apply N.compare_gt_iff. rewrite Hda, Hdb.
        apply (proj2 (Hlex (b / P) (b mod P) (a / P) (a mod P) Hmb Hma)%N);
          [now symmetry | assumption].
    + assert (Hab : (a ?= b)%N = Lt).
      { apply N.compare_lt_iff. rewrite Hda, Hdb.
        apply (proj1 (Hlex (a / P) (a mod P) (b / P) (b mod P) Hma Hmb)%N); assumption. }
      now rewrite Hab.
    + assert (Hab : (a ?= b)%N = Gt).
      { apply N.compare_gt_iff. rewrite Hda, Hdb.
        apply (proj1 (Hlex (b / P) (b mod P) (a / P) (a mod P) Hmb Hma)%N); assumption. }
      now rewrite Hab.
Qed.

Lemma below_cases_Z (bound : N) (p : Z -> bool) :
  forallb (fun i => p (Z.of_N i)) (map N.of_nat (seq 0 (N.to_nat bound))) = true ->
  forall z, 0 <= z < Z.of_N bound -> p z = true.
Proof.
  intros Hall z Hz.
  pose proof (below_cases (N.to_nat bound) (fun i => p (Z.of_N i)) Hall (Z.to_N z)
                ltac:(lia)) as H.
  cbv beta in H. now rewrite Z2N.id in H by lia.
Qed.

Lemma padStart_2 (n : Z) : 0 <= n < 100 -> padStart 2 n = fixedWidth 2 (Z.to_N n).
Proof.
  intros Hn. apply String.eqb_eq.
  apply (below_cases_Z 100 (fun n => String.eqb (padStart 2 n) (fixedWidth 2 (Z.to_N n))));
    [vm_compute; reflexivity | lia].
Qed.

Lemma padStart_3 (n : Z) : 0 <= n < 1000 -> padStart 3 n = fixedWidth 3 (Z.to_N n).
Proof.
  intros Hn. apply String.eqb_eq.
  apply (below_cases_Z 1000 (fun n => String.eqb (padStart 3 n) (fixedWidth 3 (Z.to_N n))));
    [vm_compute; reflexivity | lia].
Qed.

Lemma padStart_4 (n : Z) : 0 <= n < 10000 -> padStart 4 n = fixedWidth 4 (Z.to_N n).
Proof.
  intros Hn. apply String.eqb_eq.
  apply (below_cases_Z 10000 (fun n => String.eqb (padStart 4 n) (fixedWidth 4 (Z.to_N n))));
    [vm_cast_no_check (eq_refl true) | lia].
Qed.

Lemma compare_number (w : nat) (a b : Z) (r s : string) :
  0 <= a < 10 ^ Z.of_nat w -> 0 <= b < 10 ^ Z.of_nat w ->
  String.compare (fixedWidth w (Z.to_N a) +:+ r) (fixedWidth w (Z.to_N b) +:+ s)
  = match a ?= b with
    | Eq => String.compare r s
    | other => other
    end.
Proof.
  intros Ha Hb.
  assert (Hpow : Z.of_N (10 ^ N.of_nat w) = 10 ^ Z.of_nat w).
  { rewrite N2Z.inj_pow. now rewrite nat_N_Z. }
  rewrite fixedWidth_compare by lia.
  now rewrite <- Z2N.inj_compare by lia.
Qed.

(** The text of a date: [YYYY-MM-DD]. *)
Lemma date_compare (y1 m1 d1 y2 m2 d2 : Z) (r s : string) :
  0 <= y1 < 10000 -> 0 <= m1 < 100 -> 0 <= d1 < 100 ->
  0 <= y2 < 10000 -> 0 <= m2 < 100 -> 0 <= d2 < 100 ->
  String.compare
    (padStart 4 y1 +:+ "-" +:+ padStart 2 m1 +:+ "-" +:+ padStart 2 d1 +:+ r)
    (padStart 4 y2 +:+ "-" +:+ padStart 2 m2 +:+ "-" +:+ padStart 2 d2 +:+ s)
  = match y1 ?= y2 with
    | Eq => match m1 ?= m2 with
            | Eq => match d1 ?= d2 with
                    | Eq => String.compare r s
                    | other => other
                    end
            | other => other
            end
    | other => other
    end.
Proof.
  intros. rewrite !padStart_4, !padStart_2 by assumption.
  rewrite (compare_number 4) by (change (10 ^ Z.of_nat 4) with 10000; assumption).
  destruct (y1 ?= y2); try reflexivity.
  rewrite (compare_common_prefix "-").
  rewrite (compare_number 2) by (change (10 ^ Z.of_nat 2) with 100; assumption).
  destruct (m1 ?= m2); try reflexivity.
  rewrite (compare_common_prefix "-").
  now rewrite (compare_number 2) by (change (10 ^ Z.of_nat 2) with 100; assumption).
Qed.

(** The dates of two days compare as the days do. *)
Lemma civil_compare (a b : Z) :
  let '(y1, m1, d1) := civilFromDays a in
  let '(y2, m2, d2) := civilFromDays b in
  match y1 ?= y2 with
  | Eq => match m1 ?= m2 with
          | Eq => d1 ?= d2
          | other => other
          end
  | other => other
  end = (a ?= b).
Proof.
  destruct (civil_fields a) as (Hm1 & Hd1 & _).
  destruct (civil_fields b) as (Hm2 & Hd2 & _).
  pose proof (civilKey_mono a b) as Hab. pose proof (civilKey_mono b a) as Hba.
  unfold civilKey in Hab, Hba.
  destruct (Z.compare_spec a b) as [->|Hlt|Hgt].
  - destruct (civilFromDays b) as [[y m] d]. now rewrite !Z.compare_refl.
  - specialize (Hab Hlt). clear Hba.
    destruct (civilFromDays a) as [[y1 m1] d1], (civilFromDays b) as [[y2 m2] d2].
    cbn [fst snd] in *.
    destruct (Z.compare_spec y1 y2); [|reflexivity|lia].
    destruct (Z.compare_spec m1 m2); [|reflexivity|lia].
    apply Z.compare_lt_iff. lia.
  - specialize (Hba Hgt). clear Hab.
    destruct (civilFromDays a) as [[y1 m1] d1], (civilFromDays b) as [[y2 m2] d2].
    cbn [fst snd] in *.
    destruct (Z.compare_spec y1 y2); [|lia|reflexivity].
    destruct (Z.compare_spec m1 m2); [|lia|reflexivity].
    apply Z.compare_gt_iff. lia.
Qed.


(** ** Expiry texts and [datetime('now')] *)

Lemma toISOString_text (t : Z) :
  fourDigitYear t ->
  toISOString t
  = Normal (padStart 4 (civilFromDays (utcDay t)).1.1 +:+ "-" +:+
            padStart 2 (civilFromDays (utcDay t)).1.2 +:+ "-" +:+
            padStart 2 (civilFromDays (utcDay t)).2 +:+ "T" +:+
            timeOfDay (t mod 86400000) +:+ "." +:+
            padStart 3 (t mod 86400000 mod 1000) +:+ "Z").
Proof.
  intros Ht. pose proof (civil_year_range t Ht) as Hy.
  unfold fourDigitYear in Ht. unfold toISOString, utcDay in *.
  destruct (Z.gtb_spec (Z.abs t) 8640000000000000) as [Hbad|_]; [lia|].
  destruct (civilFromDays (t / 86400000)) as [[y m] d]. cbn [fst snd] in *.
  unfold isoYear.
  destruct (Z.leb_spec 0 y) as [_|]; [|lia]. destruct (Z.leb_spec y 9999) as [_|]; [|lia].
  reflexivity.
Qed.

Lemma sqliteDatetimeNow_text (t : Z) :
  Cache.sqliteDatetimeNow t
  = padStart 4 (civilFromDays (utcDay t)).1.1 +:+ "-" +:+
    padStart 2 (civilFromDays (utcDay t)).1.2 +:+ "-" +:+
    padStart 2 (civilFromDays (utcDay t)).2 +:+ " " +:+
    timeOfDay (t mod 86400000).
Proof.
  unfold Cache.sqliteDatetimeNow, utcDay.
  destruct (civilFromDays (t / 86400000)) as [[y m] d]. reflexivity.
Qed.

(** The dates of two time values, each followed by some text, compare as
    the days of the time values do, then as the texts. *)
Lemma day_text_compare (a b : Z) (r s : string) :
  fourDigitYear a -> fourDigitYear b ->
  String.compare
    (padStart 4 (civilFromDays (utcDay a)).1.1 +:+ "-" +:+
     padStart 2 (civilFromDays (utcDay a)).1.2 +:+ "-" +:+
     padStart 2 (civilFromDays (utcDay a)).2 +:+ r)
    (padStart 4 (civilFromDays (utcDay b)).1.1 +:+ "-" +:+
     padStart 2 (civilFromDays (utcDay b)).1.2 +:+ "-" +:+
     padStart 2 (civilFromDays (utcDay b)).2 +:+ s)
  = match utcDay a ?= utcDay b with
    | Eq => String.compare r s
    | other => other
    end.
Proof.
  intros Ha Hb.
  pose proof (civil_year_range a Ha) as Hya. pose proof (civil_year_range b Hb) as Hyb.
  destruct (civil_fields (utcDay a)) as (Hma & Hda & _).
  destruct (civil_fields (utcDay b)) as (Hmb & Hdb & _).
  pose proof (civil_compare (utcDay a) (utcDay b)) as Hcmp.
  destruct (civilFromDays (utcDay a)) as [[y1 m1] d1].
  destruct (civilFromDays (utcDay b)) as [[y2 m2] d2]. cbn [fst snd] in *.
  rewrite date_compare by lia. rewrite <- Hcmp.
  destruct (y1 ?= y2); try reflexivity.
  destruct (m1 ?= m2); reflexivity.
Qed.

Lemma expiry_against_now (expiresMs nowMs : Z) :
  fourDigitYear expiresMs -> fourDigitYear nowMs ->
  exists iso,
    toISOString expiresMs = Normal iso
    /\ Cache.textGt iso (Cache.sqliteDatetimeNow nowMs) = (utcDay nowMs <=? utcDay expiresMs)
    /\ Cache.textLt iso (Cache.sqliteDatetimeNow nowMs) = (utcDay expiresMs <? utcDay nowMs).
Proof.
  intros He Hn. eexists. split; [now apply toISOString_text|].
  rewrite sqliteDatetimeNow_text. unfold Cache.textGt, Cache.textLt, String.ltb.
  rewrite !day_text_compare by assumption.
  rewrite (Z.compare_antisym (utcDay nowMs) (utcDay expiresMs)).
  destruct (Z.compare_spec (utcDay nowMs) (utcDay expiresMs)) as [Heq|Hlt|Hgt]; cbn [CompOpp].
  - rewrite Heq, Z.leb_refl, Z.ltb_irrefl. split; reflexivity.
  - destruct (Z.leb_spec (utcDay nowMs) (utcDay expiresMs)); [|lia].
    destruct (Z.ltb_spec (utcDay expiresMs) (utcDay nowMs)); [lia|]. split; reflexivity.
  - destruct (Z.leb_spec (utcDay nowMs) (utcDay expiresMs)); [lia|].
    destruct (Z.ltb_spec (utcDay expiresMs) (utcDay nowMs)); [|lia]. split; reflexivity.
Qed.


(** ** The cache table *)

Lemma accepts_inv (l : Cache.Locals) (stmt : Cache.Statement) :
  accepts l stmt ->
  exists db, Cache.DB l = Some db /\ Cache.rejects db stmt = false
             /\ Cache.prepare l stmt = Normal db.
Proof.
  intros [db Hprep]. exists db. unfold Cache.prepare in *.
  destruct (Cache.DB l) as [db'|]; [|discriminate].
  destruct (Cache.rejects db' stmt) eqn:Hrej; [discriminate|].
  injection Hprep as ->. repeat split; try assumption.
Qed.

Lemma find_app {A : Type} (p : A -> bool) (l1 l2 : list A) :
  find p (l1 ++ l2)%list = match find p l1 with
                           | Some x => Some x
                           | None => find p l2
                           end.
Proof.
  induction l1 as [|x l1 IH]; [reflexivity|].
  cbn [app find]. destruct (p x); [reflexivity | exact IH].
Qed.

(** A search that looks only at elements a filter keeps finds the same
    element before and after the filter. *)
Lemma find_filter {A : Type} (p keep : A -> bool) (l : list A) :
  (forall x, p x = true -> keep x = true) -> find p (List.filter keep l) = find p l.
Proof.
  intros Hkeep. induction l as [|x l IH]; [reflexivity|].
  cbn [List.filter find]. destruct (p x) eqn:Hp.
  - rewrite (Hkeep x Hp). cbn [find]. now rewrite Hp.
  - destruct (keep x); [cbn [find]; rewrite Hp|]; exact IH.
Qed.

Lemma getCachedPreview_on (l : Cache.Locals) (db : Cache.D1Database) (key : string) (now : Z) :
  Cache.DB l = Some db -> Cache.rejects db Cache.SelectLive = false ->
  Cache.getCachedPreview key l now
  = Normal (match Cache.selectLive (Cache.rendered_previews db) key now with
            | Some r => Some {| Cache.entry_html := Cache.html r;
                                Cache.entry_css := Cache.css r;
                                Cache.entry_renderTimeMs := default 0 (Cache.render_time_ms r) |}
            | None => None
            end).
Proof.
  intros Hdb Hrej. unfold Cache.getCachedPreview, Cache.prepare. rewrite Hdb, Hrej.
  cbn [bind tryCatch]. destruct (Cache.selectLive _ key now); reflexivity.
Qed.

Lemma getCachedPreview_off (l : Cache.Locals) (key : string) (now : Z) :
  (forall db, Cache.DB l = Some db -> Cache.rejects db Cache.SelectLive = true) ->
  Cache.getCachedPreview key l now = Normal None.
Proof.
  intros Hoff. unfold Cache.getCachedPreview, Cache.prepare.
  destruct (Cache.DB l) as [db|]; [|reflexivity].
  now rewrite (Hoff db eq_refl).
Qed.

Lemma getCachedPreview_withTable (db : Cache.D1Database) (t : Cache.Table)
    (key : string) (now : Z) :
  Cache.rejects db Cache.SelectLive = false ->
  Cache.getCachedPreview key (Cache.withTable db t) now
  = Normal (match Cache.selectLive t key now with
            | Some r => Some {| Cache.entry_html := Cache.html r;
                                Cache.entry_css := Cache.css r;
                                Cache.entry_renderTimeMs := default 0 (Cache.render_time_ms r) |}
            | None => None
            end).
Proof. intros Hrej. now apply (getCachedPreview_on (Cache.withTable db t) _ key now eq_refl). Qed.

Lemma getCachedPreview_after_set (key slug : string) (preset : option string)
    (entry : Cache.CacheEntry) (ttl : Z) (l : Cache.Locals) (writtenAt readAt : Z) :
  accepts l Cache.InsertOrReplace -> accepts l Cache.SelectLive ->
  fourDigitYear writtenAt -> fourDigitYear (writtenAt + ttl * 60 * 1000) ->
  fourDigitYear readAt ->
  Cache.getCachedPreview key
    (Cache.setCachedPreview key slug preset entry ttl l writtenAt).2 readAt
  = Normal (if utcDay readAt <=? utcDay (writtenAt + ttl * 60 * 1000)
            then Some entry else None).
Proof.
  intros Hins Hsel Hw He Hr.
  destruct (accepts_inv _ _ Hins) as (db & Hdb & _ & Hprep).
  destruct (accepts_inv _ _ Hsel) as (db' & Hdb' & Hrej & _).
  assert (db' = db) by congruence. subst db'.
  destruct (expiry_against_now _ _ He Hr) as (iso & Hiso & Hgt & _).
  unfold Cache.setCachedPreview. rewrite (toISOString_text writtenAt Hw), Hiso, Hprep.
  cbn [bind snd].
  rewrite (getCachedPreview_withTable db _ key readAt Hrej).
  unfold Cache.selectLive, Cache.insertOrReplace.
  cbv zeta. cbn [Cache.rows]. rewrite find_app.
  rewrite find_none_of_forall.
  2:{ intros row Hrow. apply list_elem_of_In, filter_In in Hrow. destruct Hrow as [_ Hrow].
      apply negb_true_iff in Hrow. now rewrite Hrow. }
  cbn [find Cache.cache_key Cache.expires_at]. rewrite String.eqb_refl, Hgt. cbn [andb].
  destruct (utcDay readAt <=? utcDay (writtenAt + ttl * 60 * 1000)); [|reflexivity].
  destruct entry. reflexivity.
Qed.

(** X15.  A write followed by a read of the same key.  On a backend that
    accepts both statements, [getCachedPreview] returns the entry that
    [setCachedPreview] stored under the key, whatever the table held
    under it before, as long as the UTC day of the read is not after the
    UTC day of the expiry; from the next UTC day on it reports the key
    as absent.  The time of day plays no part: the expiry is stored with
    a [T] after the date, and [datetime('now')] has a space there. *)
Theorem setCachedPreview_then_getCachedPreview (key slug : string) (preset : option string)
    (entry : Cache.CacheEntry) (ttl : Z) (l : Cache.Locals) (writtenAt readAt : Z) :
  accepts l Cache.InsertOrReplace -> accepts l Cache.SelectLive ->
  fourDigitYear writtenAt -> fourDigitYear (writtenAt + ttl * 60 * 1000) ->
  fourDigitYear readAt ->
  Cache.getCachedPreview key
    (Cache.setCachedPreview key slug preset entry ttl l writtenAt).2 readAt
  = Normal (if utcDay readAt <=? utcDay (writtenAt + ttl * 60 * 1000)
            then Some entry else None).
Proof. apply getCachedPreview_after_set. Qed.

Lemma setCachedPreview_then_getCachedPreview_witness :
  Cache.getCachedPreview "hero-banner"
    (Cache.setCachedPreview "hero-banner" "hero-banner" None heroEntry 60
       (healthyBackend emptyTable) 1793613600000).2 (1793613600000 + 1800000)
  = Normal (Some heroEntry).
Proof.
  apply (setCachedPreview_then_getCachedPreview "hero-banner" "hero-banner" None heroEntry 60
           (healthyBackend emptyTable) 1793613600000 (1793613600000 + 1800000)).
  - eexists. reflexivity.
  - eexists. reflexivity.
  - unfold fourDigitYear. lia.
  - unfold fourDigitYear. lia.
  - unfold fourDigitYear. lia.
Defined.





(** ** Invalidation and the sweep *)

Lemma filter_length_split {A : Type} (p : A -> bool) (l : list A) :
  (length (List.filter p l) + length (List.filter (fun x => negb (p x)) l) = length l)%nat.
Proof.
  induction l as [|x l IH]; [reflexivity|].
  cbn [List.filter]. destruct (p x); cbn [negb length]; lia.
Qed.

Lemma filter_idempotent {A : Type} (p : A -> bool) (l : list A) :
  List.filter p (List.filter p l) = List.filter p l.
Proof.
  induction l as [|x l IH]; [reflexivity|].
  cbn [List.filter]. destruct (p x) eqn:Hp; [|exact IH].
  cbn [List.filter]. now rewrite Hp, IH.
Qed.

Lemma deleteWhere_spec (t : Cache.Table) (cond : Cache.RenderedPreviewRow -> bool) :
  Cache.rows (Cache.deleteWhere t cond).1 = List.filter (fun r => negb (cond r)) (Cache.rows t)
  /\ (Cache.deleteWhere t cond).2 = Z.of_nat (length (List.filter cond (Cache.rows t))).
Proof.
  unfold Cache.deleteWhere. cbv zeta. cbn [fst snd Cache.rows]. split; [reflexivity|].
  pose proof (filter_length_split cond (Cache.rows t)). lia.
Qed.

Lemma filter_none_after {A : Type} (p : A -> bool) (l : list A) :
  List.filter p (List.filter (fun x => negb (p x)) l) = [].
Proof.
  induction l as [|x l IH]; [reflexivity|].
  cbn [List.filter]. destruct (p x) eqn:Hp; cbn [negb]; [exact IH|].
  cbn [List.filter]. now rewrite Hp.
Qed.

Lemma delete_on (l : Cache.Locals) (db : Cache.D1Database) (stmt : Cache.Statement)
    (cond : Cache.RenderedPreviewRow -> bool) :
  Cache.DB l = Some db -> Cache.rejects db stmt = false ->
  match Cache.prepare l stmt with
  | Normal db =>
      let '(t, changes) := Cache.deleteWhere (Cache.rendered_previews db) cond in
      (Normal changes, Cache.withTable db t)
  | Throw error => (Normal 0, l)
  end
  = (Normal (Z.of_nat (length (List.filter cond (Cache.rows (Cache.rendered_previews db))))),
     Cache.withTable db
       {| Cache.rows := List.filter (fun r => negb (cond r))
                          (Cache.rows (Cache.rendered_previews db));
          Cache.lastId := Cache.lastId (Cache.rendered_previews db) |}).
Proof.
  intros Hdb Hrej. unfold Cache.prepare. rewrite Hdb, Hrej.
  unfold Cache.deleteWhere. cbv zeta. f_equal. f_equal.
  pose proof (filter_length_split cond (Cache.rows (Cache.rendered_previews db))). lia.
Qed.

Lemma delete_withTable (db : Cache.D1Database) (t : Cache.Table) (stmt : Cache.Statement)
    (cond : Cache.RenderedPreviewRow -> bool) :
  Cache.rejects db stmt = false ->
  match Cache.prepare (Cache.withTable db t) stmt with
  | Normal db =>
      let '(t, changes) := Cache.deleteWhere (Cache.rendered_previews db) cond in
      (Normal changes, Cache.withTable db t)
  | Throw error => (Normal 0, Cache.withTable db t)
  end
  = (Normal (Z.of_nat (length (List.filter cond (Cache.rows t)))),
     Cache.withTable db
       {| Cache.rows := List.filter (fun r => negb (cond r)) (Cache.rows t);
          Cache.lastId := Cache.lastId t |}).
Proof. intros Hrej. now apply (delete_on (Cache.withTable db t) _ stmt cond eq_refl). Qed.

Lemma tableOf_withTable (db : Cache.D1Database) (t : Cache.Table) :
  tableOf (Cache.withTable db t) = Cache.rows t.
Proof. reflexivity. Qed.

Lemma tableOf_on (l : Cache.Locals) (db : Cache.D1Database) :
  Cache.DB l = Some db -> tableOf l = Cache.rows (Cache.rendered_previews db).
Proof. intros Hdb. unfold tableOf. now rewrite Hdb. Qed.

(** X17.  [invalidateSectionCache], on a backend that accepts the
    statement, removes exactly the rows of the section and returns their
    number; the rows of the other sections stay, in their order.  A
    second invalidation finds nothing to remove and changes nothing. *)
Theorem invalidateSectionCache_removes_the_section (slug : string) (l : Cache.Locals) :
  accepts l Cache.DeleteBySection ->
  let after := (Cache.invalidateSectionCache slug l).2 in
  (Cache.invalidateSectionCache slug l).1
  = Normal (Z.of_nat (length (List.filter (fun r => String.eqb (Cache.section_slug r) slug)
                                (tableOf l))))
  /\ tableOf after
     = List.filter (fun r => negb (String.eqb (Cache.section_slug r) slug)) (tableOf l)
  /\ Cache.invalidateSectionCache slug after = (Normal 0, after).
Proof.
  intros Hacc. destruct (accepts_inv _ _ Hacc) as (db & Hdb & Hrej & _).
  cbv zeta. unfold Cache.invalidateSectionCache.
  rewrite (delete_on l db _ _ Hdb Hrej), (tableOf_on l db Hdb). cbn [fst snd].
  split; [reflexivity|]. split; [reflexivity|].
  rewrite (delete_withTable db _ _ _ Hrej). cbn [Cache.rows Cache.lastId].
  now rewrite filter_none_after, filter_idempotent.
Qed.

Lemma invalidateSectionCache_removes_the_section_witness :
  let stored := (Cache.setCachedPreview "hero-banner" "hero-banner" None heroEntry 60
                   (healthyBackend emptyTable) 1793613600000).2 in
  (Cache.invalidateSectionCache "hero-banner" stored).1 = Normal 1
  /\ tableOf (Cache.invalidateSectionCache "hero-banner" stored).2 = [].
Proof.
  cbv zeta.
  destruct (invalidateSectionCache_removes_the_section "hero-banner"
              (Cache.setCachedPreview "hero-banner" "hero-banner" None heroEntry 60
                 (healthyBackend emptyTable) 1793613600000).2) as (Hcount & Hrows & _).
  - eexists. reflexivity.
  - split; [exact Hcount | exact Hrows].
Defined.

(** X18.  [invalidatePresetCache] never removes an entry that was
    rendered without a preset (its [preset_slug] is NULL, which equals
    no slug), nor an entry of another preset; on a backend that accepts
    the statement it removes every row of the preset and returns their
    number. *)
Theorem invalidatePresetCache_spares_other_rows (presetSlug : string) (l : Cache.Locals) :
  let after := (Cache.invalidatePresetCache presetSlug l).2 in
  (forall row, row ∈ tableOf l -> Cache.preset_slug row <> Some presetSlug ->
               row ∈ tableOf after)
  /\ (accepts l Cache.DeleteByPreset ->
      (forall row, row ∈ tableOf after ->
                   row ∈ tableOf l /\ Cache.preset_slug row <> Some presetSlug)
      /\ (Cache.invalidatePresetCache presetSlug l).1
         = Normal (Z.of_nat (length (List.filter
                                       (fun r => bool_decide (Cache.preset_slug r = Some presetSlug))
                                       (tableOf l))))).
Proof.
  cbv zeta.
  set (cond := fun r : Cache.RenderedPreviewRow =>
                 match Cache.preset_slug r with
                 | Some p => String.eqb p presetSlug
                 | None => false
                 end).
  assert (Hcond : forall r, cond r = bool_decide (Cache.preset_slug r = Some presetSlug)).
  { intros r. unfold cond. destruct (Cache.preset_slug r) as [p|].
    - destruct (String.eqb_spec p presetSlug) as [->|Hne].
      + now rewrite bool_decide_eq_true_2.
      + rewrite bool_decide_eq_false_2; [reflexivity | congruence].
    - now rewrite bool_decide_eq_false_2. }
  unfold Cache.invalidatePresetCache. fold cond.
  destruct (Cache.DB l) as [db|] eqn:Hdb.
  2:{ unfold Cache.prepare. rewrite Hdb. cbn [snd]. split; [auto|].
      intros [db Hprep]. unfold Cache.prepare in Hprep. now rewrite Hdb in Hprep. }
  destruct (Cache.rejects db Cache.DeleteByPreset) eqn:Hrej.
  { unfold Cache.prepare. rewrite Hdb, Hrej. cbn [snd]. split; [auto|].
    intros [db' Hprep]. unfold Cache.prepare in Hprep. now rewrite Hdb, Hrej in Hprep. }
  rewrite (delete_on l db _ cond Hdb Hrej), (tableOf_on l db Hdb). cbn [fst snd].
  rewrite tableOf_withTable. cbn [Cache.rows].
  split; [|intros _; split].
  - intros row Hrow Hother. apply list_elem_of_In, filter_In.
    split; [now apply list_elem_of_In|].
    rewrite Hcond. apply negb_true_iff. now apply bool_decide_eq_false_2.
  - intros row Hrow. apply list_elem_of_In, filter_In in Hrow. destruct Hrow as [Hin Hkeep].
    split; [now apply list_elem_of_In|].
    rewrite Hcond in Hkeep. apply negb_true_iff in Hkeep.
    now apply bool_decide_eq_false_1 in Hkeep.
  - do 2 f_equal. f_equal. clear -Hcond.
    induction (Cache.rows (Cache.rendered_previews db)) as [|r rows IH]; [reflexivity|].
    cbn [List.filter]. now rewrite Hcond, IH.
Qed.


Lemma textGt_not_textLt (a b : string) :
  Cache.textGt a b = true -> Cache.textLt a b = false.
Proof.
  unfold Cache.textGt, Cache.textLt, String.ltb.
  rewrite (String.compare_antisym b a).
  destruct (String.compare a b); cbn; congruence.
Qed.

Lemma cleanup_on (l : Cache.Locals) (db : Cache.D1Database) (now : Z) :
  Cache.DB l = Some db -> Cache.rejects db Cache.DeleteExpired = false ->
  Cache.cleanupExpiredCache l now
  = (Normal (Z.of_nat (length (List.filter
                                 (fun r => Cache.textLt (Cache.expires_at r)
                                             (Cache.sqliteDatetimeNow now))
                                 (Cache.rows (Cache.rendered_previews db))))),
     Cache.withTable db
       {| Cache.rows := List.filter
                          (fun r => negb (Cache.textLt (Cache.expires_at r)
                                            (Cache.sqliteDatetimeNow now)))
                          (Cache.rows (Cache.rendered_previews db));
          Cache.lastId := Cache.lastId (Cache.rendered_previews db) |}).
Proof. intros Hdb Hrej. unfold Cache.cleanupExpiredCache. now apply delete_on. Qed.

Lemma cleanup_off (l : Cache.Locals) (now : Z) :
  ~ accepts l Cache.DeleteExpired -> Cache.cleanupExpiredCache l now = (Normal 0, l).
Proof.
  intros Hno. unfold Cache.cleanupExpiredCache.
  destruct (Cache.prepare l Cache.DeleteExpired) as [db|] eqn:Hprep; [|reflexivity].
  exfalso. apply Hno. now exists db.
Qed.

(** X19.  The sweep is invisible to the lookups: what [getCachedPreview]
    returns for a key at an instant is the same before and after
    [cleanupExpiredCache] ran at that instant.  The sweep deletes only
    rows that no lookup would return. *)
Theorem cleanupExpiredCache_is_invisible_to_lookups (l : Cache.Locals) (key : string)
    (now : Z) :
  Cache.getCachedPreview key (Cache.cleanupExpiredCache l now).2 now
  = Cache.getCachedPreview key l now.
Proof.
  destruct (Cache.DB l) as [db|] eqn:Hdb.
  2:{ rewrite cleanup_off; [reflexivity|].
      intros [db Hprep]. unfold Cache.prepare in Hprep. now rewrite Hdb in Hprep. }
  destruct (Cache.rejects db Cache.DeleteExpired) eqn:Hrej.
  { rewrite cleanup_off; [reflexivity|].
    intros [db' Hprep]. unfold Cache.prepare in Hprep. now rewrite Hdb, Hrej in Hprep. }
  rewrite (cleanup_on l db now Hdb Hrej). cbn [snd].
  destruct (Cache.rejects db Cache.SelectLive) eqn:Hsel.
  - rewrite !getCachedPreview_off; [reflexivity| |].
    + intros db' Hdb'. assert (db' = db) by congruence. now subst db'.
    + intros db' [= <-]. exact Hsel.
  - rewrite (getCachedPreview_on l db key now Hdb Hsel).
    rewrite (getCachedPreview_withTable db _ key now Hsel). f_equal.
    unfold Cache.selectLive. cbn [Cache.rows]. rewrite find_filter; [reflexivity|].
    intros row Hrow. apply andb_true_iff in Hrow. destruct Hrow as [_ Hlive].
    apply negb_true_iff. now apply textGt_not_textLt.
Qed.

(** X20.  Which entries the sweep removes.  On a backend that accepts
    the statement, a row whose expiry was written by [toISOString] stays
    in the table exactly when the UTC day of the sweep is not after the
    UTC day of the expiry: an entry that expired earlier on the day of
    the sweep is kept, and an entry whose expiry lies ahead is never
    removed. *)
Theorem cleanupExpiredCache_removes_by_day (l : Cache.Locals) (now expiresMs : Z)
    (row : Cache.RenderedPreviewRow) :
  accepts l Cache.DeleteExpired ->
  fourDigitYear now -> fourDigitYear expiresMs ->
  row ∈ tableOf l ->
  toISOString expiresMs = Normal (Cache.expires_at row) ->
  (row ∈ tableOf (Cache.cleanupExpiredCache l now).2 <-> utcDay now <= utcDay expiresMs).
Proof.
  intros Hacc Hnow Hexp Hrow Hiso.
  destruct (accepts_inv _ _ Hacc) as (db & Hdb & Hrej & _).
  rewrite (cleanup_on l db now Hdb Hrej). cbn [snd].
  rewrite tableOf_withTable. cbn [Cache.rows].
  rewrite (tableOf_on l db Hdb) in Hrow.
  destruct (expiry_against_now _ _ Hexp Hnow) as (iso & Hiso' & _ & Hlt).
  assert (iso = Cache.expires_at row) by congruence. subst iso.
  split.
  - intros Hkept. apply list_elem_of_In, filter_In in Hkept. destruct Hkept as [_ Hkept].
    rewrite Hlt in Hkept. apply negb_true_iff, Z.ltb_ge in Hkept. exact Hkept.
  - intros Hday. apply list_elem_of_In, filter_In. split; [now apply list_elem_of_In|].
    rewrite Hlt. apply negb_true_iff, Z.ltb_ge. exact Hday.
Qed.

Lemma cleanupExpiredCache_removes_by_day_witness :
  heroRow ∈ tableOf (Cache.cleanupExpiredCache (healthyBackend heroTable)
                       (1793613600000 + 3 * 3600000)).2.
Proof.
  apply (cleanupExpiredCache_removes_by_day (healthyBackend heroTable)
           (1793613600000 + 3 * 3600000) (1793613600000 + 3600000) heroRow).
  - eexists. reflexivity.
  - unfold fourDigitYear. lia.
  - unfold fourDigitYear. lia.
  - apply list_elem_of_In. now left.
  - reflexivity.
  - vm_compute. discriminate.
Defined.

(** ** Cache statistics *)

Lemma sqlLength_nonneg (s : string) : 0 <= CacheStats.sqlLength s.
Proof.
  induction s as [|c s IH]; [reflexivity|].
  cbn [CacheStats.sqlLength]. destruct (N_of_ascii c =? 0)%N; lia.
Qed.

Lemma sumSize_nonneg (t : Cache.Table) : 0 <= default 0 (CacheStats.sumSize t).
Proof.
  unfold CacheStats.sumSize.
  assert (Hfold : forall rows total, 0 <= total ->
            0 <= fold_left
                   (fun total r =>
                      total + (CacheStats.sqlLength (Cache.html r)
                               + match Cache.css r with
                                 | Some css => CacheStats.sqlLength css
                                 | None => 0
                                 end)) rows total).
  { induction rows as [|r rows IH]; intros total Htotal; [exact Htotal|].
    cbn [fold_left]. apply IH.
    pose proof (sqlLength_nonneg (Cache.html r)).
    destruct (Cache.css r) as [css|]; [pose proof (sqlLength_nonneg css)|]; lia. }
  destruct (Cache.rows t) as [|r rows]; [reflexivity|].
  cbn [default from_option id]. apply Hfold. lia.
Qed.

Lemma filter_length_le {A : Type} (p : A -> bool) (l : list A) :
  (length (List.filter p l) <= length l)%nat.
Proof. pose proof (filter_length_split p l). lia. Qed.

(** X21.  [getCacheStats] never throws.  The number of expired entries
    it reports lies between 0 and the number of entries, the size is not
    negative, and when the backend is not bound or rejects one of the
    three statements, the three numbers are 0. *)
Theorem getCacheStats_is_total_and_bounded (l : Cache.Locals)
    (rejects : CacheStats.StatsStatement -> bool) (now : Z) :
  exists stats,
    CacheStats.getCacheStats l rejects now = Normal stats
    /\ 0 <= CacheStats.expiredEntries stats <= CacheStats.totalEntries stats
    /\ 0 <= CacheStats.totalSizeKb stats
    /\ (Cache.DB l = None \/ (exists q, rejects q = true) ->
        stats = {| CacheStats.totalEntries := 0; CacheStats.expiredEntries := 0;
                   CacheStats.totalSizeKb := 0 |}).
Proof.
  unfold CacheStats.getCacheStats.
  destruct (Cache.DB l) as [db|].
  2:{ eexists. split; [reflexivity|]. cbn. repeat split; lia. }
  destruct (rejects CacheStats.CountAll) eqn:H1; cbn [orb].
  { eexists. split; [reflexivity|]. cbn. repeat split; lia. }
  destruct (rejects CacheStats.CountExpired) eqn:H2.
  { eexists. split; [reflexivity|]. cbn. repeat split; lia. }
  destruct (rejects CacheStats.SumSize) eqn:H3.
  { eexists. split; [reflexivity|]. cbn. repeat split; lia. }
  eexists. split; [reflexivity|]. cbn [CacheStats.expiredEntries CacheStats.totalEntries
                                      CacheStats.totalSizeKb].
  unfold CacheStats.countWhere, CacheStats.roundKb.
  pose proof (sumSize_nonneg (Cache.rendered_previews db)) as Hsize.
  split; [|split].
  - split; [lia|]. apply Nat2Z.inj_le.
    eapply Nat.le_trans; [apply filter_length_le|].
    clear. induction (Cache.rows (Cache.rendered_previews db)) as [|r rows IH]; simpl; lia.
  - apply Z.div_pos; lia.
  - intros [Hnone|[q Hq]]; [discriminate|]. destruct q; congruence.
Qed.



(** ** Timestamps *)

Lemma time_fields (a : Z) :
  0 <= a < 86400000 ->
  0 <= a / 3600000 < 100 /\ 0 <= a / 60000 mod 60 < 100
  /\ 0 <= a / 1000 mod 60 < 100 /\ 0 <= a mod 1000 < 1000.
Proof. intros Ha. Z.to_euclidean_division_equations. lia. Qed.

Lemma time_lex (a b : Z) :
  0 <= a < 86400000 -> 0 <= b < 86400000 ->
  match a / 3600000 ?= b / 3600000 with
  | Eq => match a / 60000 mod 60 ?= b / 60000 mod 60 with
          | Eq => match a / 1000 mod 60 ?= b / 1000 mod 60 with
                  | Eq => a mod 1000 ?= b mod 1000
                  | other => other
                  end
          | other => other
          end
  | other => other
  end = (a ?= b).
Proof.
  intros Ha Hb.
  destruct (Z.compare_spec (a / 3600000) (b / 3600000)) as [H1|H1|H1].
  - destruct (Z.compare_spec (a / 60000 mod 60) (b / 60000 mod 60)) as [H2|H2|H2].
    + destruct (Z.compare_spec (a / 1000 mod 60) (b / 1000 mod 60)) as [H3|H3|H3].
      * destruct (Z.compare_spec (a mod 1000) (b mod 1000)) as [H4|H4|H4]; symmetry.
        -- apply Z.compare_eq_iff. Z.to_euclidean_division_equations. lia.
        -- apply Z.compare_lt_iff. Z.to_euclidean_division_equations. lia.
        -- apply Z.compare_gt_iff. Z.to_euclidean_division_equations. lia.
      * symmetry. apply Z.compare_lt_iff. Z.to_euclidean_division_equations. lia.
      * symmetry. apply Z.compare_gt_iff. Z.to_euclidean_division_equations. lia.
    + symmetry. apply Z.compare_lt_iff. Z.to_euclidean_division_equations. lia.
    + symmetry. apply Z.compare_gt_iff. Z.to_euclidean_division_equations. lia.
  - symmetry. apply Z.compare_lt_iff. Z.to_euclidean_division_equations. lia.
  - symmetry. apply Z.compare_gt_iff. Z.to_euclidean_division_equations. lia.
Qed.

Lemma time_text_compare (a b : Z) :
  0 <= a < 86400000 -> 0 <= b < 86400000 ->
  String.compare
    ("T" +:+ timeOfDay a +:+ "." +:+ padStart 3 (a mod 1000) +:+ "Z")
    ("T" +:+ timeOfDay b +:+ "." +:+ padStart 3 (b mod 1000) +:+ "Z")
  = (a ?= b).
Proof.
  intros Ha Hb.
  destruct (time_fields a Ha) as (Ha1 & Ha2 & Ha3 & Ha4).
  destruct (time_fields b Hb) as (Hb1 & Hb2 & Hb3 & Hb4).
  rewrite <- (time_lex a b Ha Hb).
  rewrite (compare_common_prefix "T"). unfold timeOfDay.
  rewrite !padStart_2, !padStart_3 by assumption. rewrite !append_assoc.
  rewrite (compare_number 2) by (change (10 ^ Z.of_nat 2) with 100; assumption).
  destruct (a / 3600000 ?= b / 3600000); try reflexivity.
  rewrite (compare_common_prefix ":").
  rewrite (compare_number 2) by (change (10 ^ Z.of_nat 2) with 100; assumption).
  destruct (a / 60000 mod 60 ?= b / 60000 mod 60); try reflexivity.
  rewrite (compare_common_prefix ":").
  rewrite (compare_number 2) by (change (10 ^ Z.of_nat 2) with 100; assumption).
  destruct (a / 1000 mod 60 ?= b / 1000 mod 60); try reflexivity.
  rewrite (compare_common_prefix ".").
  rewrite (compare_number 3) by (change (10 ^ Z.of_nat 3) with 1000; assumption).
  destruct (a mod 1000 ?= b mod 1000); reflexivity.
Qed.

(** X23.  The timestamps of [now()] sort as time runs: for two instants
    of the years 0000 to 9999, the texts that [toISOString] returns
    compare, code unit by code unit, as the instants do.  The order of
    the [created_at] and [expires_at] columns, which are TEXT, is thus
    the order of the instants they were computed from. *)
Theorem now_timestamps_sort_chronologically (t1 t2 : Z) :
  fourDigitYear t1 -> fourDigitYear t2 ->
  exists s1 s2,
    Db.now t1 = Normal s1 /\ Db.now t2 = Normal s2
    /\ String.compare s1 s2 = (t1 ?= t2)
    /\ String.length s1 = 24%nat.
Proof.
  intros H1 H2. unfold Db.now.
  rewrite (toISOString_text t1 H1), (toISOString_text t2 H2).
  eexists _, _. split; [reflexivity|]. split; [reflexivity|].
  pose proof (Z.mod_pos_bound t1 86400000 ltac:(lia)) as Ha.
  pose proof (Z.mod_pos_bound t2 86400000 ltac:(lia)) as Hb.
  split.
  - rewrite day_text_compare by assumption.
    rewrite time_text_compare by assumption. unfold utcDay.
    destruct (Z.compare_spec (t1 / 86400000) (t2 / 86400000)) as [Hd|Hd|Hd].
    + destruct (Z.compare_spec (t1 mod 86400000) (t2 mod 86400000)) as [Hm|Hm|Hm]; symmetry.
      * apply Z.compare_eq_iff. Z.to_euclidean_division_equations. lia.
      * apply Z.compare_lt_iff. Z.to_euclidean_division_equations. lia.
      * apply Z.compare_gt_iff. Z.to_euclidean_division_equations. lia.
    + symmetry. apply Z.compare_lt_iff. Z.to_euclidean_division_equations. lia.
    + symmetry. apply Z.compare_gt_iff. Z.to_euclidean_division_equations. lia.
  - pose proof (civil_year_range t1 H1) as Hy.
    destruct (civil_fields (utcDay t1)) as (Hm & Hd & _).
    destruct (time_fields _ Ha) as (Ha1 & Ha2 & Ha3 & Ha4).
    unfold timeOfDay. rewrite padStart_4, !padStart_2, padStart_3 by lia.
    rewrite !length_append. reflexivity.
Qed.

Lemma now_timestamps_sort_chronologically_witness :
  exists s1 s2,
    Db.now 1793613600000 = Normal s1 /\ Db.now 1793613600012 = Normal s2
    /\ String.compare s1 s2 = Lt.
Proof.
  destruct (now_timestamps_sort_chronologically 1793613600000 1793613600012)
    as (s1 & s2 & Hs1 & Hs2 & Hcmp & _).
  - unfold fourDigitYear. lia.
  - unfold fourDigitYear. lia.
  - exists s1, s2. repeat split; assumption.
Defined.


(** ** Renders and the cache *)

Section RenderAndCache.

Variable genTemplate : Mock.SectionData -> string.
Variable genCSS : Mock.SectionData -> string.
Variable site : Site.

Lemma cacheKeyOf_withLocals (options : RenderOptions) (l : Cache.Locals) :
  cacheKeyOf (withLocals options l) = cacheKeyOf options.
Proof. reflexivity. Qed.

Lemma buildContext_withLocals (options : RenderOptions) (l : Cache.Locals)
    (sectionData : Mock.SectionData) (h : Heap) :
  buildContext site (withLocals options l) sectionData h
  = buildContext site options sectionData h.
Proof. reflexivity. Qed.

(** A render that was not served from the cache and carries no error
    has stored its result. *)
Lemma clean_render_stores (options : RenderOptions) (h : Heap) (timing : Timing)
    (result : RenderResult) (l' : Cache.Locals) (h' : Heap) :
  skipCache options = false ->
  renderSection genTemplate genCSS site options h timing = (Normal result, l', h') ->
  cached result = false -> errors result = [] ->
  l' = (Cache.setCachedPreview (cacheKeyOf options) (sectionSlug options) (presetSlug options)
          {| Cache.entry_html := html result; Cache.entry_css := Some (css result);
             Cache.entry_renderTimeMs := renderTimeMs result |}
          60 (locals options) (storeAt timing)).2.
Proof.
  intros Hskip Hrun Hcached Herrors. unfold renderSection in Hrun.
  rewrite Hskip in Hrun. cbn [negb] in Hrun.
  destruct (Cache.getCachedPreview _ (locals options) (lookupAt timing)) as [[hit|]|error].
  - injection Hrun as <- _ _. discriminate Hcached.
  - destruct (loadSectionData site (sectionSlug options)) as [sectionData|] eqn:Hload.
    + destruct (buildContext site options sectionData h) as [context h1] eqn:Hctx.
      destruct (parseAndRender site (resolveTemplate genTemplate site sectionData) context h1)
        as [out|error] eqn:Hout.
      * rewrite (renderFresh_rendered genTemplate genCSS site options h timing
                   sectionData context h1 out Hload Hctx Hout) in Hrun.
        rewrite Hskip in Hrun. injection Hrun as <- <- _. reflexivity.
      * rewrite (renderFresh_throw genTemplate genCSS site options h timing
                   sectionData context h1 error Hload Hctx Hout) in Hrun.
        injection Hrun as <- _ _. discriminate Herrors.
    + rewrite (renderFresh_not_found genTemplate genCSS site options h timing Hload) in Hrun.
      injection Hrun as <- _ _. discriminate Herrors.
  - discriminate Hrun.
Qed.

(** X24.  A render and the next render of the same request.  When a
    render was not served from the cache and produced no error, on a
    backend that accepts the write and the read, the next render of the
    same request is served from the cache, with the html, the css and
    the render time of the first, as long as its lookup falls on a UTC
    day that is not after the day on which the entry expires (sixty
    minutes after the write).  The cached render writes nothing and
    leaves the object store alone. *)
Theorem renderSection_then_served_from_cache (options : RenderOptions) (h h2 : Heap)
    (first second : Timing) (result : RenderResult) (l' : Cache.Locals) (h' : Heap) :
  skipCache options = false ->
  accepts (locals options) Cache.InsertOrReplace ->
  accepts (locals options) Cache.SelectLive ->
  fourDigitYear (storeAt first) -> fourDigitYear (storeAt first + 60 * 60 * 1000) ->
  fourDigitYear (lookupAt second) ->
  utcDay (lookupAt second) <= utcDay (storeAt first + 60 * 60 * 1000) ->
  renderSection genTemplate genCSS site options h first = (Normal result, l', h') ->
  cached result = false -> errors result = [] ->
  renderSection genTemplate genCSS site (withLocals options l') h2 second
  = (Normal {| html := html result; css := css result; errors := [];
               renderTimeMs := renderTimeMs result; cached := true |}, l', h2).
Proof.
  intros Hskip Hins Hsel Hw He Hr Hday Hrun Hcached Herrors.
  pose proof (clean_render_stores options h first result l' h' Hskip Hrun Hcached Herrors) as Hl.
  unfold renderSection. rewrite cacheKeyOf_withLocals.
  change (skipCache (withLocals options l')) with (skipCache options). rewrite Hskip.
  cbn [negb]. change (locals (withLocals options l')) with l'. rewrite Hl at 1.
  rewrite getCachedPreview_after_set by assumption.
  destruct (Z.leb_spec (utcDay (lookupAt second)) (utcDay (storeAt first + 60 * 60 * 1000)));
    [reflexivity | lia].
Qed.

(** X25.  With [skipCache] set, a render neither reads nor writes the
    cache: its result and the object store it leaves are the same on
    every backend, and the backend is left as it was. *)
Theorem renderSection_skipCache_ignores_the_cache (options : RenderOptions) (h : Heap)
    (timing : Timing) (other : Cache.Locals) :
  skipCache options = true ->
  let run := renderSection genTemplate genCSS site options h timing in
  renderSection genTemplate genCSS site (withLocals options other) h timing
  = (run.1.1, other, run.2)
  /\ run.1.2 = locals options.
Proof.
  intros Hskip. cbv zeta. unfold renderSection.
  change (skipCache (withLocals options other)) with (skipCache options).
  rewrite Hskip. cbn [negb]. unfold renderFresh.
  change (skipCache (withLocals options other)) with (skipCache options).
  change (sectionSlug (withLocals options other)) with (sectionSlug options).
  change (locals (withLocals options other)) with other.
  rewrite Hskip. cbn [negb andb].
  destruct (loadSectionData site (sectionSlug options)) as [sectionData|]; [|now split].
  rewrite buildContext_withLocals.
  destruct (buildContext site options sectionData h) as [context h1].
  destruct (parseAndRender site _ context h1); now split.
Qed.

End RenderAndCache.

Lemma renderSection_then_served_from_cache_witness :
  exists result l' h',
    renderSection sampleTemplate sampleCSS (sampleSite sampleEngine)
      (sampleOptions "hero-banner" (healthyBackend emptyTable)) [] sampleTiming
    = (Normal result, l', h')
    /\ renderSection sampleTemplate sampleCSS (sampleSite sampleEngine)
         (withLocals (sampleOptions "hero-banner" (healthyBackend emptyTable)) l') []
         sampleTiming
       = (Normal {| html := html result; css := css result; errors := [];
                    renderTimeMs := renderTimeMs result; cached := true |}, l', []).
Proof.
  eexists _, _, _. split; [vm_compute; reflexivity|].
  eapply (renderSection_then_served_from_cache sampleTemplate sampleCSS (sampleSite sampleEngine)
            (sampleOptions "hero-banner" (healthyBackend emptyTable)) [] [] sampleTiming
            sampleTiming).
  - reflexivity.
  - eexists. reflexivity.
  - eexists. reflexivity.
  - unfold fourDigitYear. cbn. lia.
  - unfold fourDigitYear. cbn. lia.
  - unfold fourDigitYear. cbn. lia.
  - vm_compute. discriminate.
  - vm_compute. reflexivity.
  - reflexivity.
  - reflexivity.
Defined.

Lemma renderSection_skipCache_ignores_the_cache_witness :
  renderSection sampleTemplate sampleCSS (sampleSite sampleEngine)
    (withLocals (uncachedOptions (healthyBackend emptyTable)) unboundBackend) [] sampleTiming
  = ((renderSection sampleTemplate sampleCSS (sampleSite sampleEngine)
        (uncachedOptions (healthyBackend emptyTable)) [] sampleTiming).1.1,
     unboundBackend,
     (renderSection sampleTemplate sampleCSS (sampleSite sampleEngine)
        (uncachedOptions (healthyBackend emptyTable)) [] sampleTiming).2).
Proof.
  apply (proj1 (renderSection_skipCache_ignores_the_cache sampleTemplate sampleCSS
                  (sampleSite sampleEngine) (uncachedOptions (healthyBackend emptyTable)) []
                  sampleTiming unboundBackend eq_refl)).
Defined.

(** ** Custom settings *)

Section OwnEntriesPermutation.
Context {A : Type}.


End OwnEntriesPermutation.










(** ** The batch route *)

Section RouteFacts.

Variable genTemplate : Mock.SectionData -> string.
Variable genCSS : Mock.SectionData -> string.
Variable site : Site.

Lemma renderSectionsBatch_returns (slugs : list string) (preset : option string)
    (l : Cache.Locals) (h : Heap) (timing : nat -> Timing) :
  exists results l' h',
    renderSectionsBatch genTemplate genCSS site slugs preset l h timing
    = (Normal results, l', h')
    /\ dom results = list_to_set (firstn 20 slugs).
Proof.
  unfold renderSectionsBatch.
  destruct (renderEach genTemplate genCSS site (firstn 20 slugs) preset l h timing 0 ∅)
    as [[outcome l'] h'] eqn:Hrun.
  destruct (renderEach_dom genTemplate genCSS site preset timing _ _ _ _ _ _ _ _ Hrun)
    as (results & -> & Hdom).
  exists results, l', h'. split; [reflexivity|]. rewrite Hdom. set_solver.
Qed.

Lemma POST_valid (body : BatchRoute.RequestBody) (slugs : list string)
    (l : Cache.Locals) (h : Heap) (timing : nat -> Timing) (totalTime : Z)
    (resultsMap : gmap string RenderResult) (l' : Cache.Locals) (h' : Heap) :
  BatchRoute.sections body = Some slugs -> slugs <> [] -> (length slugs <= 20)%nat ->
  renderSectionsBatch genTemplate genCSS site slugs (BatchRoute.presetSlug body) l h timing
  = (Normal resultsMap, l', h') ->
  BatchRoute.POST genTemplate genCSS site (Normal body) l h timing totalTime
  = (let results := map (BatchRoute.resultItem resultsMap) slugs in
     let successCount := length (List.filter BatchRoute.item_success results) in
     {| BatchRoute.status := 200;
        BatchRoute.payload :=
          BatchRoute.Rendered results
            {| BatchRoute.total := Z.of_nat (length results);
               BatchRoute.successful := Z.of_nat successCount;
               BatchRoute.failed := Z.of_nat (length results) - Z.of_nat successCount;
               BatchRoute.cachedCount :=
                 Z.of_nat (length (List.filter BatchRoute.item_cached results));
               BatchRoute.totalTimeMs := totalTime |};
        BatchRoute.cacheControl := Some "public, max-age=60" |}, l', h').
Proof.
  intros Hsections Hne Hlen Hrun. unfold BatchRoute.POST. rewrite Hsections.
  destruct slugs as [|slug rest]; [contradiction|].
  destruct (Nat.ltb_spec 20 (length (slug :: rest))) as [|_]; [lia|].
  now rewrite Hrun.
Qed.

(** X27.  A request for one to twenty slugs is answered with status 200
    and one entry per slug, in the order of the request, each made from
    the result that the batch stored for its slug: the entry that stands
    for a slug without a result is never produced.  The counts add up:
    [total] is the number of slugs, [successful] and [failed] sum to
    it, and [cached] does not exceed it. *)
Theorem batch_route_answers_every_slug (body : BatchRoute.RequestBody) (slugs : list string)
    (l : Cache.Locals) (h : Heap) (timing : nat -> Timing) (totalTime : Z) :
  BatchRoute.sections body = Some slugs -> slugs <> [] -> (length slugs <= 20)%nat ->
  exists resultsMap results stats l' h',
    renderSectionsBatch genTemplate genCSS site slugs (BatchRoute.presetSlug body) l h timing
    = (Normal resultsMap, l', h')
    /\ BatchRoute.POST genTemplate genCSS site (Normal body) l h timing totalTime
       = ({| BatchRoute.status := 200;
             BatchRoute.payload := BatchRoute.Rendered results stats;
             BatchRoute.cacheControl := Some "public, max-age=60" |}, l', h')
    /\ Forall2 (fun slug item =>
                  exists result,
                    resultsMap !! slug = Some result /\ item = renderedItem slug result)
               slugs results
    /\ BatchRoute.total stats = Z.of_nat (length slugs)
    /\ BatchRoute.successful stats + BatchRoute.failed stats = BatchRoute.total stats
    /\ 0 <= BatchRoute.successful stats <= BatchRoute.total stats
    /\ 0 <= BatchRoute.cachedCount stats <= BatchRoute.total stats
    /\ BatchRoute.totalTimeMs stats = totalTime.
Proof.
  intros Hsections Hne Hlen.
  destruct (renderSectionsBatch_returns slugs (BatchRoute.presetSlug body) l h timing)
    as (resultsMap & l' & h' & Hrun & Hdom).
  rewrite firstn_all2 in Hdom by exact Hlen.
  eexists resultsMap, _, _, l', h'. split; [exact Hrun|].
  split; [exact (POST_valid body slugs l h timing totalTime resultsMap l' h'
                   Hsections Hne Hlen Hrun)|].
  cbv zeta. cbn [BatchRoute.total BatchRoute.successful BatchRoute.failed
                 BatchRoute.cachedCount BatchRoute.totalTimeMs].
  rewrite length_map.
  pose proof (filter_length_le BatchRoute.item_success
                (map (BatchRoute.resultItem resultsMap) slugs)) as Hs.
  pose proof (filter_length_le BatchRoute.item_cached
                (map (BatchRoute.resultItem resultsMap) slugs)) as Hc.
  rewrite length_map in Hs, Hc.
  split; [|repeat split; lia].
  assert (Hall : forall slug, slug ∈ slugs -> is_Some (resultsMap !! slug)).
  { intros slug Hin. apply elem_of_dom. rewrite Hdom. now apply elem_of_list_to_set. }
  clear -Hall. induction slugs as [|slug rest IH]; [constructor|].
  cbn [map]. constructor.
  - destruct (Hall slug ltac:(left)) as [result Hresult].
    exists result. split; [exact Hresult|].
    unfold BatchRoute.resultItem. now rewrite Hresult.
  - apply IH. intros s Hs. apply Hall. now right.
Qed.


End RouteFacts.

Lemma batch_route_answers_every_slug_witness :
  exists resultsMap results stats l' h',
    renderSectionsBatch sampleTemplate sampleCSS (sampleSite sampleEngine) fiveSlugs None
      (healthyBackend emptyTable) [] (fun _ => sampleTiming)
    = (Normal resultsMap, l', h')
    /\ BatchRoute.POST sampleTemplate sampleCSS (sampleSite sampleEngine)
         (Normal fiveSlugsBody) (healthyBackend emptyTable) [] (fun _ => sampleTiming) 60
       = ({| BatchRoute.status := 200;
             BatchRoute.payload := BatchRoute.Rendered results stats;
             BatchRoute.cacheControl := Some "public, max-age=60" |}, l', h')
    /\ BatchRoute.total stats = 5.
Proof.
  destruct (batch_route_answers_every_slug sampleTemplate sampleCSS (sampleSite sampleEngine)
              fiveSlugsBody fiveSlugs (healthyBackend emptyTable) [] (fun _ => sampleTiming) 60
              eq_refl)
    as (resultsMap & results & stats & l' & h' & Hrun & Hpost & _ & Htotal & _).
  - discriminate.
  - simpl. lia.
  - exists resultsMap, results, stats, l', h'. repeat split; assumption.
Defined.
